(** * css-minimizer-webpack-plugin: the orchestration in [src/index.js]

    A shallow embedding of the [CssMinimizerPlugin] class: the static helpers
    ([isSourceMap], [buildError], [buildWarning], [getAvailableNumberOfCores],
    [getAsset], [updateAsset]), the defaults of the constructor, the
    [optimize] method and the part of [apply] that settles the [sourceMap]
    option.

    What the class gets from outside (the [webpack-sources] constructors,
    the [source-map] consumer, the request shortener, the minifier, the cache
    engine, [os.cpus], the versions) is gathered in the record [Host]; the
    part of webpack's compilation object the class reads and writes is the
    record [Compilation].

    [optimize] is asynchronous: one task per selected asset, suspended at
    its [await]s.  A task is embedded as the function [resume], which takes
    it from one [await] to the next, and [optimize] takes the interleaving
    of the tasks as an argument; the properties are proved for every
    interleaving.

    Two records are kept for the statements only: every entry of
    [compilation.errors] and [compilation.warnings] carries the name of the
    asset whose task pushed it, and the calls of the minifier are listed in
    the shared state. *)

From Stdlib Require Import String Ascii List ZArith NArith Bool Lia.
From Stdlib Require Import DecimalString.
Import ListNotations.

Local Open Scope list_scope.
Local Open Scope string_scope.

Set Warnings "-register-all".

(** ** JavaScript values and strings *)

Module Js.

(** The values the plugin inspects dynamically (option values, source
    maps as handed over by [sourceAndMap], plugin options).  Numbers are
    the integers. *)
Inductive value : Type :=
| VUndefined
| VNull
| VBool (b : bool)
| VNum (z : Z)
| VStr (s : string)
| VArr (items : list value)
| VObj (fields : list (string * value)).

(** [ToBoolean]. *)
Definition truthy (v : value) : bool :=
  match v with
  | VUndefined | VNull => false
  | VBool b => b
  | VNum z => negb (z =? 0)%Z
  | VStr s => negb (s =? "")
  | VArr _ | VObj _ => true
  end.

Fixpoint lookup (k : string) (fields : list (string * value)) : value :=
  match fields with
  | [] => VUndefined
  | (k', v) :: rest => if k' =? k then v else lookup k rest
  end.

(** [v.k] for the property names the plugin reads ([version], [sources],
    [mappings], [columns]); they are own properties of plain objects only,
    every other truthy value answers [undefined]. *)
Definition get (v : value) (k : string) : value :=
  match v with
  | VObj fields => lookup k fields
  | _ => VUndefined
  end.

(** [Array.isArray v]. *)
Definition isArray (v : value) : bool :=
  match v with VArr _ => true | _ => false end.

(** [typeof v === 'string']. *)
Definition isString (v : value) : bool :=
  match v with VStr _ => true | _ => false end.

(** [typeof v === 'undefined']. *)
Definition isUndefined (v : value) : bool :=
  match v with VUndefined => true | _ => false end.

(** [a || b] on values. *)
Definition or (a b : value) : value := if truthy a then a else b.

(** The line feed, written [\n] in the source. *)
Definition nl : string := String (ascii_of_nat 10) "".

(** [hay.startsWith(needle)]. *)
Fixpoint startsWith (needle hay : string) : bool :=
  match needle, hay with
  | "", _ => true
  | String a n', String b h' => Ascii.eqb a b && startsWith n' h'
  | String _ _, "" => false
  end.

(** [hay.includes(needle)]. *)
Fixpoint includes (needle hay : string) : bool :=
  startsWith needle hay ||
  match hay with
  | "" => false
  | String _ h' => includes needle h'
  end.

(** [s.split(sep)] for a one-character separator. *)
Fixpoint split (sep : ascii) (s : string) : list string :=
  match s with
  | "" => [""]
  | String c s' =>
      if Ascii.eqb c sep then "" :: split sep s'
      else match split sep s' with
           | [] => [String c ""]
           | piece :: pieces => String c piece :: pieces
           end
  end.

(** [pieces.join(sep)]. *)
Definition join (sep : string) (pieces : list string) : string :=
  String.concat sep pieces.

(** A non-negative integer in a template literal: its decimal digits
    (the numbers here are line and column numbers, far below the [1e21]
    from which JavaScript prints an exponent). *)
Definition showN (n : N) : string :=
  NilEmpty.string_of_uint (N.to_uint n).

(** A number that may be [null] in a template literal. *)
Definition showNullable (n : option N) : string :=
  match n with Some k => showN k | None => "null" end.

(** A number that may be [undefined] in a template literal. *)
Definition showOptional (n : option N) : string :=
  match n with Some k => showN k | None => "undefined" end.

Definition isDigit (c : ascii) : bool :=
  let n := N_of_ascii c in ((48 <=? n) && (n <=? 57))%N.

(** Unary [+] on a string of decimal digits: its value (JavaScript rounds
    it from [2^53] on). *)
Definition digitsToN (s : string) : N :=
  (fix go (acc : N) (s : string) : N :=
     match s with
     | "" => acc
     | String c s' => go (acc * 10 + (N_of_ascii c - 48))%N s'
     end) 0%N s.

End Js.

(** ** The regular expression of warnings

    [const warningRegex = /\s.+:+([0-9]+):+([0-9]+)/;]

    Strings are sequences of code units, one [ascii] each, so the
    embedding covers the code units below 256.  The matcher follows the
    backtracking semantics of the language: a greedy [+] first tries to
    take one more character and falls back to the rest of the pattern,
    and [exec] returns the match of the leftmost start index. *)

Module WarningRegex.

(** [\s] on the code units below 256: tab, line feed, vertical tab, form
    feed, carriage return, space and the no-break space. *)
Definition isSpace (c : ascii) : bool :=
  let n := N_of_ascii c in
  ((9 <=? n) && (n <=? 13) || (n =? 32) || (n =? 160))%N.

(** [.] : every code unit but the line terminators. *)
Definition isDot (c : ascii) : bool :=
  let n := N_of_ascii c in
  negb ((n =? 10) || (n =? 13))%N.

Definition isColon (c : ascii) : bool := Ascii.eqb c ":".

(** [X+] for a one-character class [X], greedy, followed by [k]; [k] gets
    the text taken by [X+] and what remains of the input. *)
Fixpoint plus {R : Type} (cls : ascii -> bool) (s : string)
         (k : string -> string -> option R) {struct s} : option R :=
  match s with
  | "" => None
  | String c s' =>
      if cls c then
        match plus cls s' (fun taken rest => k (String c taken) rest) with
        | Some r => Some r
        | None => k (String c "") s'
        end
      else None
  end.

(** What [exec] returns: the text before the match, the match, the two
    groups, and the text after the match. *)
Record Match : Type := mkMatch {
  before : string;
  matched : string;
  group1 : string;
  group2 : string;
  after : string
}.

(** The pattern tried at the start of [s]. *)
Definition matchHere (s : string) : option Match :=
  match s with
  | "" => None
  | String c s1 =>
      if isSpace c then
        plus isDot s1 (fun any r1 =>
        plus isColon r1 (fun colons1 r2 =>
        plus Js.isDigit r2 (fun g1 r3 =>
        plus isColon r3 (fun colons2 r4 =>
        plus Js.isDigit r4 (fun g2 r5 =>
          Some (mkMatch ""
                  (String c (any ++ colons1 ++ g1 ++ colons2 ++ g2))
                  g1 g2 r5))))))
      else None
  end.

(** [warningRegex.exec(s)]. *)
Fixpoint exec (s : string) : option Match :=
  match matchHere s with
  | Some m => Some m
  | None =>
      match s with
      | "" => None
      | String c s' =>
          match exec s' with
          | Some m =>
              Some (mkMatch (String c (before m)) (matched m)
                      (group1 m) (group2 m) (after m))
          | None => None
          end
      end
  end.

(** [s.replace(warningRegex, '')]: the first match is cut out. *)
Definition strip (s : string) : string :=
  match exec s with
  | Some m => before m ++ after m
  | None => s
  end.

End WarningRegex.

(** ** The default of the [test] option

    The regular expression of line 40: [\.css], then an optional group of
    [\?] and any characters but line terminators, then [$], under the flag
    [i].

    Under the [i] flag a letter of the pattern matches the code units that
    have its upper case; of the code units below 256 these are the letter
    in its two cases.  The matcher backtracks as the language does: the
    optional group is tried before its absence, [.*] takes what it can
    before it gives back. *)

Module DefaultTest.

(** A letter of the pattern, given in its two cases. *)
Definition isLetter (lower upper c : ascii) : bool :=
  Ascii.eqb c lower || Ascii.eqb c upper.

(** [$] without the [m] flag: the end of the input. *)
Definition atEnd (s : string) : bool :=
  match s with "" => true | String _ _ => false end.

(** [X*] for a one-character class [X], greedy, followed by [k]; [k] gets
    what remains of the input. *)
Fixpoint star (cls : ascii -> bool) (s : string) (k : string -> bool)
  : bool :=
  match s with
  | "" => k ""
  | String c s' => if cls c then star cls s' k || k s else k s
  end.

(** The pattern tried at the start of [s]. *)
Definition matchHere (s : string) : bool :=
  match s with
  | String d (String c (String s1 (String s2 rest))) =>
      Ascii.eqb d "." && isLetter "c" "C" c && isLetter "s" "S" s1 &&
      isLetter "s" "S" s2 &&
      (match rest with
       | String q query =>
           Ascii.eqb q "?" && star WarningRegex.isDot query atEnd
       | "" => false
       end || atEnd rest)
  | _ => false
  end.

(** The [test] method of that regular expression on [s]. *)
Fixpoint test (s : string) : bool :=
  matchHere s ||
  match s with
  | "" => false
  | String _ s' => test s'
  end.

End DefaultTest.

(** ** Data model *)

(** Text or a [Buffer]; a buffer is represented by the text its
    [toString()] yields. *)
Inductive Content : Type :=
| Text (s : string)
| Buffer (decoded : string).

(** [Buffer.isBuffer(input) ? input.toString() : input]. *)
Definition toText (c : Content) : string :=
  match c with Text s => s | Buffer s => s end.

(** A [Source] object of [webpack-sources], as far as the plugin looks at
    it: what [source()] returns, and, when the object has the method, what
    [sourceAndMap()] returns (the [source] and the [map]). *)
Record Source : Type := mkSource {
  source : Content;
  sourceAndMap : option (Content * Js.value)
}.

(** The [info] object of an asset: the [minimized] flag as the plugin
    tests it, and the other properties, which [{ ...info, minimized: true }]
    carries over. *)
Record Info : Type := mkInfo {
  minimized : bool;
  others : list (string * Js.value)
}.

(** [{}]. *)
Definition emptyInfo : Info := mkInfo false [].

(** What [getAsset] returns: [{ name, source, info }]. *)
Record Asset : Type := mkAsset {
  asset_name : string;
  asset_source : Source;
  asset_info : Info
}.

(** An entry of [compilation.errors] or [compilation.warnings]: an [Error]
    object with its message, or a plain string. *)
Inductive Diagnostic : Type :=
| ErrorObject (message : string)
| Message (text : string).

(** An entry together with the asset whose task pushed it (the [name] in
    scope at the [push]); the host only sees [entry]. *)
Record Recorded : Type := mkRecorded {
  pushedFor : string;
  entry : Diagnostic
}.

(** webpack's [compilation], as far as the plugin uses it.  [assets] lists
    the properties of [compilation.assets] in the order [Object.keys]
    enumerates them; [assetsInfo] is the info map behind the asset API;
    [assetApi] says whether [compilation.getAsset] and
    [compilation.updateAsset] exist (webpack 4.40 and later). *)
Record Compilation : Type := mkCompilation {
  assets : list (string * Source);
  assetsInfo : list (string * Info);
  assetApi : bool;
  errors : list Recorded;
  warnings : list Recorded
}.

(** [compiler], of which only [compiler.context] is read. *)
Record Compiler : Type := mkCompiler {
  context : string
}.

(** The [parallel] option: a boolean or a number. *)
Inductive Parallel : Type :=
| ParallelBool (b : bool)
| ParallelNumber (n : Z).

(** [test], [include] and [exclude]: absent, or a condition on the name
    of an asset (what webpack's [matchPart] decides for it). *)
Definition Condition : Type := option (string -> bool).

(** [this.options] without [cacheKeys]. *)
Record Settings : Type := mkSettings {
  test : Condition;
  include : Condition;
  exclude : Condition;
  warningsFilter : option (string -> string -> option string -> bool);
  sourceMap : Js.value;
  cache : Js.value;
  parallel : Parallel;
  minify : Js.value;
  minimizerOptions : Js.value
}.

(** The object handed to the [cacheKeys] option; the entry
    ['css-minimizer-webpack-plugin-options'] is [this.options], here the
    settings. *)
Record DefaultCacheKeys : Type := mkDefaultCacheKeys {
  key_plugin : string;
  key_cssMinimizer : string;
  key_options : Settings;
  key_name : string;
  key_contentHash : string
}.

(** [this.options]. *)
Record Options : Type := mkOptions {
  settings :> Settings;
  cacheKeys : DefaultCacheKeys -> string -> Js.value
}.

(** The options object given to the constructor, after [validate] has
    accepted it; [None] and [Js.VUndefined] stand for a property that is
    absent or [undefined].  [cacheKeys] is apart, as in [Options]. *)
Record RawOptions : Type := mkRawOptions {
  raw_minify : Js.value;
  raw_minimizerOptions : Js.value;
  raw_test : Condition;
  raw_warningsFilter : option (string -> string -> option string -> bool);
  raw_sourceMap : Js.value;
  raw_cache : Js.value;
  raw_parallel : option Parallel;
  raw_include : Condition;
  raw_exclude : Condition
}.

(** The [webpack 4] part of [cacheData]. *)
Record CacheKeyData : Type := mkCacheKeyData {
  cd_input : string;
  cd_inputSourceMap : Js.value;
  cd_cacheKeys : Js.value
}.

(** [cacheData]: [{ name, inputSource }], extended with [input],
    [inputSourceMap] and [cacheKeys] under webpack 4 with the cache on. *)
Record CacheData : Type := mkCacheData {
  cd_name : string;
  cd_inputSource : Source;
  cd_keys : option CacheKeyData
}.

(** The argument of the minifier. *)
Record MinimizerOptions : Type := mkMinimizerOptions {
  mo_name : string;
  mo_input : string;
  mo_inputSourceMap : Js.value;
  mo_map : Js.value;
  mo_minimizerOptions : Js.value;
  mo_minify : Js.value
}.

(** What the minifier resolves with: [{ code, map, warnings }]. *)
Record MinifyResult : Type := mkMinifyResult {
  code : string;
  map : Js.value;
  result_warnings : list string
}.

(** What the minifier rejects with. *)
Record MinifyError : Type := mkMinifyError {
  err_line : option N;
  err_column : option N;
  err_message : string;
  err_stack : option string
}.

Inductive MinifyOutcome : Type :=
| Returned (r : MinifyResult)
| Thrown (e : MinifyError).

(** [output] once it has its [source]: a fresh result or a cache entry. *)
Record Output : Type := mkOutput {
  out_result : MinifyResult;
  out_source : Source
}.

(** One call of the minifier: in process ([minifyFn]) or through the
    worker ([worker.transform]). *)
Inductive Call : Type :=
| InProcess (o : MinimizerOptions)
| ViaWorker (o : MinimizerOptions).

Definition callName (c : Call) : string :=
  match c with InProcess o | ViaWorker o => mo_name o end.

(** What [originalPositionFor] returns. *)
Record Original : Type := mkOriginal {
  orig_source : option string;
  orig_line : option N;
  orig_column : option N
}.

(** A [SourceMapConsumer]: its [originalPositionFor({ line, column })];
    [column] is [undefined] when an error has none. *)
Record Consumer : Type := mkConsumer {
  originalPositionFor : N -> option N -> option Original
}.

(** A [RequestShortener]: its [shorten]. *)
Record Shortener : Type := mkShortener {
  shorten : string -> string
}.

(** What the class gets from outside:
    - [cpus]: what [os.cpus()] returns, [None] for [undefined], else the
      length of the array;
    - [webpackVersion], [pluginVersion], [cssMinimizerVersion]: the [version]
      of webpack, of [../package.json] and of [cssnano/package.json];
    - [md4]: the hexadecimal MD4 digest of [crypto];
    - [RawSource], [SourceMapSource]: the constructors of [webpack-sources];
    - [SourceMapConsumer], [RequestShortener]: the constructors of
      [source-map] and of webpack;
    - [minifyFn]: [minify] of [./minify]; [workerTransform]: the [transform]
      of the [jest-worker] on the options it is sent;
    - [CacheEngine]: the entries of the cache engine [optimize] creates;
      [cacheGet]: the answer of its [get] from the entries stored so far
      ([None] for a falsy answer).  Its [store] adds an entry. *)
Record Host : Type := mkHost {
  cpus : option nat;
  webpackVersion : string;
  pluginVersion : string;
  cssMinimizerVersion : string;
  md4 : string -> string;
  RawSource : string -> Source;
  SourceMapSource :
    string -> string -> Js.value -> string -> Js.value -> bool -> Source;
  SourceMapConsumer : Js.value -> Consumer;
  RequestShortener : string -> Shortener;
  minifyFn : MinimizerOptions -> MinifyOutcome;
  workerTransform : MinimizerOptions -> MinifyOutcome;
  CacheEngine : Compilation -> Js.value -> list (Output * CacheData);
  cacheGet : list (Output * CacheData) -> CacheData -> option Output
}.

(** The limit given to [pLimit]. *)
Inductive Concurrency : Type :=
| Infinity
| AtMost (n : Z).

(** The scheduler [optimize] sets up: the limit and, when a worker was
    created, its [numWorkers]. *)
Record Scheduler : Type := mkScheduler {
  concurrency : Concurrency;
  worker : option Z
}.

(** The state the tasks of one [optimize] share: the compilation, the
    entries of the cache, and the calls of the minifier made so far. *)
Record World : Type := mkWorld {
  compilation : Compilation;
  stored : list (Output * CacheData);
  calls : list Call
}.

(** The devtool setting of the compiler: unset, [false], or a string. *)
Inductive Devtool : Type :=
| DevtoolUnset
| DevtoolFalse
| DevtoolString (s : string).

(** An entry of [compiler.options.plugins]: whether it is an instance of
    [SourceMapDevToolPlugin], and its [options]. *)
Record PluginEntry : Type := mkPluginEntry {
  isSourceMapDevToolPlugin : bool;
  plugin_options : Js.value
}.

(** The local variables of a task that it still needs after its first
    [await]: [info], [input], [inputSourceMap] and [cacheData]. *)
Record Local : Type := mkLocal {
  l_info : Info;
  l_input : string;
  l_inputSourceMap : Js.value;
  l_cacheData : CacheData
}.

(** How a task ended: at the [return] of line 266, with the output of the
    cache, at the [return] of the [catch] block, or with a fresh output. *)
Inductive Verdict : Type :=
| Skipped
| Reused (output : Output)
| Failed (error : MinifyError)
| Minified (output : Output).

(** Where a task stands.  It is suspended at each of its three [await]s
    with the value the awaited promise will resolve or reject with; it has
    returned ([Finished]), or thrown ([Rejected]). *)
Inductive Progress : Type :=
| Queued
| AwaitingCache (l : Local) (answer : option Output)
| AwaitingMinifier (l : Local) (outcome : MinifyOutcome)
| AwaitingStore (l : Local) (output : Output)
| Finished (verdict : Verdict)
| Rejected.

(** What [optimize] resolves with, and what it set up on the way: the
    shared state, the tasks with the way each ended, the scheduler ([None]
    when it returned before creating one) and whether [worker.end()] was
    awaited. *)
Record Run : Type := mkRun {
  run_world : World;
  run_tasks : list (string * Progress);
  run_scheduler : option Scheduler;
  run_workerEnded : bool
}.

(** ** Objects keyed by strings *)

(** [object[k]]. *)
Fixpoint property {A : Type} (k : string) (object : list (string * A))
  : option A :=
  match object with
  | [] => None
  | (k', v) :: rest => if k' =? k then Some v else property k rest
  end.

(** [object[k] = v]: an existing property keeps its place; a new one comes
    last (the class assigns to the names of existing assets only). *)
Fixpoint assign {A : Type} (k : string) (v : A) (object : list (string * A))
  : list (string * A) :=
  match object with
  | [] => [(k, v)]
  | (k', v') :: rest =>
      if k' =? k then (k, v) :: rest else (k', v') :: assign k v rest
  end.

(** [Object.keys(object)]. *)
Definition keys {A : Type} (object : list (string * A)) : list string :=
  List.map fst object.

(** ** webpack's side of the asset store *)

(** [ModuleFilenameHelpers.matchObject(options, name)]. *)
Definition matchObject (o : Settings) (name : string) : bool :=
  match test o with
  | Some matches => matches name
  | None => true
  end &&
  match include o with
  | Some matches => matches name
  | None => true
  end &&
  match exclude o with
  | Some matches => negb (matches name)
  | None => true
  end.

(** [compilation.getAsset(name)]. *)
Definition compilation_getAsset (c : Compilation) (name : string)
  : option Asset :=
  match property name (assets c) with
  | None => None
  | Some s =>
      Some (mkAsset name s
              match property name (assetsInfo c) with
              | Some i => i
              | None => emptyInfo
              end)
  end.

(** [compilation.updateAsset(name, newSource, assetInfo)]; it throws
    ([None]) for a name that is not an asset.  The info it is given by the
    plugin spreads the old one, so it is the new info of the asset. *)
Definition compilation_updateAsset (c : Compilation) (name : string)
           (newSource : Source) (assetInfo : Info) : option Compilation :=
  match property name (assets c) with
  | None => None
  | Some _ =>
      Some (mkCompilation (assign name newSource (assets c))
              (assign name assetInfo (assetsInfo c))
              (assetApi c) (errors c) (warnings c))
  end.

(** [compilation.errors.push(e)] and [compilation.warnings.push(w)]. *)
Definition pushError (c : Compilation) (e : Recorded) : Compilation :=
  mkCompilation (assets c) (assetsInfo c) (assetApi c)
    (errors c ++ [e])%list (warnings c).

Definition pushWarning (c : Compilation) (w : Recorded) : Compilation :=
  mkCompilation (assets c) (assetsInfo c) (assetApi c)
    (errors c) (warnings c ++ [w])%list.

(** ** The class *)

Module CssMinimizerPlugin.

(** [x = d] in a destructuring pattern: the default stands in for
    [undefined] only. *)
Definition orDefault (v d : Js.value) : Js.value :=
  if Js.isUndefined v then d else v.

(** Lines 35 to 61 of the constructor: [this.options], without
    [cacheKeys]. *)
Definition constructor (options : RawOptions) : Settings :=
  mkSettings
    (match raw_test options with
     | Some condition => Some condition
     | None => Some DefaultTest.test
     end)
    (raw_include options)
    (raw_exclude options)
    (match raw_warningsFilter options with
     | Some keep => Some keep
     | None => Some (fun _ _ _ => true)
     end)
    (raw_sourceMap options)
    (orDefault (raw_cache options) (Js.VBool true))
    (match raw_parallel options with
     | Some p => p
     | None => ParallelBool true
     end)
    (raw_minify options)
    (orDefault (raw_minimizerOptions options)
       (Js.VObj [("preset", Js.VStr "default")])).

(** [static isSourceMap(input)]. *)
Definition isSourceMap (input : Js.value) : bool :=
  Js.truthy input &&
  Js.truthy (Js.get input "version") &&
  Js.truthy (Js.get input "sources") &&
  Js.isArray (Js.get input "sources") &&
  Js.isString (Js.get input "mappings").

(** [error.stack ? `\n${error.stack.split('\n').slice(1).join('\n')}` : ''] *)
Definition stackLines (stack : option string) : string :=
  match stack with
  | Some s =>
      if negb (s =? "")
      then Js.nl ++ Js.join Js.nl (List.tl (Js.split (ascii_of_nat 10) s))
      else ""
  | None => ""
  end.

(** Whether [original && original.source] is truthy, and the source. *)
Definition resolvedSource (original : option Original) : option string :=
  match original with
  | Some o =>
      match orig_source o with
      | Some s => if negb (s =? "") then Some s else None
      | None => None
      end
  | None => None
  end.

(** [error.line], when it is truthy. *)
Definition truthyLine (error : MinifyError) : option N :=
  match err_line error with
  | Some line => if negb (line =? 0)%N then Some line else None
  | None => None
  end.

(** [static buildError(error, file, sourceMap, requestShortener)]; the
    result is the message of the [Error] it returns. *)
Definition buildError (error : MinifyError) (file : string)
           (sourceMap : option Consumer) (requestShortener : option Shortener)
  : string :=
  match truthyLine error with
  | Some line =>
      let original :=
        match sourceMap with
        | Some consumer =>
            originalPositionFor consumer line (err_column error)
        | None => None
        end in
      match original, resolvedSource original, requestShortener with
      | Some o, Some src, Some shortener =>
          file ++ " from Css Minimizer Webpack Plugin" ++ Js.nl ++
          err_message error ++ " [" ++ shorten shortener src ++ ":" ++
          Js.showNullable (orig_line o) ++ "," ++
          Js.showNullable (orig_column o) ++ "][" ++ file ++ ":" ++
          Js.showN line ++ "," ++ Js.showOptional (err_column error) ++
          "]" ++ stackLines (err_stack error)
      | _, _, _ =>
          file ++ " from Css Minimizer " ++ Js.nl ++ err_message error ++
          " [" ++ file ++ ":" ++ Js.showN line ++ "," ++
          Js.showOptional (err_column error) ++ "]" ++
          stackLines (err_stack error)
      end
  | None =>
      match err_stack error with
      | Some s =>
          if negb (s =? "")
          then file ++ " from Css Minimizer" ++ Js.nl ++ s
          else file ++ " from Css Minimizer" ++ Js.nl ++ err_message error
      | None => file ++ " from Css Minimizer" ++ Js.nl ++ err_message error
      end
  end.

(** The three variables [buildWarning] sets before it asks the filter:
    [warningMessage], [locationMessage] and [source]. *)
Record WarningParts : Type := mkWarningParts {
  warningMessage : string;
  locationMessage : string;
  resolved : option string
}.

(** Lines 122 to 151 of [buildWarning]. *)
Definition warningParts (warning file : string) (sourceMap : option Consumer)
           (requestShortener : option Shortener) : WarningParts :=
  let unchanged := mkWarningParts warning "" None in
  match sourceMap with
  | Some consumer =>
      match WarningRegex.exec warning with
      | Some m =>
          let line := Js.digitsToN (WarningRegex.group1 m) in
          let column := Js.digitsToN (WarningRegex.group2 m) in
          let original := originalPositionFor consumer line (Some column) in
          match original, resolvedSource original, requestShortener with
          | Some o, Some src, Some shortener =>
              if negb (src =? file) then
                mkWarningParts
                  (WarningRegex.strip warning)
                  (shorten shortener src ++ ":" ++
                   Js.showNullable (orig_line o) ++ ":" ++
                   Js.showNullable (orig_column o))
                  (Some src)
              else unchanged
          | _, _, _ => unchanged
          end
      | None => unchanged
      end
  | None => unchanged
  end.

(** [static buildWarning(warning, file, sourceMap, requestShortener,
    warningsFilter)]; [None] is [null]. *)
Definition buildWarning (warning file : string) (sourceMap : option Consumer)
           (requestShortener : option Shortener)
           (warningsFilter : option (string -> string -> option string -> bool))
  : option string :=
  let parts := warningParts warning file sourceMap requestShortener in
  let built :=
    "Css Minimizer Plugin: " ++ warningMessage parts ++ " " ++
    locationMessage parts in
  match warningsFilter with
  | Some keep =>
      if negb (keep warning file (resolved parts)) then None else Some built
  | None => Some built
  end.

(** [cpus.length], with [const cpus = os.cpus() || { length: 1 }];
    [osCpus] is what [os.cpus()] returns: [None] for [undefined], or the
    length of the array. *)
Definition cpusLength (osCpus : option nat) : Z :=
  match osCpus with
  | Some n => Z.of_nat n
  | None => 1%Z
  end.

(** [Number(parallel) || 0]. *)
Definition numberOrZero (parallel : Parallel) : Z :=
  let n :=
    match parallel with
    | ParallelBool true => 1%Z
    | ParallelBool false => 0%Z
    | ParallelNumber n => n
    end in
  if (n =? 0)%Z then 0%Z else n.

(** [static getAvailableNumberOfCores(parallel)], given what [os.cpus()]
    returns. *)
Definition getAvailableNumberOfCores (osCpus : option nat)
           (parallel : Parallel) : Z :=
  match parallel with
  | ParallelBool true => (cpusLength osCpus - 1)%Z
  | _ => Z.min (numberOrZero parallel) (cpusLength osCpus - 1)
  end.

(** [static getAsset(compilation, name)]; [None] is [undefined]. *)
Definition getAsset (c : Compilation) (name : string) : option Asset :=
  if assetApi c then compilation_getAsset c name
  else
    match property name (assets c) with
    | Some s => Some (mkAsset name s emptyInfo)
    | None => None
    end.

(** [static updateAsset(compilation, name, newSource, assetInfo)]; [None]
    when the host's [updateAsset] throws. *)
Definition updateAsset (c : Compilation) (name : string) (newSource : Source)
           (assetInfo : Info) : option Compilation :=
  let assignSource (c : Compilation) :=
    mkCompilation (assign name newSource (assets c)) (assetsInfo c)
      (assetApi c) (errors c) (warnings c) in
  if assetApi c then
    match compilation_updateAsset c name newSource assetInfo with
    | Some c' => Some (assignSource c')
    | None => None
    end
  else Some (assignSource c).

(** [static isWebpack4()]. *)
Definition isWebpack4 (h : Host) : bool :=
  match webpackVersion h with
  | String c _ => Ascii.eqb c "4"
  | "" => false
  end.

(** The filter of lines 193 to 213 on one name; [None] when [getAsset]
    returns [undefined] and reading [info] off it throws. *)
Definition selected (o : Options) (c : Compilation) (assetName : string)
  : option bool :=
  if negb (matchObject o assetName) then Some false
  else
    match getAsset c assetName with
    | None => None
    | Some a => if minimized (asset_info a) then Some false else Some true
    end.

(** [Object.keys(...).filter(...)] with that filter. *)
Fixpoint selectAssets (o : Options) (c : Compilation) (names : list string)
  : option (list string) :=
  match names with
  | [] => Some []
  | assetName :: rest =>
      match selected o c assetName with
      | None => None
      | Some keep =>
          match selectAssets o c rest with
          | None => None
          | Some chosen => Some (if keep then assetName :: chosen else chosen)
          end
      end
  end.

(** Lines 219 to 248: the limit for [pLimit] and the worker. *)
Definition schedule (h : Host) (o : Options) (assetNames : list string)
  : Scheduler :=
  let availableNumberOfCores :=
    getAvailableNumberOfCores (cpus h) (parallel o) in
  if (availableNumberOfCores >? 0)%Z then
    let numWorkers :=
      Z.min (Z.of_nat (List.length assetNames)) availableNumberOfCores in
    mkScheduler (AtMost numWorkers) (Some numWorkers)
  else mkScheduler Infinity None.

(** [input], [inputSourceMap] and the compilation after lines 269 to 292. *)
Record Extracted : Type := mkExtracted {
  ex_input : Content;
  ex_inputSourceMap : Js.value;
  ex_compilation : Compilation
}.

(** The warning of lines 284 to 286. *)
Definition invalidSourceMap (name : string) : Recorded :=
  mkRecorded name (ErrorObject (name ++ " contains invalid source map")).

(** Lines 269 to 292. *)
Definition readInput (o : Options) (name : string) (inputSource : Source)
           (c : Compilation) : Extracted :=
  match Js.truthy (sourceMap o), sourceAndMap inputSource with
  | true, Some (src, map) =>
      if Js.truthy map then
        if isSourceMap map then mkExtracted src map c
        else mkExtracted src map (pushWarning c (invalidSourceMap name))
      else mkExtracted src Js.VUndefined c
  | _, _ => mkExtracted (source inputSource) Js.VNull c
  end.

(** Lines 298 to 320. *)
Definition cacheDataFor (h : Host) (o : Options) (name : string)
           (inputSource : Source) (input : string)
           (inputSourceMap : Js.value) : CacheData :=
  mkCacheData name inputSource
    (if isWebpack4 h && Js.truthy (cache o) then
       Some (mkCacheKeyData input inputSourceMap
               (cacheKeys o
                  (mkDefaultCacheKeys (pluginVersion h)
                     (cssMinimizerVersion h) o name (md4 h input))
                  name))
     else None).

(** Lines 329 to 336. *)
Definition minimizerOptionsFor (o : Options) (name input : string)
           (inputSourceMap : Js.value) : MinimizerOptions :=
  mkMinimizerOptions name input inputSourceMap (sourceMap o)
    (minimizerOptions o) (minify o).

(** [inputSourceMap && isSourceMap(inputSourceMap)
     ? new SourceMapConsumer(inputSourceMap) : null] *)
Definition consumerFor (h : Host) (inputSourceMap : Js.value)
  : option Consumer :=
  if Js.truthy inputSourceMap && isSourceMap inputSourceMap
  then Some (SourceMapConsumer h inputSourceMap)
  else None.

(** The body of the [forEach] of lines 374 to 388. *)
Definition reportWarning (h : Host) (o : Options) (compiler : Compiler)
           (name : string) (inputSourceMap : Js.value) (c : Compilation)
           (warning : string) : Compilation :=
  match buildWarning warning name (consumerFor h inputSourceMap)
          (Some (RequestShortener h (context compiler))) (warningsFilter o)
  with
  | Some builtWarning =>
      if negb (builtWarning =? "")
      then pushWarning c (mkRecorded name (Message builtWarning))
      else c
  | None => c
  end.

(** Lines 373 to 389. *)
Definition reportWarnings (h : Host) (o : Options) (compiler : Compiler)
           (name : string) (inputSourceMap : Js.value)
           (warnings : list string) (c : Compilation) : Compilation :=
  List.fold_left (reportWarning h o compiler name inputSourceMap) warnings c.

(** Lines 357 to 368: the [source] of a fresh result. *)
Definition sourceOf (h : Host) (name input : string)
           (inputSourceMap : Js.value) (r : MinifyResult) : Source :=
  if Js.truthy (map r)
  then SourceMapSource h (code r) name (map r) input inputSourceMap true
  else RawSource h (code r).

(** Lines 338 to 340: the minifier, through the worker when there is one
    ([worker.transform(serialize(minimizerOptions))]). *)
Definition dispatch (h : Host) (wk : option Z) (options : MinimizerOptions)
  : MinifyOutcome :=
  match wk with
  | Some _ => workerTransform h options
  | None => minifyFn h options
  end.

(** The call [dispatch] makes. *)
Definition callOf (wk : option Z) (options : MinimizerOptions) : Call :=
  match wk with
  | Some _ => ViaWorker options
  | None => InProcess options
  end.

(** The error of lines 342 to 352. *)
Definition minifyFailure (h : Host) (compiler : Compiler) (name : string)
           (inputSourceMap : Js.value) (error : MinifyError) : Recorded :=
  mkRecorded name
    (ErrorObject
       (buildError error name (consumerFor h inputSourceMap)
          (Some (RequestShortener h (context compiler))))).

(** Lines 259 to 325: a task from its first line to [await cache.get(...)].
    The cache answers from the entries stored when it is asked. *)
Definition start (h : Host) (o : Options) (name : string) (w : World)
  : Progress * World :=
  match getAsset (compilation w) name with
  | None => (Rejected, w)
  | Some a =>
      let inputSource := asset_source a in
      let info := asset_info a in
      if minimized info then (Finished Skipped, w)
      else
        let ex := readInput o name inputSource (compilation w) in
        let input := toText (ex_input ex) in
        let inputSourceMap := ex_inputSourceMap ex in
        let cacheData :=
          cacheDataFor h o name inputSource input inputSourceMap in
        (AwaitingCache (mkLocal info input inputSourceMap cacheData)
           (cacheGet h (stored w) cacheData),
         mkWorld (ex_compilation ex) (stored w) (calls w))
  end.

(** Lines 373 to 395: what a task does with its [output], fresh or from
    the cache, up to its end. *)
Definition finish (h : Host) (o : Options) (compiler : Compiler)
           (name : string) (l : Local) (output : Output) (verdict : Verdict)
           (w : World) : Progress * World :=
  let c1 :=
    reportWarnings h o compiler name (l_inputSourceMap l)
      (result_warnings (out_result output)) (compilation w) in
  let newInfo := mkInfo true (others (l_info l)) in
  match updateAsset c1 name (out_source output) newInfo with
  | Some c2 => (Finished verdict, mkWorld c2 (stored w) (calls w))
  | None => (Rejected, mkWorld c1 (stored w) (calls w))
  end.

(** A task from where it stands to its next [await], or to its end:
    - queued, it starts;
    - after [await cache.get(...)] it goes on with the output of the cache
      (lines 373 to 395) or calls the minifier (lines 329 to 340);
    - after [await] of the minifier it records the error and returns (lines
      341 to 355), or builds the source and stores the output (lines 357
      to 370);
    - after [await cache.store(...)] it goes on to its end (lines 373 to
      395). *)
Definition resume (h : Host) (o : Options) (compiler : Compiler)
           (wk : option Z) (name : string) (p : Progress) (w : World)
  : Progress * World :=
  match p with
  | Queued => start h o name w
  | AwaitingCache l (Some output) =>
      finish h o compiler name l output (Reused output) w
  | AwaitingCache l None =>
      let options :=
        minimizerOptionsFor o name (l_input l) (l_inputSourceMap l) in
      (AwaitingMinifier l (dispatch h wk options),
       mkWorld (compilation w) (stored w)
         (calls w ++ [callOf wk options])%list)
  | AwaitingMinifier l (Thrown error) =>
      (Finished (Failed error),
       mkWorld
         (pushError (compilation w)
            (minifyFailure h compiler name (l_inputSourceMap l) error))
         (stored w) (calls w))
  | AwaitingMinifier l (Returned r) =>
      let output :=
        mkOutput r (sourceOf h name (l_input l) (l_inputSourceMap l) r) in
      (AwaitingStore l output,
       mkWorld (compilation w)
         (stored w ++ [(output, l_cacheData l)])%list (calls w))
  | AwaitingStore l output =>
      finish h o compiler name l output (Minified output) w
  | Finished _ | Rejected => (p, w)
  end.

(** The tasks of [optimize] and the state they share. *)
Definition Pool : Type := (list (string * Progress) * World)%type.

(** The task of [name] takes its next step; the other tasks stay where
    they are. *)
Definition advance (h : Host) (o : Options) (compiler : Compiler)
           (wk : option Z) (pool : Pool) (name : string) : Pool :=
  match property name (fst pool) with
  | None => pool
  | Some p =>
      let stepped := resume h o compiler wk name p (snd pool) in
      (assign name (fst stepped) (fst pool), snd stepped)
  end.

(** The tasks take their steps in the order [order] names them. *)
Definition runSchedule (h : Host) (o : Options) (compiler : Compiler)
           (wk : option Z) (order : list string) (pool : Pool) : Pool :=
  List.fold_left (advance h o compiler wk) order pool.

(** Every task from where it stands to its end, one task after the
    other: a task has at most four steps. *)
Definition toTheEnd (assetNames : list string) : list string :=
  List.flat_map (fun name => [name; name; name; name]) assetNames.

Definition isRejected (task : string * Progress) : bool :=
  match snd task with Rejected => true | _ => false end.

(** Lines 254 to 400: the tasks from their creation to the end of
    [Promise.all].  The tasks run interleaved: between two [await]s a task
    runs alone, and at an [await] any other task may go on.  [interleaving]
    names the tasks in the order in which they take their steps; the tasks
    it leaves unfinished are then run to their end in the order of
    [assetNames], so that the empty interleaving runs the tasks one after
    the other.  The limit given to [pLimit] only rules interleavings
    out. *)
Definition runTasks (h : Host) (o : Options) (compiler : Compiler)
           (wk : option Z) (interleaving assetNames : list string)
           (w : World) : Pool :=
  runSchedule h o compiler wk (interleaving ++ toTheEnd assetNames)%list
    (List.map (fun name => (name, Queued)) assetNames, w).

(** [async optimize(compiler, compilation, assets, CacheEngine, weakCache)],
    under an interleaving of its tasks; [assets] is [None] for [undefined].
    [None] when the promise rejects.  When no asset is selected no cache
    engine is created. *)
Definition optimize (h : Host) (o : Options) (compiler : Compiler)
           (c : Compilation) (assetsArgument : option (list (string * Source)))
           (interleaving : list string) : option Run :=
  let object :=
    match assetsArgument with
    | None => assets c
    | Some given => given
    end in
  match selectAssets o c (keys object) with
  | None => None
  | Some assetNames =>
      if (List.length assetNames =? 0)%nat
      then Some (mkRun (mkWorld c [] []) [] None false)
      else
        let scheduler := schedule h o assetNames in
        let engine := CacheEngine h c (cache o) in
        let result :=
          runTasks h o compiler (worker scheduler) interleaving assetNames
            (mkWorld c engine []) in
        if List.existsb isRejected (fst result) then None
        else
          Some (mkRun (snd result) (fst result) (Some scheduler)
                  match worker scheduler with
                  | Some _ => true
                  | None => false
                  end)
  end.

(** [devtool && !devtool.includes('eval') && !devtool.includes('cheap') &&
     (devtool.includes('source-map') || devtool.includes('sourcemap'))] *)
Definition devtoolImpliesSourceMap (devtool : Devtool) : Js.value :=
  match devtool with
  | DevtoolUnset => Js.VUndefined
  | DevtoolFalse => Js.VBool false
  | DevtoolString s =>
      if negb (s =? "") then
        Js.VBool (negb (Js.includes "eval" s) &&
                  negb (Js.includes "cheap" s) &&
                  (Js.includes "source-map" s || Js.includes "sourcemap" s))
      else Js.VStr s
  end.

(** [plugin instanceof SourceMapDevToolPlugin && plugin.options &&
     plugin.options.columns], as [some] tests it. *)
Definition emitsColumns (plugin : PluginEntry) : bool :=
  isSourceMapDevToolPlugin plugin &&
  Js.truthy (plugin_options plugin) &&
  Js.truthy (Js.get (plugin_options plugin) "columns").

(** [plugins && plugins.some(...)]. *)
Definition pluginsEmitColumns (plugins : option (list PluginEntry))
  : Js.value :=
  match plugins with
  | None => Js.VUndefined
  | Some entries => Js.VBool (List.existsb emitsColumns entries)
  end.

(** Lines 417 to 432 of [apply]: the value [this.options.sourceMap] gets. *)
Definition effectiveSourceMap (o : Options) (devtool : Devtool)
           (plugins : option (list PluginEntry)) : Js.value :=
  if Js.isUndefined (sourceMap o)
  then Js.or (devtoolImpliesSourceMap devtool) (pluginsEmitColumns plugins)
  else sourceMap o.

(** [apply(compiler)], as far as it changes [this.options]. *)
Definition apply (o : Options) (devtool : Devtool)
           (plugins : option (list PluginEntry)) : Options :=
  mkOptions
    (mkSettings (test o) (include o) (exclude o) (warningsFilter o)
       (effectiveSourceMap o devtool plugins) (cache o) (parallel o)
       (minify o) (minimizerOptions o))
    (cacheKeys o).

End CssMinimizerPlugin.

Import CssMinimizerPlugin.

(** ** Reading the shared lists *)

(** The entries of a list of diagnostics that were pushed for [name]. *)
Definition entriesFor (name : string) (l : list Recorded) : list Diagnostic :=
  List.map entry (List.filter (fun r => pushedFor r =? name) l).

(** The calls of the minifier made for [name]. *)
Definition callsFor (name : string) (l : list Call) : list Call :=
  List.filter (fun c => callName c =? name) l.

Definition isViaWorker (c : Call) : bool :=
  match c with ViaWorker _ => true | InProcess _ => false end.

Definition isMessage (d : Diagnostic) : bool :=
  match d with Message _ => true | ErrorObject _ => false end.

(** The [input] a task reads off the source of its asset. *)
Definition inputFor (o : Options) (inputSource : Source) : string :=
  match Js.truthy (sourceMap o), sourceAndMap inputSource with
  | true, Some (src, _) => toText src
  | _, _ => toText (source inputSource)
  end.

(** The [inputSourceMap] a task reads off the source of its asset. *)
Definition inputSourceMapFor (o : Options) (inputSource : Source) : Js.value :=
  match Js.truthy (sourceMap o), sourceAndMap inputSource with
  | true, Some (_, map) => if Js.truthy map then map else Js.VUndefined
  | _, _ => Js.VNull
  end.

(** What [readInput] pushes on the warnings. *)
Definition readWarnings (o : Options) (name : string) (inputSource : Source)
  : list Recorded :=
  match Js.truthy (sourceMap o), sourceAndMap inputSource with
  | true, Some (_, map) =>
      if Js.truthy map && negb (isSourceMap map)
      then [invalidSourceMap name]
      else []
  | _, _ => []
  end.

(** The [cacheData] and the [minimizerOptions] of the task of an asset. *)
Definition cacheDataOf (h : Host) (o : Options) (a : Asset) : CacheData :=
  cacheDataFor h o (asset_name a) (asset_source a)
    (inputFor o (asset_source a)) (inputSourceMapFor o (asset_source a)).

Definition minimizerOptionsOf (o : Options) (a : Asset) : MinimizerOptions :=
  minimizerOptionsFor o (asset_name a)
    (inputFor o (asset_source a)) (inputSourceMapFor o (asset_source a)).

(** The names [optimize] enumerates. *)
Definition enumerated (c : Compilation)
           (assetsArgument : option (list (string * Source))) : list string :=
  keys match assetsArgument with
       | None => assets c
       | Some given => given
       end.

(** The world the first task starts in. *)
Definition initialWorld (h : Host) (o : Options) (c : Compilation) : World :=
  mkWorld c (CacheEngine h c (cache o)) [].

(** [w'] differs from [w] by what a task for [name] may do: replace the
    asset and the info of [name], and append entries for [name] to the
    shared lists. *)
Record Extends (name : string) (w w' : World) : Prop := mkExtends {
  ext_api : assetApi (compilation w') = assetApi (compilation w);
  ext_assets : forall k, k <> name ->
    property k (assets (compilation w')) =
    property k (assets (compilation w));
  ext_infos : forall k, k <> name ->
    property k (assetsInfo (compilation w')) =
    property k (assetsInfo (compilation w));
  ext_present : forall k,
    property k (assets (compilation w)) <> None ->
    property k (assets (compilation w')) <> None;
  ext_errors : exists es,
    errors (compilation w') = (errors (compilation w) ++ es)%list /\
    Forall (fun r => pushedFor r = name) es;
  ext_warnings : exists ws,
    warnings (compilation w') = (warnings (compilation w) ++ ws)%list /\
    Forall (fun r => pushedFor r = name) ws;
  ext_calls : exists cs,
    calls w' = (calls w ++ cs)%list /\
    Forall (fun c => callName c = name) cs
}.

(** What [reportWarnings] pushes on the warnings. *)
Definition builtWarnings (h : Host) (o : Options) (compiler : Compiler)
           (name : string) (inputSourceMap : Js.value)
           (warnings : list string) : list Recorded :=
  List.flat_map
    (fun warning =>
       match buildWarning warning name (consumerFor h inputSourceMap)
               (Some (RequestShortener h (context compiler)))
               (warningsFilter o) with
       | Some builtWarning => [mkRecorded name (Message builtWarning)]
       | None => []
       end)
    warnings.

(** The info [updateAsset] leaves for an asset whose info was [info]. *)
Definition minimizedInfo (c : Compilation) (info : Info) : Info :=
  if assetApi c then mkInfo true (others info) else emptyInfo.

(** A task for another name leaves all that belongs to [k] as it was. *)
Record Untouched (k : string) (w w' : World) : Prop := mkUntouched {
  same_asset :
    property k (assets (compilation w')) =
    property k (assets (compilation w));
  same_info :
    property k (assetsInfo (compilation w')) =
    property k (assetsInfo (compilation w));
  same_errors :
    entriesFor k (errors (compilation w')) =
    entriesFor k (errors (compilation w));
  same_warnings :
    entriesFor k (warnings (compilation w')) =
    entriesFor k (warnings (compilation w));
  same_calls : callsFor k (calls w') = callsFor k (calls w)
}.

(** The asset API stays, and no asset disappears. *)
Record Stable (w w' : World) : Prop := mkStable {
  same_api : assetApi (compilation w') = assetApi (compilation w);
  still_present : forall k,
    property k (assets (compilation w)) <> None ->
    property k (assets (compilation w')) <> None
}.

(** The devtool setting stands for full source maps: it has no [eval], no
    [cheap], and has [source-map] or [sourcemap]. *)
Definition impliesFullSourceMaps (devtool : Devtool) : Prop :=
  exists s,
    devtool = DevtoolString s /\
    Js.includes "eval" s = false /\
    Js.includes "cheap" s = false /\
    (Js.includes "source-map" s = true \/ Js.includes "sourcemap" s = true).

(** A [SourceMapDevToolPlugin] with truthy [options.columns] is among the
    plugins. *)
Definition companionWithColumns (plugins : option (list PluginEntry)) : Prop :=
  exists entries p,
    plugins = Some entries /\ In p entries /\
    isSourceMapDevToolPlugin p = true /\
    Js.truthy (plugin_options p) = true /\
    Js.truthy (Js.get (plugin_options p) "columns") = true.

(** The local variables of the task of an asset. *)
Definition localOf (h : Host) (o : Options) (a : Asset) : Local :=
  mkLocal (asset_info a) (inputFor o (asset_source a))
    (inputSourceMapFor o (asset_source a)) (cacheDataOf h o a).

(** The asset a finished task leaves. *)
Definition updatedAsset (c : Compilation) (a : Asset) (output : Output)
  : Asset :=
  mkAsset (asset_name a) (out_source output) (minimizedInfo c (asset_info a)).

(** The steps a task has left, at most. *)
Definition stepsLeft (p : Progress) : nat :=
  match p with
  | Queued => 4
  | AwaitingCache _ _ => 3
  | AwaitingMinifier _ _ => 2
  | AwaitingStore _ _ => 1
  | Finished _ | Rejected => 0
  end.

(** What the shared lists hold for [name], over what the compilation [c]
    came with: the errors [es], the warnings [ws] and the calls [cs]. *)
Definition Own (c : Compilation) (name : string) (w : World)
           (es ws : list Recorded) (cs : list Call) : Prop :=
  entriesFor name (errors (compilation w)) =
    (entriesFor name (errors c) ++ List.map entry es)%list /\
  entriesFor name (warnings (compilation w)) =
    (entriesFor name (warnings c) ++ List.map entry ws)%list /\
  callsFor name (calls w) = cs.

Section Invariant.

Variables (h : Host) (o : Options) (compiler : Compiler) (wk : option Z).
Variable c : Compilation.

(** The cache was asked for the asset and gave [answer]. *)
Definition Answered (a : Asset) (answer : option Output) : Prop :=
  exists st, cacheGet h st (cacheDataOf h o a) = answer.

(** The minifier returned [r] for the asset and [output] is built on it. *)
Definition Fresh (a : Asset) (output : Output) : Prop :=
  exists r,
    dispatch h wk (minimizerOptionsOf o a) = Returned r /\
    output =
      mkOutput r
        (sourceOf h (asset_name a) (inputFor o (asset_source a))
           (inputSourceMapFor o (asset_source a)) r).

(** What holds of the task of the asset [a] of the compilation [c] where
    it stands, whatever the other tasks did in between. *)
Definition TaskInv (a : Asset) (p : Progress) (w : World) : Prop :=
  let name := asset_name a in
  let read := readWarnings o name (asset_source a) in
  let ism := inputSourceMapFor o (asset_source a) in
  let call := callOf wk (minimizerOptionsOf o a) in
  let built (output : Output) :=
    builtWarnings h o compiler name ism (result_warnings (out_result output)) in
  match p with
  | Queued =>
      getAsset (compilation w) name = Some a /\ Own c name w [] [] []
  | AwaitingCache l answer =>
      l = localOf h o a /\ Answered a answer /\
      getAsset (compilation w) name = Some a /\ Own c name w [] read []
  | AwaitingMinifier l outcome =>
      l = localOf h o a /\ Answered a None /\
      outcome = dispatch h wk (minimizerOptionsOf o a) /\
      getAsset (compilation w) name = Some a /\ Own c name w [] read [call]
  | AwaitingStore l output =>
      l = localOf h o a /\ Answered a None /\ Fresh a output /\
      getAsset (compilation w) name = Some a /\ Own c name w [] read [call]
  | Finished Skipped => False
  | Finished (Reused output) =>
      Answered a (Some output) /\
      getAsset (compilation w) name = Some (updatedAsset c a output) /\
      Own c name w [] (read ++ built output) []
  | Finished (Failed error) =>
      Answered a None /\
      dispatch h wk (minimizerOptionsOf o a) = Thrown error /\
      getAsset (compilation w) name = Some a /\
      Own c name w [minifyFailure h compiler name ism error] read [call]
  | Finished (Minified output) =>
      Answered a None /\ Fresh a output /\
      getAsset (compilation w) name = Some (updatedAsset c a output) /\
      Own c name w [] (read ++ built output) [call]
  | Rejected => False
  end.

(** Every task is the task of an asset the filter selected, and stands
    as [TaskInv] says. *)
Definition PoolInv (pool : Pool) : Prop :=
  assetApi (compilation (snd pool)) = assetApi c /\
  forall name p,
    property name (fst pool) = Some p ->
    exists a,
      getAsset c name = Some a /\ minimized (asset_info a) = false /\
      TaskInv a p (snd pool).

End Invariant.


(** ** What the further properties speak of *)

(** [ext] is [.css], each letter in either case. *)
Definition isCssSuffix (ext : string) : Prop :=
  exists c s1 s2,
    ext = String "." (String c (String s1 (String s2 ""))) /\
    (c = "c"%char \/ c = "C"%char) /\
    (s1 = "s"%char \/ s1 = "S"%char) /\
    (s2 = "s"%char \/ s2 = "S"%char).

(** No line terminator in [s]. *)
Definition oneLine (s : string) : Prop :=
  forall c, In c (list_ascii_of_string s) -> WarningRegex.isDot c = true.

(** [s] is not empty and all its characters are in the class [cls]. *)
Definition allOf (cls : ascii -> bool) (s : string) : Prop :=
  s <> "" /\ forall c, In c (list_ascii_of_string s) -> cls c = true.

(** [m] is a match of [warningRegex]: a white space, one character or
    more on one line, colons, the digits of the first group, colons, the
    digits of the second group. *)
Definition isPosition (m : WarningRegex.Match) : Prop :=
  exists c any colons1 colons2,
    WarningRegex.matched m =
      String c (any ++ colons1 ++ WarningRegex.group1 m ++ colons2 ++
                WarningRegex.group2 m) /\
    WarningRegex.isSpace c = true /\
    allOf WarningRegex.isDot any /\
    allOf WarningRegex.isColon colons1 /\
    allOf Js.isDigit (WarningRegex.group1 m) /\
    allOf WarningRegex.isColon colons2 /\
    allOf Js.isDigit (WarningRegex.group2 m).

(** [warning] holds a position somewhere. *)
Definition hasPosition (warning : string) : Prop :=
  exists m,
    isPosition m /\
    warning =
      WarningRegex.before m ++ WarningRegex.matched m ++ WarningRegex.after m.

(** No line feed in [s]. *)
Definition noLineFeed (s : string) : Prop :=
  forall c, In c (list_ascii_of_string s) -> c <> ascii_of_nat 10.


(** The entries of the cache stored under the name of an asset. *)
Definition storedFor (name : string) (l : list (Output * CacheData))
  : list (Output * CacheData) :=
  List.filter (fun e => cd_name (snd e) =? name) l.

(** What a task has put into the cache where it stands: its output, once
    the minifier has returned it. *)
Definition freshlyStored (h : Host) (o : Options) (a : Asset) (p : Progress)
  : list (Output * CacheData) :=
  match p with
  | AwaitingStore _ output | Finished (Minified output) =>
      [(output, cacheDataOf h o a)]
  | _ => []
  end.

(** Under every name the cache holds what the engine came with and what
    the task of that name has stored. *)
Definition StoreInv (h : Host) (o : Options) (c : Compilation)
           (engine : list (Output * CacheData)) (pool : Pool) : Prop :=
  forall name,
    storedFor name (stored (snd pool)) =
    (storedFor name engine ++
     match property name (fst pool), getAsset c name with
     | Some p, Some a => freshlyStored h o a p
     | _, _ => []
     end)%list.

(** [w'] has the assets of [w] under the same names and in the same
    order, and its lists are those of [w] with entries for [names] after
    them. *)
Record Grown (names : list string) (w w' : World) : Prop := mkGrown {
  grown_keys : keys (assets (compilation w')) = keys (assets (compilation w));
  grown_errors : exists es,
    errors (compilation w') = (errors (compilation w) ++ es)%list /\
    Forall (fun r => In (pushedFor r) names) es;
  grown_warnings : exists ws,
    warnings (compilation w') = (warnings (compilation w) ++ ws)%list /\
    Forall (fun r => In (pushedFor r) names) ws;
  grown_calls : exists cs,
    calls w' = (calls w ++ cs)%list /\
    Forall (fun call => In (callName call) names) cs
}.

(** The task of [n] ended in the [catch] block. *)
Definition hasFailed (tasks : list (string * Progress)) (n : string) : bool :=
  match property n tasks with
  | Some (Finished (Failed _)) => true
  | _ => false
  end.



(** ** A host, a configuration and a compilation to run the plugin on *)

Module Sample.

(** [name.endsWith(suffix)]. *)
Definition endsWith (suffix name : string) : bool :=
  let n := String.length name in
  let k := String.length suffix in
  (k <=? n)%nat && (String.substring (n - k) k name =? suffix).

(** A map without [mappings]. *)
Definition brokenMap : Js.value :=
  Js.VObj [("version", Js.VNum 3); ("sources", Js.VArr [Js.VStr "main.scss"])].

Definition goodMap : Js.value :=
  Js.VObj [("version", Js.VNum 3);
           ("sources", Js.VArr [Js.VStr "original.css"]);
           ("mappings", Js.VStr "AAAA")].

Definition mainSource : Source :=
  mkSource (Text ".a{color: red;  }")
    (Some (Text ".a{color: red;  }", brokenMap)).

Definition brokenSource : Source := mkSource (Text "a{") None.

Definition cachedSource : Source :=
  mkSource (Buffer ".b{}") (Some (Buffer ".b{}", goodMap)).

Definition textSource : Source := mkSource (Text "plain") None.

Definition doneSource : Source := mkSource (Text ".c{}") None.

Definition compilation : Compilation :=
  mkCompilation
    [("main.css", mainSource); ("broken.css", brokenSource);
     ("cached.css", cachedSource); ("b.txt", textSource);
     ("done.css", doneSource)]
    [("done.css", mkInfo true [])]
    true [] [].

Definition compiler : Compiler := mkCompiler "/project".

Definition settings : Settings :=
  mkSettings (Some (endsWith ".css")) None None
    (Some (fun _ _ _ => true))
    (Js.VBool true) (Js.VBool true) (ParallelBool true)
    Js.VUndefined (Js.VObj [("preset", Js.VStr "default")]).

Definition options : Options :=
  mkOptions settings (fun keys _ => Js.VStr (key_contentHash keys)).


(** The same, with the [sourceMap] option unset. *)
Definition unsetOptions : Options :=
  mkOptions
    (mkSettings (Some (endsWith ".css")) None None None
       Js.VUndefined (Js.VBool true) (ParallelBool true)
       Js.VUndefined Js.VUndefined)
    (fun keys _ => Js.VStr (key_contentHash keys)).

Definition unclosed : MinifyError :=
  mkMinifyError (Some 1%N) (Some 3%N) "Unclosed block" None.

(** A minifier that fails on ["a{"], knows one stylesheet, and otherwise
    returns its input; it warns about what it returns. *)
Definition minifier (options : MinimizerOptions) : MinifyOutcome :=
  if mo_input options =? "a{" then Thrown unclosed
  else
    Returned
      (mkMinifyResult
         (if mo_input options =? ".a{color: red;  }"
          then ".a{color:red}"
          else mo_input options)
         Js.VUndefined
         ["Unexpected token at a.css:12:34"]).

Definition cachedOutput : Output :=
  mkOutput (mkMinifyResult ".b{}" Js.VUndefined ["cached warning"])
    (mkSource (Text ".b{}") None).

(** A consumer that resolves every position to [original.css:5:2]. *)
Definition consumer : Consumer :=
  mkConsumer
    (fun _ _ => Some (mkOriginal (Some "original.css") (Some 5%N) (Some 2%N))).

(** A consumer that resolves every position into [a.css] itself. *)
Definition selfConsumer : Consumer :=
  mkConsumer
    (fun _ _ => Some (mkOriginal (Some "a.css") (Some 5%N) (Some 2%N))).

Definition shortener : Shortener := mkShortener (fun path => path).

(** Four logical units, webpack 5, a cache that knows [cached.css]. *)
Definition host : Host :=
  mkHost (Some 4%nat) "5.1.0" "1.1.5" "4.1.10"
    (fun input => input)
    (fun code => mkSource (Text code) (Some (Text code, Js.VNull)))
    (fun code _ map _ _ _ => mkSource (Text code) (Some (Text code, map)))
    (fun _ => consumer)
    (fun _ => shortener)
    minifier minifier
    (fun _ _ => [])
    (fun _ data =>
       if cd_name data =? "cached.css" then Some cachedOutput else None).

(** An interleaving of the three tasks of the example: all three ask the
    cache before any of them goes on. *)
Definition interleaving : list string :=
  ["main.css"; "broken.css"; "cached.css"; "broken.css"; "cached.css";
   "main.css"; "broken.css"].

(** A compilation with one stylesheet. *)
Definition single : Compilation :=
  mkCompilation [("main.css", mainSource)] [] true [] [].

(** [new CssMinimizerPlugin()]: no option given. *)
Definition noOptions : RawOptions :=
  mkRawOptions Js.VUndefined Js.VUndefined None None Js.VUndefined
    Js.VUndefined None None None.

(** The options of that plugin, with a [cacheKeys] that keeps the hash of
    the content. *)
Definition defaultOptions : Options :=
  mkOptions (constructor noOptions)
    (fun keys _ => Js.VStr (key_contentHash keys)).

(** A compilation in which nothing is left to minify: a text file and a
    stylesheet that is flagged. *)
Definition idleCompilation : Compilation :=
  mkCompilation
    [("b.txt", textSource); ("done.css", doneSource)]
    [("done.css", mkInfo true [])]
    true [] [].

(** One stylesheet in a compilation without the asset API. *)
Definition legacyCompilation : Compilation :=
  mkCompilation [("main.css", mainSource)] [] false [] [].

End Sample.

(** ** Properties of keyed objects *)

Lemma property_assign_same {A : Type} (k : string) (v : A) object :
  property k (assign k v object) = Some v.
Proof.
  induction object as [|[k' v'] rest IH]; simpl.
  - now rewrite String.eqb_refl.
  - destruct (k' =? k) eqn:E; simpl.
    + now rewrite String.eqb_refl.
    + now rewrite E.
Qed.

Lemma property_assign_other {A : Type} (k k' : string) (v : A) object :
  k <> k' -> property k' (assign k v object) = property k' object.
Proof.
  intros Hne.
  induction object as [|[k0 v0] rest IH]; simpl.
  - destruct (k =? k') eqn:E; [apply String.eqb_eq in E; contradiction|easy].
  - destruct (k0 =? k) eqn:E; simpl.
    + apply String.eqb_eq in E; subst k0.
      destruct (k =? k') eqn:E'; [apply String.eqb_eq in E'; contradiction|easy].
    + now rewrite IH.
Qed.

(** ** What each step of a task changes *)

Lemma readInput_frame o name s c :
  let c' := ex_compilation (readInput o name s c) in
  assets c' = assets c /\ assetsInfo c' = assetsInfo c /\
  assetApi c' = assetApi c /\ errors c' = errors c /\
  warnings c' = (warnings c ++ readWarnings o name s)%list.
Proof.
  unfold readInput, readWarnings.
  destruct (Js.truthy (sourceMap o)); simpl;
    [destruct (sourceAndMap s) as [[src m]|]; simpl;
     [destruct (Js.truthy m); simpl; [destruct (isSourceMap m); simpl|]|]|];
    rewrite ?app_nil_r; repeat split; reflexivity.
Qed.

Lemma buildWarning_not_empty warning file sm rs wf built :
  buildWarning warning file sm rs wf = Some built -> (built =? "") = false.
Proof.
  unfold buildWarning. intros H.
  destruct wf as [keep|];
    [destruct (negb (keep warning file _)); [discriminate|]|];
    injection H as <-; reflexivity.
Qed.

Lemma reportWarning_frame h o compiler name ism c warning :
  let c' := reportWarning h o compiler name ism c warning in
  assets c' = assets c /\ assetsInfo c' = assetsInfo c /\
  assetApi c' = assetApi c /\ errors c' = errors c /\
  warnings c' =
    (warnings c ++ builtWarnings h o compiler name ism [warning])%list.
Proof.
  unfold reportWarning, builtWarnings. simpl.
  destruct (buildWarning warning name _ _ _) as [built|] eqn:E; simpl.
  - rewrite (buildWarning_not_empty _ _ _ _ _ _ E). simpl.
    repeat split; reflexivity.
  - rewrite app_nil_r. repeat split; reflexivity.
Qed.

Lemma builtWarnings_cons h o compiler name ism warning rest :
  builtWarnings h o compiler name ism (warning :: rest) =
  (builtWarnings h o compiler name ism [warning] ++
   builtWarnings h o compiler name ism rest)%list.
Proof. unfold builtWarnings. simpl. now rewrite app_nil_r. Qed.

Lemma reportWarnings_frame h o compiler name ism ws : forall c,
  let c' := reportWarnings h o compiler name ism ws c in
  assets c' = assets c /\ assetsInfo c' = assetsInfo c /\
  assetApi c' = assetApi c /\ errors c' = errors c /\
  warnings c' = (warnings c ++ builtWarnings h o compiler name ism ws)%list.
Proof.
  induction ws as [|warning rest IH]; intros c.
  - cbn. rewrite app_nil_r. repeat split; reflexivity.
  - change (reportWarnings h o compiler name ism (warning :: rest) c)
      with (reportWarnings h o compiler name ism rest
              (reportWarning h o compiler name ism c warning)).
    destruct (IH (reportWarning h o compiler name ism c warning))
      as (Ha & Hi & Hp & He & Hw).
    destruct (reportWarning_frame h o compiler name ism c warning)
      as (Ha' & Hi' & Hp' & He' & Hw').
    cbv zeta. rewrite Ha, Hi, Hp, He, Hw, Ha', Hi', Hp', He', Hw'.
    rewrite (builtWarnings_cons h o compiler name ism warning rest).
    rewrite app_assoc. repeat split; reflexivity.
Qed.

Lemma builtWarnings_pushedFor h o compiler name ism ws :
  Forall (fun r => pushedFor r = name /\ isMessage (entry r) = true)
    (builtWarnings h o compiler name ism ws).
Proof.
  unfold builtWarnings. induction ws as [|warning rest IH]; simpl.
  - constructor.
  - apply Forall_app. split; [|exact IH].
    destruct (buildWarning warning name _ _ _); repeat constructor.
Qed.

Lemma updateAsset_total c name s i :
  property name (assets c) <> None -> updateAsset c name s i <> None.
Proof.
  unfold updateAsset, compilation_updateAsset. intros H.
  destruct (assetApi c); [|discriminate].
  destruct (property name (assets c)); [discriminate|contradiction].
Qed.

Lemma updateAsset_frame c name s i c' :
  updateAsset c name s i = Some c' ->
  property name (assets c') = Some s /\
  (forall k, k <> name -> property k (assets c') = property k (assets c)) /\
  assetsInfo c' =
    (if assetApi c then assign name i (assetsInfo c) else assetsInfo c) /\
  assetApi c' = assetApi c /\ errors c' = errors c /\
  warnings c' = warnings c.
Proof.
  unfold updateAsset, compilation_updateAsset. intros H.
  destruct (assetApi c) eqn:Hapi.
  - destruct (property name (assets c)); [|discriminate].
    injection H as <-. simpl.
    rewrite property_assign_same.
    repeat split; try reflexivity.
    intros k Hk. rewrite !property_assign_other by congruence. reflexivity.
  - injection H as <-. simpl.
    rewrite property_assign_same.
    repeat split; try reflexivity; try assumption.
    intros k Hk. rewrite property_assign_other by congruence. reflexivity.
Qed.

Lemma readInput_input o name s c :
  toText (ex_input (readInput o name s c)) = inputFor o s /\
  ex_inputSourceMap (readInput o name s c) = inputSourceMapFor o s.
Proof.
  unfold readInput, inputFor, inputSourceMapFor.
  destruct (Js.truthy (sourceMap o)); simpl;
    [destruct (sourceAndMap s) as [[src m]|]; simpl;
     [destruct (Js.truthy m); simpl; [destruct (isSourceMap m); simpl|]|]|];
    split; reflexivity.
Qed.

Lemma getAsset_inv c name a :
  getAsset c name = Some a ->
  asset_name a = name /\ property name (assets c) = Some (asset_source a) /\
  asset_info a =
    (if assetApi c
     then match property name (assetsInfo c) with
          | Some i => i
          | None => emptyInfo
          end
     else emptyInfo).
Proof.
  unfold getAsset, compilation_getAsset.
  destruct (assetApi c); destruct (property name (assets c));
    intros H; try discriminate; injection H as <-; simpl; auto.
Qed.

Lemma getAsset_present c name :
  getAsset c name <> None <-> property name (assets c) <> None.
Proof.
  unfold getAsset, compilation_getAsset.
  destruct (assetApi c); destruct (property name (assets c));
    split; intros H; try discriminate; try contradiction; auto.
Qed.

Lemma getAsset_ext c c' name :
  assetApi c' = assetApi c ->
  property name (assets c') = property name (assets c) ->
  property name (assetsInfo c') = property name (assetsInfo c) ->
  getAsset c' name = getAsset c name.
Proof.
  unfold getAsset, compilation_getAsset. intros -> -> ->. reflexivity.
Qed.

(** ** Entries and calls by name *)

Lemma entriesFor_app k l l' :
  entriesFor k (l ++ l') = (entriesFor k l ++ entriesFor k l')%list.
Proof. unfold entriesFor. now rewrite filter_app, map_app. Qed.

Lemma entriesFor_other k name l :
  Forall (fun r => pushedFor r = name) l -> k <> name -> entriesFor k l = [].
Proof.
  unfold entriesFor. intros H Hne. induction H as [|r l Hr _ IH]; simpl.
  - reflexivity.
  - rewrite Hr. destruct (String.eqb_spec name k) as [->|_];
      [contradiction|exact IH].
Qed.

Lemma entriesFor_same name l :
  Forall (fun r => pushedFor r = name) l ->
  entriesFor name l = List.map entry l.
Proof.
  unfold entriesFor. intros H. induction H as [|r l Hr _ IH]; simpl.
  - reflexivity.
  - rewrite Hr, String.eqb_refl. simpl. now rewrite IH.
Qed.

Lemma callsFor_app k l l' :
  callsFor k (l ++ l') = (callsFor k l ++ callsFor k l')%list.
Proof. unfold callsFor. now rewrite filter_app. Qed.

Lemma callsFor_other k name l :
  Forall (fun c => callName c = name) l -> k <> name -> callsFor k l = [].
Proof.
  unfold callsFor. intros H Hne. induction H as [|r l Hr _ IH]; simpl.
  - reflexivity.
  - rewrite Hr. destruct (String.eqb_spec name k) as [->|_];
      [contradiction|exact IH].
Qed.

Lemma callsFor_same name l :
  Forall (fun c => callName c = name) l -> callsFor name l = l.
Proof.
  unfold callsFor. intros H. induction H as [|r l Hr _ IH]; simpl.
  - reflexivity.
  - rewrite Hr, String.eqb_refl. now rewrite IH.
Qed.

Lemma Untouched_refl k w : Untouched k w w.
Proof. constructor; reflexivity. Qed.

Lemma Untouched_trans k w1 w2 w3 :
  Untouched k w1 w2 -> Untouched k w2 w3 -> Untouched k w1 w3.
Proof.
  intros [a1 i1 e1 g1 c1] [a2 i2 e2 g2 c2].
  constructor; congruence.
Qed.

Lemma Stable_refl w : Stable w w.
Proof. constructor; auto. Qed.

Lemma Stable_trans w1 w2 w3 : Stable w1 w2 -> Stable w2 w3 -> Stable w1 w3.
Proof.
  intros [a1 p1] [a2 p2]. constructor; [congruence|auto].
Qed.

Lemma Extends_Untouched name k w w' :
  Extends name w w' -> k <> name -> Untouched k w w'.
Proof.
  intros [_ Ha Hi _ (es & He & Fe) (ws & Hw & Fw) (cs & Hc & Fc)] Hne.
  constructor; auto.
  - rewrite He, entriesFor_app, (entriesFor_other k name es Fe Hne).
    apply app_nil_r.
  - rewrite Hw, entriesFor_app, (entriesFor_other k name ws Fw Hne).
    apply app_nil_r.
  - rewrite Hc, callsFor_app, (callsFor_other k name cs Fc Hne).
    apply app_nil_r.
Qed.

Lemma Extends_Stable name w w' : Extends name w w' -> Stable w w'.
Proof. intros [Hp _ _ Hs _ _ _]. constructor; assumption. Qed.

Lemma getAsset_Untouched k w w' :
  Stable w w' -> Untouched k w w' ->
  getAsset (compilation w') k = getAsset (compilation w) k.
Proof.
  intros [Hp _] [Ha Hi _ _ _]. now apply getAsset_ext.
Qed.

(** ** The number of workers *)

(** C4, as amended.  The number of usable workers is the number of listed
    logical units minus one, with one unit assumed when the system lists
    none as [undefined]; it is not clamped at zero.  Requested as [true] the
    count is that number, requested as a number [n] it is the smaller of [n]
    and that number.  With at least one unit listed it is
    [max (units - 1) 0], and a request of [2] with four units gives [2]. *)
Theorem available_cores_follow_cpus (osCpus : option nat) :
  getAvailableNumberOfCores osCpus (ParallelBool true) =
    (cpusLength osCpus - 1)%Z /\
  (forall n : Z,
     getAvailableNumberOfCores osCpus (ParallelNumber n) =
       Z.min n (cpusLength osCpus - 1)) /\
  (forall units : nat,
     getAvailableNumberOfCores (Some (S units)) (ParallelBool true) =
       Z.max (cpusLength (Some (S units)) - 1) 0) /\
  getAvailableNumberOfCores None (ParallelBool true) = 0%Z /\
  getAvailableNumberOfCores (Some 4%nat) (ParallelNumber 2) = 2%Z.
Proof.
  split; [reflexivity|]. split.
  - intros n. unfold getAvailableNumberOfCores, numberOrZero.
    destruct (Z.eqb_spec n 0) as [->|_]; reflexivity.
  - split; [|split; reflexivity].
    intros units. unfold getAvailableNumberOfCores, cpusLength. lia.
Qed.

(** C4 as stated fails where [os.cpus()] is the empty array: the count is
    [-1], not [max (0 - 1) 0]. *)
Lemma available_cores_not_clamped :
  getAvailableNumberOfCores (Some 0%nat) (ParallelBool true) <>
  Z.max (cpusLength (Some 0%nat) - 1) 0.
Proof. vm_compute. discriminate. Qed.

(** ** The [sourceMap] option *)

Lemma existsb_emitsColumns entries :
  List.existsb emitsColumns entries = true <->
  companionWithColumns (Some entries).
Proof.
  rewrite existsb_exists. unfold companionWithColumns, emitsColumns. split.
  - intros (p & Hin & Hp).
    apply andb_prop in Hp. destruct Hp as (Hp & Hc).
    apply andb_prop in Hp. destruct Hp as (Hi & Ho).
    exists entries, p. auto.
  - intros (entries' & p & Heq & Hin & Hi & Ho & Hc).
    injection Heq as <-. exists p. split; [exact Hin|].
    now rewrite Hi, Ho, Hc.
Qed.

Lemma devtool_true devtool :
  devtoolImpliesSourceMap devtool = Js.VBool true <->
  impliesFullSourceMaps devtool.
Proof.
  unfold impliesFullSourceMaps. split.
  - destruct devtool as [| |s]; simpl; try discriminate.
    destruct (s =? "") eqn:Hs; simpl; [discriminate|].
    intros H. injection H as H.
    apply andb_prop in H. destruct H as (H & Hind).
    apply andb_prop in H. destruct H as (He & Hc).
    exists s. split; [reflexivity|].
    split; [now apply negb_true_iff|]. split; [now apply negb_true_iff|].
    now apply orb_prop.
  - intros (s & -> & He & Hc & Hind). simpl.
    assert (Hs : (s =? "") = false).
    { destruct s; [|reflexivity]. destruct Hind; discriminate. }
    rewrite Hs, He, Hc. simpl.
    destruct Hind as [->| ->]; [reflexivity|]. now rewrite orb_true_r.
Qed.

Lemma devtool_truthy devtool :
  Js.truthy (devtoolImpliesSourceMap devtool) = true ->
  devtoolImpliesSourceMap devtool = Js.VBool true.
Proof.
  destruct devtool as [| |s]; simpl; try discriminate.
  destruct (s =? "") eqn:Hs; simpl.
  - now rewrite Hs.
  - now intros ->.
Qed.

(** C8.  With the option unset, [apply] makes [sourceMap] [true] exactly
    when the devtool string stands for full source maps (no [eval], no
    [cheap], and [source-map] or [sourcemap] in it) or a
    [SourceMapDevToolPlugin] with columns is configured, and leaves it
    falsy otherwise; an option that is set is kept. *)
Theorem sourceMap_option_settled_by_apply
        (o : Options) (devtool : Devtool)
        (plugins : option (list PluginEntry)) :
  (sourceMap o = Js.VUndefined ->
   (sourceMap (apply o devtool plugins) = Js.VBool true <->
    impliesFullSourceMaps devtool \/ companionWithColumns plugins) /\
   (Js.truthy (sourceMap (apply o devtool plugins)) = true <->
    sourceMap (apply o devtool plugins) = Js.VBool true)) /\
  (sourceMap o <> Js.VUndefined ->
   sourceMap (apply o devtool plugins) = sourceMap o).
Proof.
  split.
  - intros Hunset. simpl. unfold effectiveSourceMap. rewrite Hunset. simpl.
    unfold Js.or.
    destruct (Js.truthy (devtoolImpliesSourceMap devtool)) eqn:Hd.
    + pose proof (devtool_truthy devtool Hd) as Htrue. rewrite Htrue.
      split; [|simpl; tauto].
      split; [intros _; left; now apply devtool_true|reflexivity].
    + assert (Hnot : ~ impliesFullSourceMaps devtool).
      { intros H. apply devtool_true in H. rewrite H in Hd. discriminate. }
      destruct plugins as [entries|]; simpl.
      * split.
        { split.
          - intros H. injection H as H. right.
            now apply existsb_emitsColumns.
          - intros [H|H]; [contradiction|].
            apply existsb_emitsColumns in H. now rewrite H. }
        { split; [now intros ->|]. intros H. now injection H. }
      * split.
        { split; [discriminate|].
          intros [H|(entries & p & H & _)]; [contradiction|discriminate]. }
        { split; discriminate. }
  - intros Hset. simpl. unfold effectiveSourceMap.
    destruct (sourceMap o); try reflexivity. contradiction.
Qed.

(** [apply] on an unset option with a [source-map] devtool, and on an
    option that is set. *)
Lemma sourceMap_option_settled_by_apply_witness :
  sourceMap (apply Sample.unsetOptions (DevtoolString "source-map") None) =
    Js.VBool true /\
  sourceMap (apply Sample.options (DevtoolString "eval") None) =
    Js.VBool true.
Proof.
  split.
  - destruct (proj1 (sourceMap_option_settled_by_apply Sample.unsetOptions
                       (DevtoolString "source-map") None) eq_refl)
      as [[_ Hif] _].
    apply Hif. left. exists "source-map".
    split; [reflexivity|]. split; [reflexivity|]. split; [reflexivity|].
    left. reflexivity.
  - apply (proj2 (sourceMap_option_settled_by_apply Sample.options
                    (DevtoolString "eval") None)).
    simpl. discriminate.
Defined.

(** ** The match of [warningRegex] *)

Lemma plus_inv {R : Type} (cls : ascii -> bool) (s : string) :
  forall (k : string -> string -> option R) (r : R),
  WarningRegex.plus cls s k = Some r ->
  exists taken rest,
    s = taken ++ rest /\ taken <> "" /\ k taken rest = Some r.
Proof.
  induction s as [|c s' IH]; simpl; intros k r H; [discriminate|].
  destruct (cls c); [|discriminate].
  destruct (WarningRegex.plus cls s' (fun taken rest => k (String c taken) rest))
    as [r'|] eqn:E.
  - injection H as <-. apply IH in E.
    destruct E as (taken & rest & -> & _ & Hk).
    exists (String c taken), rest. repeat split; [discriminate|exact Hk].
  - exists (String c ""), s'. repeat split; [discriminate|exact H].
Qed.

Lemma append_assoc (a b c : string) : (a ++ b) ++ c = a ++ (b ++ c).
Proof. induction a as [|x a IH]; simpl; [reflexivity|now rewrite IH]. Qed.

Lemma matchHere_inv s m :
  WarningRegex.matchHere s = Some m ->
  WarningRegex.before m = "" /\
  s = WarningRegex.matched m ++ WarningRegex.after m.
Proof.
  unfold WarningRegex.matchHere. destruct s as [|c s1]; [discriminate|].
  destruct (WarningRegex.isSpace c); [|discriminate].
  intros H.
  apply plus_inv in H. destruct H as (any & r1 & -> & _ & H).
  apply plus_inv in H. destruct H as (colons1 & r2 & -> & _ & H).
  apply plus_inv in H. destruct H as (g1 & r3 & -> & _ & H).
  apply plus_inv in H. destruct H as (colons2 & r4 & -> & _ & H).
  apply plus_inv in H. destruct H as (g2 & r5 & -> & _ & H).
  injection H as <-. simpl. split; [reflexivity|].
  now rewrite !append_assoc.
Qed.

Lemma exec_inv s : forall m,
  WarningRegex.exec s = Some m ->
  s = WarningRegex.before m ++ WarningRegex.matched m ++ WarningRegex.after m.
Proof.
  induction s as [|c s' IH]; intros m H.
  - simpl in H. discriminate.
  - cbn [WarningRegex.exec] in H.
    destruct (WarningRegex.matchHere (String c s')) as [m'|] eqn:E.
    + injection H as <-. apply matchHere_inv in E.
      destruct E as (-> & E). exact E.
    + destruct (WarningRegex.exec s') as [m'|]; [|discriminate].
      injection H as <-. simpl. now rewrite (IH m' eq_refl) at 1.
Qed.

Lemma strip_exec s m :
  WarningRegex.exec s = Some m ->
  WarningRegex.strip s = WarningRegex.before m ++ WarningRegex.after m.
Proof. unfold WarningRegex.strip. now intros ->. Qed.

(** ** Warnings *)

Lemma warningParts_rewritten warning file consumer shortener m original src :
  WarningRegex.exec warning = Some m ->
  originalPositionFor consumer
    (Js.digitsToN (WarningRegex.group1 m))
    (Some (Js.digitsToN (WarningRegex.group2 m))) = Some original ->
  orig_source original = Some src -> src <> "" -> src <> file ->
  warningParts warning file (Some consumer) (Some shortener) =
  mkWarningParts
    (WarningRegex.before m ++ WarningRegex.after m)
    (shorten shortener src ++ ":" ++ Js.showNullable (orig_line original) ++
     ":" ++ Js.showNullable (orig_column original))
    (Some src).
Proof.
  intros Hexec Hpos Hsrc Hne Hfile.
  unfold warningParts. rewrite Hexec, Hpos. unfold resolvedSource.
  rewrite Hsrc.
  destruct (String.eqb_spec src "") as [|_]; [contradiction|]. simpl.
  destruct (String.eqb_spec src file) as [|_]; [contradiction|]. simpl.
  now rewrite (strip_exec _ _ Hexec).
Qed.

Lemma warningParts_cases warning file sm rs :
  warningParts warning file sm rs = mkWarningParts warning "" None \/
  exists consumer shortener m original src,
    sm = Some consumer /\ rs = Some shortener /\
    WarningRegex.exec warning = Some m /\
    originalPositionFor consumer
      (Js.digitsToN (WarningRegex.group1 m))
      (Some (Js.digitsToN (WarningRegex.group2 m))) = Some original /\
    orig_source original = Some src /\ src <> "" /\ src <> file /\
    warningParts warning file sm rs =
    mkWarningParts
      (WarningRegex.before m ++ WarningRegex.after m)
      (shorten shortener src ++ ":" ++ Js.showNullable (orig_line original) ++
       ":" ++ Js.showNullable (orig_column original))
      (Some src).
Proof.
  destruct sm as [consumer|]; [|now left].
  destruct (WarningRegex.exec warning) as [m|] eqn:Hexec;
    [|left; unfold warningParts; now rewrite Hexec].
  destruct (originalPositionFor consumer
              (Js.digitsToN (WarningRegex.group1 m))
              (Some (Js.digitsToN (WarningRegex.group2 m))))
    as [original|] eqn:Hpos;
    [|left; unfold warningParts; now rewrite Hexec, Hpos].
  destruct (orig_source original) as [src|] eqn:Hsrc;
    [|left; unfold warningParts, resolvedSource;
      now rewrite Hexec, Hpos, Hsrc].
  destruct (String.eqb_spec src "") as [->|Hne];
    [left; unfold warningParts, resolvedSource;
     now rewrite Hexec, Hpos, Hsrc|].
  destruct rs as [shortener|];
    [|left; unfold warningParts, resolvedSource;
      rewrite Hexec, Hpos, Hsrc;
      destruct (String.eqb_spec src ""); [contradiction|reflexivity]].
  destruct (String.eqb_spec src file) as [->|Hfile].
  - left. unfold warningParts, resolvedSource. rewrite Hexec, Hpos, Hsrc.
    destruct (String.eqb_spec file ""); [contradiction|]. simpl.
    now rewrite String.eqb_refl.
  - right. exists consumer, shortener, m, original, src.
    repeat (split; [assumption || reflexivity|]).
    now apply warningParts_rewritten.
Qed.

Lemma warningParts_self warning file consumer rs m original :
  WarningRegex.exec warning = Some m ->
  originalPositionFor consumer
    (Js.digitsToN (WarningRegex.group1 m))
    (Some (Js.digitsToN (WarningRegex.group2 m))) = Some original ->
  orig_source original = Some file ->
  warningParts warning file (Some consumer) rs = mkWarningParts warning "" None.
Proof.
  intros Hexec Hpos Hsrc.
  destruct (warningParts_cases warning file (Some consumer) rs)
    as [H|(consumer' & shortener & m' & original' & src & Hc & _ & Hm & Ho &
           Hs & _ & Hfile & _)]; [exact H|].
  injection Hc as <-. rewrite Hexec in Hm. injection Hm as <-.
  rewrite Hpos in Ho. injection Ho as <-. rewrite Hsrc in Hs.
  injection Hs as <-. contradiction.
Qed.

(** C6, as amended.  For a warning in which [warningRegex] matches, with a
    source map that resolves the matched line and column to an original
    source that is not empty and is not the asset's own name, and with a
    request shortener: the third argument of the filter is that source; when
    the filter keeps the warning (or there is none) [buildWarning] returns
    the message with the match cut out of the body and the shortened
    source, line and column appended.  And whenever the filter, asked with
    the raw warning, the asset name and the resolved source or [undefined],
    answers [false], [buildWarning] returns [null]. *)
Theorem buildWarning_rewrites_and_filters
        (warning file : string) (sourceMap : option Consumer)
        (requestShortener : option Shortener)
        (keep : string -> string -> option string -> bool) :
  let asked := resolved (warningParts warning file sourceMap requestShortener) in
  (keep warning file asked = false ->
   buildWarning warning file sourceMap requestShortener (Some keep) = None) /\
  (forall consumer shortener m original src,
     sourceMap = Some consumer -> requestShortener = Some shortener ->
     WarningRegex.exec warning = Some m ->
     originalPositionFor consumer
       (Js.digitsToN (WarningRegex.group1 m))
       (Some (Js.digitsToN (WarningRegex.group2 m))) = Some original ->
     orig_source original = Some src -> src <> "" -> src <> file ->
     let built :=
       "Css Minimizer Plugin: " ++
       (WarningRegex.before m ++ WarningRegex.after m) ++ " " ++
       shorten shortener src ++ ":" ++ Js.showNullable (orig_line original) ++
       ":" ++ Js.showNullable (orig_column original) in
     warning =
       WarningRegex.before m ++ WarningRegex.matched m ++ WarningRegex.after m /\
     asked = Some src /\
     (keep warning file (Some src) = true ->
      buildWarning warning file sourceMap requestShortener (Some keep) =
        Some built) /\
     buildWarning warning file sourceMap requestShortener None = Some built).
Proof.
  intros asked. split.
  - intros Hdrop. unfold buildWarning. fold asked. now rewrite Hdrop.
  - intros consumer shortener m original src -> -> Hexec Hpos Hsrc Hne Hfile
           built.
    pose proof (warningParts_rewritten warning file consumer shortener m
                  original src Hexec Hpos Hsrc Hne Hfile) as Hparts.
    split; [now apply exec_inv|].
    split; [unfold asked; now rewrite Hparts|].
    unfold buildWarning. rewrite Hparts. simpl.
    split; [intros ->|]; reflexivity.
Qed.

(** The warning of the example, resolved to [original.css:5:2] and kept by
    the filter; and the same warning dropped by a filter that says no. *)
Lemma buildWarning_rewrites_and_filters_witness :
  buildWarning "Unexpected token at a.css:12:34 here" "a.css"
    (Some Sample.consumer) (Some Sample.shortener)
    (Some (fun _ _ _ => true)) =
    Some "Css Minimizer Plugin: Unexpected here original.css:5:2" /\
  buildWarning "Unexpected token at a.css:12:34 here" "a.css"
    (Some Sample.consumer) (Some Sample.shortener)
    (Some (fun _ _ _ => false)) = None.
Proof.
  split.
  - refine (proj1 (proj2 (proj2
              (proj2 (buildWarning_rewrites_and_filters
                        "Unexpected token at a.css:12:34 here" "a.css"
                        (Some Sample.consumer) (Some Sample.shortener)
                        (fun _ _ _ => true))
                 Sample.consumer Sample.shortener
                 (WarningRegex.mkMatch "Unexpected" " token at a.css:12:34"
                    "12" "34" " here")
                 (mkOriginal (Some "original.css") (Some 5%N) (Some 2%N))
                 "original.css"
                 eq_refl eq_refl eq_refl eq_refl eq_refl _ _))) eq_refl);
      discriminate.
  - apply (proj1 (buildWarning_rewrites_and_filters
                    "Unexpected token at a.css:12:34 here" "a.css"
                    (Some Sample.consumer) (Some Sample.shortener)
                    (fun _ _ _ => false))).
    reflexivity.
Defined.

(** C6 as stated fails where the source map resolves the position into
    the asset itself: the match is resolved to a source, no filter drops
    the warning, and the message is returned with its body whole and no
    location. *)
Lemma buildWarning_keeps_self_resolved_warning :
  let warning := "Unexpected token at a.css:12:34 here" in
  exists m original src,
    WarningRegex.exec warning = Some m /\
    originalPositionFor Sample.selfConsumer
      (Js.digitsToN (WarningRegex.group1 m))
      (Some (Js.digitsToN (WarningRegex.group2 m))) = Some original /\
    orig_source original = Some src /\ src <> "" /\
    buildWarning warning "a.css" (Some Sample.selfConsumer)
      (Some Sample.shortener) (Some (fun _ _ _ => true)) =
      Some "Css Minimizer Plugin: Unexpected token at a.css:12:34 here " /\
    buildWarning warning "a.css" (Some Sample.selfConsumer)
      (Some Sample.shortener) (Some (fun _ _ _ => true)) <>
      Some ("Css Minimizer Plugin: " ++
            (WarningRegex.before m ++ WarningRegex.after m) ++ " " ++
            shorten Sample.shortener src ++ ":" ++
            Js.showNullable (orig_line original) ++ ":" ++
            Js.showNullable (orig_column original)).
Proof.
  exists (WarningRegex.mkMatch "Unexpected" " token at a.css:12:34"
            "12" "34" " here"),
         (mkOriginal (Some "a.css") (Some 5%N) (Some 2%N)), "a.css".
  repeat split; try reflexivity; discriminate.
Qed.

(** C9.  When the source map resolves the matched position to a source
    equal to the asset name, the filter is asked with [undefined] and the
    message keeps the raw warning, position included, with an empty
    location.  And a message that differs from that raw form comes from a
    source map that resolved the position to a source other than the asset
    name. *)
Theorem buildWarning_rewrites_only_for_another_source
        (warning file : string) (sourceMap : option Consumer)
        (requestShortener : option Shortener)
        (warningsFilter : option (string -> string -> option string -> bool)) :
  let raw := "Css Minimizer Plugin: " ++ warning ++ " " in
  (forall consumer m original,
     sourceMap = Some consumer ->
     WarningRegex.exec warning = Some m ->
     originalPositionFor consumer
       (Js.digitsToN (WarningRegex.group1 m))
       (Some (Js.digitsToN (WarningRegex.group2 m))) = Some original ->
     orig_source original = Some file ->
     buildWarning warning file sourceMap requestShortener warningsFilter =
       match warningsFilter with
       | Some keep => if keep warning file None then Some raw else None
       | None => Some raw
       end) /\
  (forall built,
     buildWarning warning file sourceMap requestShortener warningsFilter =
       Some built ->
     built <> raw ->
     exists consumer shortener m original src,
       sourceMap = Some consumer /\ requestShortener = Some shortener /\
       WarningRegex.exec warning = Some m /\
       originalPositionFor consumer
         (Js.digitsToN (WarningRegex.group1 m))
         (Some (Js.digitsToN (WarningRegex.group2 m))) = Some original /\
       orig_source original = Some src /\ src <> file /\
       built =
         "Css Minimizer Plugin: " ++
         (WarningRegex.before m ++ WarningRegex.after m) ++ " " ++
         shorten shortener src ++ ":" ++
         Js.showNullable (orig_line original) ++ ":" ++
         Js.showNullable (orig_column original)).
Proof.
  intros raw. split.
  - intros consumer m original -> Hexec Hpos Hsrc.
    unfold buildWarning.
    rewrite (warningParts_self warning file consumer requestShortener m
               original Hexec Hpos Hsrc). simpl.
    destruct warningsFilter as [keep|]; [|reflexivity].
    destruct (keep warning file None); reflexivity.
  - intros built Hbuilt Hraw.
    destruct (warningParts_cases warning file sourceMap requestShortener)
      as [Hparts|(consumer & shortener & m & original & src & Hc & Hs & Hm &
                  Ho & Hsrc & _ & Hfile & Hparts)].
    + exfalso. apply Hraw. unfold buildWarning in Hbuilt.
      rewrite Hparts in Hbuilt. simpl in Hbuilt.
      destruct warningsFilter as [keep|];
        [destruct (keep warning file None); [|discriminate]|];
        now injection Hbuilt as <-.
    + exists consumer, shortener, m, original, src.
      repeat (split; [assumption|]).
      unfold buildWarning in Hbuilt. rewrite Hparts in Hbuilt.
      simpl in Hbuilt.
      destruct warningsFilter as [keep|];
        [destruct (keep warning file (Some src)); [|discriminate]|];
        now injection Hbuilt as <-.
Qed.

(** A warning resolved into [a.css] itself, reported for [a.css]. *)
Lemma buildWarning_rewrites_only_for_another_source_witness :
  buildWarning "Unexpected token at a.css:12:34 here" "a.css"
    (Some Sample.selfConsumer) (Some Sample.shortener) None =
  Some "Css Minimizer Plugin: Unexpected token at a.css:12:34 here ".
Proof.
  exact (proj1 (buildWarning_rewrites_only_for_another_source
                  "Unexpected token at a.css:12:34 here" "a.css"
                  (Some Sample.selfConsumer) (Some Sample.shortener) None)
           Sample.selfConsumer
           (WarningRegex.mkMatch "Unexpected" " token at a.css:12:34"
              "12" "34" " here")
           (mkOriginal (Some "a.css") (Some 5%N) (Some 2%N))
           eq_refl eq_refl eq_refl eq_refl).
Defined.


(** ** One step of a task *)

Lemma Extends_refl name w : Extends name w w.
Proof.
  constructor; auto; exists []; rewrite app_nil_r; split; auto.
Qed.

Lemma readWarnings_pushedFor o name s :
  Forall (fun r => pushedFor r = name) (readWarnings o name s).
Proof.
  unfold readWarnings.
  destruct (Js.truthy (sourceMap o)); [|constructor].
  destruct (sourceAndMap s) as [[src m]|]; [|constructor].
  destruct (Js.truthy m && negb (isSourceMap m)); repeat constructor.
Qed.


Lemma builtWarnings_for_name h o compiler name ism ws :
  Forall (fun r => pushedFor r = name)
    (builtWarnings h o compiler name ism ws).
Proof.
  eapply Forall_impl; [|apply builtWarnings_pushedFor].
  simpl. intros r [Hr _]. exact Hr.
Qed.

Lemma callOf_name wk o name input ism :
  callName (callOf wk (minimizerOptionsFor o name input ism)) = name.
Proof. destruct wk; reflexivity. Qed.

(** What [finish] changes. *)
Lemma finish_frame h o compiler name l output verdict w :
  let p' := fst (finish h o compiler name l output verdict w) in
  let w' := snd (finish h o compiler name l output verdict w) in
  stored w' = stored w /\ calls w' = calls w /\
  assetApi (compilation w') = assetApi (compilation w) /\
  errors (compilation w') = errors (compilation w) /\
  warnings (compilation w') =
    (warnings (compilation w) ++
     builtWarnings h o compiler name (l_inputSourceMap l)
       (result_warnings (out_result output)))%list /\
  (forall k, k <> name ->
     property k (assets (compilation w')) =
     property k (assets (compilation w))) /\
  (forall k, k <> name ->
     property k (assetsInfo (compilation w')) =
     property k (assetsInfo (compilation w))) /\
  (forall k,
     property k (assets (compilation w)) <> None ->
     property k (assets (compilation w')) <> None) /\
  (property name (assets (compilation w)) <> None ->
   p' = Finished verdict /\
   getAsset (compilation w') name =
     Some (mkAsset name (out_source output)
             (if assetApi (compilation w)
              then mkInfo true (others (l_info l))
              else emptyInfo))).
Proof.
  unfold finish.
  destruct (reportWarnings_frame h o compiler name (l_inputSourceMap l)
              (result_warnings (out_result output)) (compilation w))
    as (Ha & Hi & Hp & He & Hw).
  cbv zeta in Ha, Hi, Hp, He, Hw.
  set (c1 := reportWarnings h o compiler name (l_inputSourceMap l)
               (result_warnings (out_result output)) (compilation w)) in *.
  destruct (updateAsset c1 name (out_source output)
              (mkInfo true (others (l_info l)))) as [c2|] eqn:Hup; simpl.
  - apply updateAsset_frame in Hup.
    destruct Hup as (H1 & H2 & H3 & H4 & H5 & H6).
    rewrite Hp in H3, H4. rewrite Ha in H2.
    split; [reflexivity|]. split; [reflexivity|].
    split; [exact H4|]. split; [congruence|]. split; [congruence|].
    split; [intros k Hk; rewrite (H2 k Hk); reflexivity|].
    split.
    { intros k Hk. rewrite H3, Hi.
      destruct (assetApi (compilation w)); [|reflexivity].
      apply property_assign_other. congruence. }
    split.
    { intros k Hk. destruct (String.eqb_spec k name) as [->|Hne].
      - rewrite H1. discriminate.
      - rewrite (H2 k Hne). exact Hk. }
    intros _. split; [reflexivity|].
    unfold getAsset, compilation_getAsset. rewrite H4, H1, H3.
    destruct (assetApi (compilation w)); [|reflexivity].
    now rewrite property_assign_same.
  - split; [reflexivity|]. split; [reflexivity|].
    split; [exact Hp|]. split; [exact He|]. split; [exact Hw|].
    split; [intros k _; now rewrite Ha|].
    split; [intros k _; now rewrite Hi|].
    split; [intros k Hk; now rewrite Ha|].
    intros Hpresent. exfalso. revert Hup. apply updateAsset_total.
    now rewrite Ha.
Qed.

Lemma finish_Extends h o compiler name l output verdict w :
  Extends name w (snd (finish h o compiler name l output verdict w)).
Proof.
  destruct (finish_frame h o compiler name l output verdict w)
    as (_ & Hc & Hp & He & Hw & Ha & Hi & Hs & _).
  cbv zeta in Hc, Hp, He, Hw, Ha, Hi, Hs.
  constructor; auto.
  - exists []. rewrite app_nil_r. auto.
  - eexists. split; [exact Hw|]. apply builtWarnings_for_name.
  - exists []. rewrite app_nil_r. auto.
Qed.

Lemma start_Extends h o name w : Extends name w (snd (start h o name w)).
Proof.
  unfold start.
  destruct (getAsset (compilation w) name) as [a|]; [|apply Extends_refl].
  destruct (minimized (asset_info a)); [apply Extends_refl|]. simpl.
  destruct (readInput_frame o name (asset_source a) (compilation w))
    as (Ha & Hi & Hp & He & Hw).
  cbv zeta in Ha, Hi, Hp, He, Hw.
  constructor; simpl; try (intros; congruence).
  - exists []. rewrite app_nil_r. auto.
  - eexists. split; [exact Hw|]. apply readWarnings_pushedFor.
  - exists []. rewrite app_nil_r. auto.
Qed.

(** A step of the task of [name] replaces the asset of [name] only and
    appends for [name] only. *)
Lemma resume_Extends h o compiler wk name p w :
  Extends name w (snd (resume h o compiler wk name p w)).
Proof.
  destruct p as [|l [output|]|l [r|error]|l output|v|]; cbn [resume];
    try apply Extends_refl;
    try apply start_Extends;
    try apply finish_Extends.
  - constructor; simpl; auto;
      try (exists []; rewrite app_nil_r; split; [reflexivity|constructor]).
    eexists. split; [reflexivity|].
    repeat constructor. apply callOf_name.
  - constructor; simpl; auto;
      (exists []; rewrite app_nil_r; split; [reflexivity|constructor]).
  - constructor; simpl; auto;
      try (exists []; rewrite app_nil_r; split; [reflexivity|constructor]).
    eexists. split; [reflexivity|]. repeat constructor.
Qed.

Lemma Own_step c name w w' es ws cs es' ws' cs' :
  Own c name w es ws cs ->
  errors (compilation w') = (errors (compilation w) ++ es')%list ->
  Forall (fun r => pushedFor r = name) es' ->
  warnings (compilation w') = (warnings (compilation w) ++ ws')%list ->
  Forall (fun r => pushedFor r = name) ws' ->
  calls w' = (calls w ++ cs')%list ->
  Forall (fun call => callName call = name) cs' ->
  Own c name w' (es ++ es') (ws ++ ws') (cs ++ cs').
Proof.
  intros (He & Hw & Hc) He' Fe Hw' Fw Hc' Fc. unfold Own.
  rewrite He', Hw', Hc', !entriesFor_app, callsFor_app, He, Hw, Hc.
  rewrite (entriesFor_same name es' Fe), (entriesFor_same name ws' Fw).
  rewrite (callsFor_same name cs' Fc), !map_app, !app_assoc. auto.
Qed.

Lemma Own_Untouched c name w w' es ws cs :
  Untouched name w w' -> Own c name w es ws cs -> Own c name w' es ws cs.
Proof.
  intros [_ _ He Hw Hc] (He' & Hw' & Hc'). unfold Own.
  now rewrite He, Hw, Hc.
Qed.

Lemma Own_warnings c name w w' es ws cs ws' :
  Own c name w es ws cs ->
  errors (compilation w') = errors (compilation w) ->
  calls w' = calls w ->
  warnings (compilation w') = (warnings (compilation w) ++ ws')%list ->
  Forall (fun r => pushedFor r = name) ws' ->
  Own c name w' es (ws ++ ws') cs.
Proof.
  intros Hown He Hc Hw Fw.
  pose proof (Own_step c name w w' es ws cs [] ws' [] Hown) as H.
  rewrite !app_nil_r in H. apply H; auto.
Qed.

Lemma Own_errors c name w w' es ws cs es' :
  Own c name w es ws cs ->
  errors (compilation w') = (errors (compilation w) ++ es')%list ->
  Forall (fun r => pushedFor r = name) es' ->
  calls w' = calls w ->
  warnings (compilation w') = warnings (compilation w) ->
  Own c name w' (es ++ es') ws cs.
Proof.
  intros Hown He Fe Hc Hw.
  pose proof (Own_step c name w w' es ws cs es' [] [] Hown) as H.
  rewrite !app_nil_r in H. apply H; auto.
Qed.

Lemma Own_calls c name w w' es ws cs cs' :
  Own c name w es ws cs ->
  errors (compilation w') = errors (compilation w) ->
  warnings (compilation w') = warnings (compilation w) ->
  calls w' = (calls w ++ cs')%list ->
  Forall (fun call => callName call = name) cs' ->
  Own c name w' es ws (cs ++ cs').
Proof.
  intros Hown He Hw Hc Fc.
  pose proof (Own_step c name w w' es ws cs [] [] cs' Hown) as H.
  rewrite !app_nil_r in H. apply H; auto.
Qed.

(** A step of the task of an asset takes it from where it stands to where
    it stands next. *)
Lemma resume_TaskInv h o compiler wk c name a p w :
  getAsset c name = Some a ->
  minimized (asset_info a) = false ->
  assetApi (compilation w) = assetApi c ->
  TaskInv h o compiler wk c a p w ->
  TaskInv h o compiler wk c a
    (fst (resume h o compiler wk name p w))
    (snd (resume h o compiler wk name p w)).
Proof.
  intros Hasset Hmin Hapi Hinv.
  destruct (getAsset_inv _ _ _ Hasset) as (Hname & _).
  unfold TaskInv in Hinv. rewrite Hname in Hinv.
  destruct p as [|l [output|]|l [r|error]|l output|v|]; cbn [resume].
  - (* the task starts *)
    destruct Hinv as (Hget & Hown).
    unfold start. rewrite Hget, Hmin.
    destruct (readInput_input o name (asset_source a) (compilation w))
      as (Hin & Hmap).
    destruct (readInput_frame o name (asset_source a) (compilation w))
      as (Ha & Hi & Hp & He & Hw).
    cbv zeta in Ha, Hi, Hp, He, Hw. cbv zeta. rewrite Hin, Hmap.
    unfold TaskInv. rewrite Hname. cbn [fst snd].
    split; [unfold localOf, cacheDataOf; now rewrite Hname|].
    split; [exists (stored w); unfold cacheDataOf; now rewrite Hname|].
    split.
    { rewrite <- Hget. apply getAsset_ext; simpl; congruence. }
    apply (Own_warnings c name w _ [] [] [] _ Hown);
      [exact He|reflexivity|exact Hw|apply readWarnings_pushedFor].
  - (* the cache answered with an output *)
    destruct Hinv as (-> & Hans & Hget & Hown).
    destruct (finish_frame h o compiler name (localOf h o a) output
                (Reused output) w)
      as (_ & Hc & _ & He & Hw & _ & _ & _ & Hdone).
    cbv zeta in Hc, He, Hw, Hdone.
    destruct Hdone as (Hp' & Hget').
    { apply getAsset_present. now rewrite Hget. }
    rewrite Hp'. unfold TaskInv. rewrite Hname.
    split; [exact Hans|].
    split.
    { rewrite Hget'. unfold updatedAsset, minimizedInfo.
      simpl. now rewrite Hname, Hapi. }
    apply (Own_warnings c name w _ [] _ [] _ Hown);
      [exact He|exact Hc|exact Hw|apply builtWarnings_for_name].
  - (* the cache had nothing: the minifier is called *)
    destruct Hinv as (-> & Hans & Hget & Hown).
    unfold TaskInv. rewrite Hname. cbn [fst snd].
    assert (Hopts : minimizerOptionsFor o name (l_input (localOf h o a))
                      (l_inputSourceMap (localOf h o a)) =
                    minimizerOptionsOf o a).
    { unfold minimizerOptionsOf. now rewrite Hname. }
    rewrite Hopts.
    split; [reflexivity|]. split; [exact Hans|]. split; [reflexivity|].
    split; [exact Hget|].
    apply (Own_calls c name w _ [] _ [] _ Hown);
      [reflexivity|reflexivity|reflexivity|].
    repeat constructor. unfold minimizerOptionsOf. rewrite Hname.
    apply callOf_name.
  - (* the minifier returned: the output is stored *)
    destruct Hinv as (-> & Hans & Hout & Hget & Hown).
    unfold TaskInv. rewrite Hname. cbn [fst snd].
    split; [reflexivity|]. split; [exact Hans|].
    split; [exists r; rewrite Hname; split; [now symmetry|reflexivity]|].
    split; [exact Hget|].
    apply (Own_Untouched c name w); [|exact Hown].
    constructor; reflexivity.
  - (* the minifier threw: the error is recorded *)
    destruct Hinv as (-> & Hans & Hout & Hget & Hown).
    unfold TaskInv. rewrite Hname. cbn [fst snd].
    split; [exact Hans|]. split; [now symmetry|].
    split; [rewrite <- Hget; now apply getAsset_ext|].
    apply (Own_errors c name w _ [] _ _ [_] Hown);
      [reflexivity|repeat constructor|reflexivity|reflexivity].
  - (* the output is stored: the task goes to its end *)
    destruct Hinv as (-> & Hans & Hfresh & Hget & Hown).
    destruct (finish_frame h o compiler name (localOf h o a) output
                (Minified output) w)
      as (_ & Hc & _ & He & Hw & _ & _ & _ & Hdone).
    cbv zeta in Hc, He, Hw, Hdone.
    destruct Hdone as (Hp' & Hget').
    { apply getAsset_present. now rewrite Hget. }
    rewrite Hp'. unfold TaskInv. rewrite Hname.
    split; [exact Hans|]. split; [exact Hfresh|].
    split.
    { rewrite Hget'. unfold updatedAsset, minimizedInfo.
      simpl. now rewrite Hname, Hapi. }
    apply (Own_warnings c name w _ [] _ _ _ Hown);
      [exact He|exact Hc|exact Hw|apply builtWarnings_for_name].
  - (* the task has finished *)
    unfold TaskInv. rewrite Hname. exact Hinv.
  - contradiction.
Qed.

(** ** The tasks together *)

Lemma TaskInv_Untouched h o compiler wk c a p w w' :
  Stable w w' -> Untouched (asset_name a) w w' ->
  TaskInv h o compiler wk c a p w -> TaskInv h o compiler wk c a p w'.
Proof.
  intros Hs Hu. pose proof (getAsset_Untouched _ _ _ Hs Hu) as Hget.
  pose proof (fun es ws cs => Own_Untouched c (asset_name a) w w' es ws cs Hu)
    as Hown.
  unfold TaskInv.
  destruct p as [|l answer|l outcome|l output|[|output|error|output]|];
    try rewrite Hget; intuition auto.
Qed.

Section Advance.

Variables (h : Host) (o : Options) (compiler : Compiler) (wk : option Z).

Lemma advance_absent pool name :
  property name (fst pool) = None -> advance h o compiler wk pool name = pool.
Proof. unfold advance. now intros ->. Qed.

Lemma advance_same pool name p :
  property name (fst pool) = Some p ->
  property name (fst (advance h o compiler wk pool name)) =
    Some (fst (resume h o compiler wk name p (snd pool))) /\
  snd (advance h o compiler wk pool name) =
    snd (resume h o compiler wk name p (snd pool)).
Proof.
  unfold advance. intros ->. simpl. now rewrite property_assign_same.
Qed.

Lemma advance_other pool name n :
  n <> name ->
  property n (fst (advance h o compiler wk pool name)) =
  property n (fst pool).
Proof.
  unfold advance. intros Hne.
  destruct (property name (fst pool)); [|reflexivity].
  simpl. apply property_assign_other. congruence.
Qed.

Lemma advance_Extends pool name :
  Extends name (snd pool) (snd (advance h o compiler wk pool name)).
Proof.
  unfold advance.
  destruct (property name (fst pool)); [|apply Extends_refl].
  simpl. apply resume_Extends.
Qed.

Lemma advance_Stable pool name :
  Stable (snd pool) (snd (advance h o compiler wk pool name)).
Proof. eapply Extends_Stable, advance_Extends. Qed.

Lemma advance_PoolInv c pool name :
  PoolInv h o compiler wk c pool ->
  PoolInv h o compiler wk c (advance h o compiler wk pool name).
Proof.
  intros (Hapi & Hall).
  pose proof (advance_Extends pool name) as Hext.
  pose proof (advance_Stable pool name) as Hst.
  split; [rewrite (same_api _ _ Hst); exact Hapi|].
  intros n p Hp.
  destruct (String.eqb_spec n name) as [->|Hne].
  - destruct (property name (fst pool)) as [q|] eqn:Hq.
    + destruct (advance_same pool name q Hq) as (Hp' & Hw').
      rewrite Hp' in Hp. injection Hp as <-. rewrite Hw'.
      destruct (Hall name q Hq) as (a & Ha & Hmin & Hinv).
      exists a. split; [exact Ha|]. split; [exact Hmin|].
      now apply resume_TaskInv.
    + rewrite (advance_absent pool name Hq) in Hp. congruence.
  - rewrite (advance_other pool name n Hne) in Hp.
    destruct (Hall n p Hp) as (a & Ha & Hmin & Hinv).
    exists a. split; [exact Ha|]. split; [exact Hmin|].
    destruct (getAsset_inv _ _ _ Ha) as (Hname & _).
    apply (TaskInv_Untouched h o compiler wk c a p (snd pool)); auto.
    rewrite Hname. eapply Extends_Untouched; eauto.
Qed.

Lemma resume_stepsLeft name p w :
  stepsLeft (fst (resume h o compiler wk name p w)) <= pred (stepsLeft p).
Proof.
  destruct p as [|l [output|]|l [r|error]|l output|v|]; cbn [resume];
    simpl; try lia.
  - unfold start. destruct (getAsset (compilation w) name) as [a|];
      [destruct (minimized (asset_info a))|]; simpl; lia.
  - unfold finish. destruct (updateAsset _ _ _ _); simpl; lia.
  - unfold finish. destruct (updateAsset _ _ _ _); simpl; lia.
Qed.

(** No step of any task gives a task more steps, and a step of a task
    takes one off its own. *)
Lemma advance_stepsLeft pool name n p :
  property n (fst pool) = Some p ->
  exists p',
    property n (fst (advance h o compiler wk pool name)) = Some p' /\
    stepsLeft p' <= stepsLeft p /\
    (n = name -> stepsLeft p' <= pred (stepsLeft p)).
Proof.
  intros Hp. destruct (String.eqb_spec n name) as [->|Hne].
  - destruct (advance_same pool name p Hp) as (Hp' & _).
    eexists. split; [exact Hp'|].
    pose proof (resume_stepsLeft name p (snd pool)). split; [lia|auto].
  - exists p. rewrite (advance_other pool name n Hne).
    split; [exact Hp|]. split; [lia|contradiction].
Qed.

Lemma runSchedule_PoolInv c order : forall pool,
  PoolInv h o compiler wk c pool ->
  PoolInv h o compiler wk c (runSchedule h o compiler wk order pool).
Proof.
  induction order as [|name rest IH]; intros pool Hinv; simpl.
  - exact Hinv.
  - apply IH. now apply advance_PoolInv.
Qed.

Lemma runSchedule_stepsLeft order : forall pool n p,
  property n (fst pool) = Some p ->
  exists p',
    property n (fst (runSchedule h o compiler wk order pool)) = Some p' /\
    stepsLeft p' <= stepsLeft p.
Proof.
  induction order as [|name rest IH]; intros pool n p Hp; simpl.
  - exists p. split; [exact Hp|lia].
  - destruct (advance_stepsLeft pool name n p Hp) as (p1 & Hp1 & Hle & _).
    destruct (IH _ n p1 Hp1) as (p' & Hp' & Hle').
    exists p'. split; [exact Hp'|lia].
Qed.

Lemma runSchedule_app order order' pool :
  runSchedule h o compiler wk (order ++ order') pool =
  runSchedule h o compiler wk order' (runSchedule h o compiler wk order pool).
Proof. unfold runSchedule. apply fold_left_app. Qed.

Lemma runSchedule_absent order : forall pool n,
  property n (fst pool) = None ->
  property n (fst (runSchedule h o compiler wk order pool)) = None.
Proof.
  induction order as [|name rest IH]; intros pool n Hp; simpl.
  - exact Hp.
  - apply IH. destruct (String.eqb_spec n name) as [->|Hne].
    + now rewrite (advance_absent pool name Hp).
    + now rewrite (advance_other pool name n Hne).
Qed.

(** Run to the end, every task named has no step left. *)
Lemma toTheEnd_stepsLeft names : forall pool n p,
  In n names ->
  property n (fst (runSchedule h o compiler wk (toTheEnd names) pool))
    = Some p ->
  stepsLeft p = 0.
Proof.
  induction names as [|m rest IH]; intros pool n p Hin Hp; [contradiction|].
  change (toTheEnd (m :: rest)) with ([m; m; m; m] ++ toTheEnd rest)%list in Hp.
  rewrite runSchedule_app in Hp.
  destruct (String.eqb_spec n m) as [->|Hne].
  - set (pool4 := runSchedule h o compiler wk [m; m; m; m] pool) in *.
    destruct (property m (fst pool)) as [q|] eqn:Hq.
    + assert (H4 : exists q4, property m (fst pool4) = Some q4 /\
                              stepsLeft q4 = 0).
      { unfold pool4. simpl.
        destruct (advance_stepsLeft pool m m q Hq) as (q1 & Hq1 & _ & H1).
        destruct (advance_stepsLeft _ m m q1 Hq1) as (q2 & Hq2 & _ & H2).
        destruct (advance_stepsLeft _ m m q2 Hq2) as (q3 & Hq3 & _ & H3).
        destruct (advance_stepsLeft _ m m q3 Hq3) as (q4 & Hq4 & _ & H4).
        exists q4. split; [exact Hq4|].
        specialize (H1 eq_refl). specialize (H2 eq_refl).
        specialize (H3 eq_refl). specialize (H4 eq_refl).
        assert (stepsLeft q <= 4) by (destruct q; simpl; lia). lia. }
      destruct H4 as (q4 & Hq4 & Hzero).
      destruct (runSchedule_stepsLeft (toTheEnd rest) pool4 m q4 Hq4)
        as (p' & Hp' & Hle).
      rewrite Hp in Hp'. injection Hp' as <-. lia.
    + assert (Hnone : property m (fst pool4) = None)
        by (apply runSchedule_absent; exact Hq).
      rewrite (runSchedule_absent (toTheEnd rest) pool4 m Hnone) in Hp.
      discriminate.
  - destruct Hin as [->|Hin]; [contradiction|].
    eapply IH; eauto.
Qed.

Lemma runSchedule_Stable order : forall pool,
  Stable (snd pool) (snd (runSchedule h o compiler wk order pool)).
Proof.
  induction order as [|name rest IH]; intros pool; simpl.
  - apply Stable_refl.
  - eapply Stable_trans; [apply advance_Stable|apply IH].
Qed.

(** What belongs to a name that has no task is left as it was. *)
Lemma runSchedule_Untouched order : forall pool k,
  property k (fst pool) = None ->
  Untouched k (snd pool) (snd (runSchedule h o compiler wk order pool)).
Proof.
  induction order as [|name rest IH]; intros pool k Hk; simpl.
  - apply Untouched_refl.
  - eapply Untouched_trans; [|apply IH].
    + destruct (String.eqb_spec k name) as [->|Hne].
      * rewrite (advance_absent pool name Hk). apply Untouched_refl.
      * eapply Extends_Untouched; [apply advance_Extends|exact Hne].
    + destruct (String.eqb_spec k name) as [->|Hne].
      * now rewrite (advance_absent pool name Hk).
      * now rewrite (advance_other pool name k Hne).
Qed.

End Advance.

(** ** The selection *)

Lemma selectAssets_In (o : Options) c names : forall chosen n,
  selectAssets o c names = Some chosen ->
  (In n chosen <-> In n names /\ selected o c n = Some true).
Proof.
  induction names as [|m rest IH]; simpl; intros chosen n H.
  - injection H as <-. simpl. tauto.
  - destruct (selected o c m) as [keep|] eqn:Hm; [|discriminate].
    destruct (selectAssets o c rest) as [chosen'|]; [|discriminate].
    injection H as <-. specialize (IH chosen' n eq_refl).
    destruct keep; simpl; rewrite IH; split.
    + intros [<-|[H1 H2]]; auto.
    + intros [[<-|H1] H2]; auto.
    + intros [H1 H2]; auto.
    + intros [[<-|H1] H2]; [congruence|auto].
Qed.

Lemma selectAssets_NoDup (o : Options) c names : forall chosen,
  selectAssets o c names = Some chosen -> NoDup names -> NoDup chosen.
Proof.
  induction names as [|m rest IH]; simpl; intros chosen H Hnd.
  - injection H as <-. constructor.
  - destruct (selected o c m) as [keep|] eqn:Hm; [|discriminate].
    destruct (selectAssets o c rest) as [chosen'|] eqn:Hrest; [|discriminate].
    injection H as <-. inversion Hnd as [|? ? Hnotin Hnd']; subst.
    destruct keep; [|now apply IH].
    constructor; [|now apply IH].
    intros Hin. apply Hnotin.
    now apply (selectAssets_In o c rest chosen' m Hrest).
Qed.

Lemma selected_true (o : Options) c n :
  selected o c n = Some true <->
  matchObject o n = true /\
  exists a, getAsset c n = Some a /\ minimized (asset_info a) = false.
Proof.
  unfold selected. destruct (matchObject o n); simpl.
  - destruct (getAsset c n) as [a|].
    + destruct (minimized (asset_info a)) eqn:E; split.
      * discriminate.
      * intros (_ & a' & Ha & Hm). injection Ha as <-. congruence.
      * intros _. split; [reflexivity|]. now exists a.
      * reflexivity.
    + split; [discriminate|]. intros (_ & a' & Ha & _). discriminate.
  - split; [discriminate|]. intros (H & _). discriminate.
Qed.

Lemma selectAssets_total (o : Options) c names :
  (forall n, In n names -> matchObject o n = true -> getAsset c n <> None) ->
  exists chosen, selectAssets o c names = Some chosen.
Proof.
  induction names as [|m rest IH]; simpl; intros Hall.
  - now exists [].
  - destruct IH as (chosen & ->); [intros n Hn; apply Hall; now right|].
    unfold selected.
    destruct (matchObject o m) eqn:Hm; simpl; [|eauto].
    destruct (getAsset c m) as [a|] eqn:Ha.
    + destruct (minimized (asset_info a)); eauto.
    + exfalso. apply (Hall m); auto.
Qed.

(** ** A run of [optimize] *)

Lemma property_queued names n p :
  property n (List.map (fun name => (name, Queued)) names) = Some p ->
  p = Queued /\ In n names.
Proof.
  induction names as [|m rest IH]; simpl; [discriminate|].
  destruct (String.eqb_spec m n) as [->|Hne].
  - intros H. injection H as <-. auto.
  - intros H. destruct (IH H). auto.
Qed.

Lemma property_absent {A : Type} n (object : list (string * A)) :
  ~ In n (keys object) -> property n object = None.
Proof.
  induction object as [|[k v] rest IH]; simpl; [reflexivity|].
  intros Hin. destruct (String.eqb_spec k n) as [->|Hne].
  - exfalso. apply Hin. now left.
  - apply IH. intros H. apply Hin. now right.
Qed.

Lemma In_property {A : Type} n (v : A) object :
  NoDup (keys object) -> In (n, v) object -> property n object = Some v.
Proof.
  induction object as [|[k v'] rest IH]; simpl; [contradiction|].
  intros Hnd [Heq|Hin].
  - injection Heq as -> ->. now rewrite String.eqb_refl.
  - inversion Hnd as [|? ? Hnotin Hnd']; subst.
    destruct (String.eqb_spec k n) as [->|Hne].
    + exfalso. apply Hnotin. unfold keys.
      change n with (fst (n, v)). now apply in_map.
    + now apply IH.
Qed.

Lemma keys_assign {A : Type} k (v : A) object :
  property k object <> None -> keys (assign k v object) = keys object.
Proof.
  induction object as [|[k' v'] rest IH]; simpl; [congruence|].
  destruct (String.eqb_spec k' k) as [->|Hne]; simpl; [reflexivity|].
  intros H. now rewrite IH.
Qed.

Lemma keys_queued names :
  keys (List.map (fun name => (name, Queued)) names) = names.
Proof.
  unfold keys. rewrite map_map. simpl. apply map_id.
Qed.

Lemma advance_keys h o compiler wk pool name :
  keys (fst (advance h o compiler wk pool name)) = keys (fst pool).
Proof.
  unfold advance. destruct (property name (fst pool)) eqn:E; [|reflexivity].
  simpl. apply keys_assign. congruence.
Qed.

Lemma runSchedule_keys h o compiler wk order : forall pool,
  keys (fst (runSchedule h o compiler wk order pool)) = keys (fst pool).
Proof.
  induction order as [|name rest IH]; intros pool; simpl; [reflexivity|].
  now rewrite IH, advance_keys.
Qed.

Lemma resume_calls_kind h o compiler wk name p w :
  Forall (fun call => isViaWorker call =
                      match wk with Some _ => true | None => false end)
    (calls w) ->
  Forall (fun call => isViaWorker call =
                      match wk with Some _ => true | None => false end)
    (calls (snd (resume h o compiler wk name p w))).
Proof.
  intros Hall.
  destruct p as [|l [output|]|l [r|error]|l output|v|]; cbn [resume];
    try exact Hall.
  - unfold start. destruct (getAsset (compilation w) name) as [a|];
      [destruct (minimized (asset_info a))|]; exact Hall.
  - unfold finish. destruct (updateAsset _ _ _ _); exact Hall.
  - simpl. apply Forall_app. split; [exact Hall|].
    repeat constructor. now destruct wk.
  - unfold finish. destruct (updateAsset _ _ _ _); exact Hall.
Qed.

Lemma runSchedule_calls_kind h o compiler wk order : forall pool,
  Forall (fun call => isViaWorker call =
                      match wk with Some _ => true | None => false end)
    (calls (snd pool)) ->
  Forall (fun call => isViaWorker call =
                      match wk with Some _ => true | None => false end)
    (calls (snd (runSchedule h o compiler wk order pool))).
Proof.
  induction order as [|name rest IH]; intros pool Hall; simpl; [exact Hall|].
  apply IH. unfold advance.
  destruct (property name (fst pool)); [|exact Hall].
  simpl. now apply resume_calls_kind.
Qed.

Section Run.

Variables (h : Host) (o : Options) (compiler : Compiler) (c : Compilation).
Variable assetsArgument : option (list (string * Source)).
Variable interleaving : list string.
Variable assetNames : list string.
Variable wk : option Z.
Hypothesis Hnodup : NoDup (enumerated c assetsArgument).
Hypothesis Hselect :
  selectAssets o c (enumerated c assetsArgument) = Some assetNames.

Lemma selected_asset n :
  In n assetNames ->
  matchObject o n = true /\
  exists a, getAsset c n = Some a /\ minimized (asset_info a) = false.
Proof.
  intros Hin. apply selected_true.
  now apply (selectAssets_In _ _ _ _ n Hselect).
Qed.

Lemma initial_PoolInv :
  PoolInv h o compiler wk c
    (List.map (fun name => (name, Queued)) assetNames, initialWorld h o c).
Proof.
  split; [reflexivity|]. simpl. intros n p Hp.
  apply property_queued in Hp. destruct Hp as (-> & Hin).
  destruct (selected_asset n Hin) as (_ & a & Ha & Hmin).
  destruct (getAsset_inv _ _ _ Ha) as (Hname & _).
  exists a. split; [exact Ha|]. split; [exact Hmin|].
  unfold TaskInv. rewrite Hname. split; [exact Ha|].
  unfold Own. simpl. rewrite !app_nil_r. auto.
Qed.

Lemma runTasks_PoolInv :
  PoolInv h o compiler wk c
    (runTasks h o compiler wk interleaving assetNames (initialWorld h o c)).
Proof. apply runSchedule_PoolInv, initial_PoolInv. Qed.

Lemma runTasks_keys :
  keys (fst (runTasks h o compiler wk interleaving assetNames
               (initialWorld h o c))) = assetNames.
Proof.
  unfold runTasks. rewrite runSchedule_keys. cbn [fst]. apply keys_queued.
Qed.

(** At the end every task has finished, as [TaskInv] says. *)
Lemma runTasks_finished n p :
  In (n, p) (fst (runTasks h o compiler wk interleaving assetNames
                    (initialWorld h o c))) ->
  exists a v,
    getAsset c n = Some a /\ minimized (asset_info a) = false /\
    p = Finished v /\
    TaskInv h o compiler wk c a (Finished v)
      (snd (runTasks h o compiler wk interleaving assetNames
              (initialWorld h o c))).
Proof.
  intros Hin.
  assert (Hnd : NoDup (keys (fst (runTasks h o compiler wk interleaving
                                    assetNames (initialWorld h o c))))).
  { rewrite runTasks_keys. eapply selectAssets_NoDup; eauto. }
  pose proof (In_property n p _ Hnd Hin) as Hp.
  assert (Hn : In n assetNames).
  { rewrite <- runTasks_keys. unfold keys.
    change n with (fst (n, p)). now apply in_map. }
  destruct (proj2 runTasks_PoolInv n p Hp) as (a & Ha & Hmin & Hinv).
  assert (Hzero : stepsLeft p = 0).
  { unfold runTasks in Hp. rewrite runSchedule_app in Hp.
    eapply toTheEnd_stepsLeft; eauto. }
  destruct p as [|l answer|l outcome|l output|v|]; try discriminate.
  - exists a, v. auto.
  - contradiction.
Qed.

Lemma runTasks_not_rejected :
  List.existsb isRejected
    (fst (runTasks h o compiler wk interleaving assetNames
            (initialWorld h o c))) = false.
Proof.
  destruct (List.existsb isRejected _) eqn:E; [|reflexivity].
  apply existsb_exists in E. destruct E as ([n p] & Hin & Hrej).
  destruct (runTasks_finished n p Hin) as (a & v & _ & _ & -> & _).
  discriminate.
Qed.

(** What a name that was not selected finds after the run. *)
Lemma runTasks_Untouched k :
  ~ In k assetNames ->
  Untouched k (initialWorld h o c)
    (snd (runTasks h o compiler wk interleaving assetNames
            (initialWorld h o c))).
Proof.
  intros Hk. unfold runTasks.
  apply (runSchedule_Untouched h o compiler wk _
           (List.map (fun name => (name, Queued)) assetNames,
            initialWorld h o c) k).
  simpl. apply property_absent. now rewrite keys_queued.
Qed.

End Run.

Lemma optimize_unfold h (o : Options) compiler c assetsArgument interleaving
      assetNames :
  NoDup (enumerated c assetsArgument) ->
  selectAssets o c (enumerated c assetsArgument) = Some assetNames ->
  optimize h o compiler c assetsArgument interleaving =
  match assetNames with
  | [] => Some (mkRun (mkWorld c [] []) [] None false)
  | _ :: _ =>
      let wk := worker (schedule h o assetNames) in
      let result :=
        runTasks h o compiler wk interleaving assetNames
          (initialWorld h o c) in
      Some (mkRun (snd result) (fst result) (Some (schedule h o assetNames))
              match wk with Some _ => true | None => false end)
  end.
Proof.
  intros Hnodup Hselect.
  pose proof (runTasks_not_rejected h o compiler c assetsArgument
                interleaving assetNames (worker (schedule h o assetNames))
                Hnodup Hselect) as Hrej.
  unfold initialWorld in Hrej.
  unfold optimize. fold (enumerated c assetsArgument). rewrite Hselect.
  cbv zeta. rewrite Hrej.
  destruct assetNames; reflexivity.
Qed.

(** [optimize] resolves, under every interleaving; at the end every task
    has finished as [TaskInv] says, and what belongs to a name without a
    task is as it was. *)
Lemma optimize_spec h (o : Options) compiler c assetsArgument interleaving
      assetNames :
  NoDup (enumerated c assetsArgument) ->
  selectAssets o c (enumerated c assetsArgument) = Some assetNames ->
  let wk := worker (schedule h o assetNames) in
  exists run,
    optimize h o compiler c assetsArgument interleaving = Some run /\
    keys (run_tasks run) = assetNames /\
    assetApi (compilation (run_world run)) = assetApi c /\
    (forall n p,
       In (n, p) (run_tasks run) ->
       exists a v,
         getAsset c n = Some a /\ minimized (asset_info a) = false /\
         p = Finished v /\
         TaskInv h o compiler wk c a (Finished v) (run_world run)) /\
    (forall k,
       ~ In k assetNames ->
       Untouched k (mkWorld c [] []) (run_world run)) /\
    Forall (fun call => isViaWorker call =
                        match wk with Some _ => true | None => false end)
      (calls (run_world run)) /\
    run_scheduler run =
      match assetNames with
      | [] => None
      | _ :: _ => Some (schedule h o assetNames)
      end /\
    run_workerEnded run =
      match assetNames with
      | [] => false
      | _ :: _ => match wk with Some _ => true | None => false end
      end.
Proof.
  intros Hnodup Hselect wk.
  pose proof (optimize_unfold h o compiler c assetsArgument interleaving
                assetNames Hnodup Hselect) as Hopt.
  pose proof (runTasks_keys h o compiler c interleaving assetNames wk)
    as Hkeys.
  pose proof (runTasks_finished h o compiler c assetsArgument interleaving
                assetNames wk Hnodup Hselect) as Hfin.
  pose proof (runTasks_Untouched h o compiler c interleaving assetNames wk)
    as Hunt.
  pose proof (runSchedule_calls_kind h o compiler wk
                (interleaving ++ toTheEnd assetNames)%list
                (List.map (fun name => (name, Queued)) assetNames,
                 initialWorld h o c) (Forall_nil _)) as Hkind.
  pose proof (runSchedule_Stable h o compiler wk
                (interleaving ++ toTheEnd assetNames)%list
                (List.map (fun name => (name, Queued)) assetNames,
                 initialWorld h o c)) as Hst.
  fold (runTasks h o compiler wk interleaving assetNames (initialWorld h o c))
    in Hkind, Hst.
  cbv zeta in Hopt. fold wk in Hopt.
  destruct assetNames as [|n rest] eqn:E.
  - eexists. split; [exact Hopt|]. simpl.
    split; [reflexivity|]. split; [reflexivity|].
    split; [contradiction|]. split; [intros; apply Untouched_refl|].
    split; [constructor|]. auto.
  - rewrite <- E in *.
    eexists. split; [exact Hopt|]. cbn [run_tasks run_world run_scheduler
                                          run_workerEnded].
    split; [exact Hkeys|]. split; [exact (same_api _ _ Hst)|].
    split; [exact Hfin|].
    split.
    { intros k Hk. destruct (Hunt k Hk) as [Ha Hi He Hw Hc].
      constructor; assumption. }
    split; [exact Hkind|]. rewrite E. auto.
Qed.

(** ** Cache hits *)



(** ** Failures of the minifier *)






(** ** Assets that are not selected *)

(** C3.  An asset whose name the [test]/[include]/[exclude] conditions do
    not match, or whose info is flagged [minimized], comes out of a run of
    [optimize] as it went in, under every interleaving of the tasks: same
    source, same info, no error and no warning recorded for it, no call of
    the minifier made for it. *)
Theorem unselected_asset_is_left_alone
        (h : Host) (o : Options) (compiler : Compiler) (c : Compilation)
        (assetsArgument : option (list (string * Source)))
        (interleaving : list string) (name : string) (a : Asset) :
  NoDup (enumerated c assetsArgument) ->
  (forall n, In n (enumerated c assetsArgument) ->
             matchObject o n = true -> getAsset c n <> None) ->
  getAsset c name = Some a ->
  matchObject o name = false \/ minimized (asset_info a) = true ->
  exists run,
    optimize h o compiler c assetsArgument interleaving = Some run /\
    property name (assets (compilation (run_world run))) =
      property name (assets c) /\
    property name (assetsInfo (compilation (run_world run))) =
      property name (assetsInfo c) /\
    getAsset (compilation (run_world run)) name = Some a /\
    entriesFor name (errors (compilation (run_world run))) =
      entriesFor name (errors c) /\
    entriesFor name (warnings (compilation (run_world run))) =
      entriesFor name (warnings c) /\
    callsFor name (calls (run_world run)) = [].
Proof.
  intros Hnodup Hpresent Hasset Hout.
  destruct (selectAssets_total o c (enumerated c assetsArgument) Hpresent)
    as (assetNames & Hselect).
  assert (Hnotin : ~ In name assetNames).
  { intros Hin.
    destruct (selected_asset o c assetsArgument assetNames Hselect name Hin)
      as (Hmatch & a' & Ha' & Hmin).
    rewrite Hasset in Ha'. injection Ha' as <-.
    destruct Hout; congruence. }
  destruct (optimize_spec h o compiler c assetsArgument interleaving
              assetNames Hnodup Hselect)
    as (run & Hopt & _ & Hapi & _ & Hunt & _).
  destruct (Hunt name Hnotin) as [Ua Ui Ue Uw Uc]. simpl in *.
  exists run. repeat (split; [assumption|]).
  split; [|auto].
  rewrite <- Hasset. now apply getAsset_ext.
Qed.

(** The run of the example leaves [b.txt], which the test does not match,
    and [done.css], which is flagged, as they were. *)
Lemma unselected_asset_is_left_alone_witness :
  (exists run,
     optimize Sample.host Sample.options Sample.compiler
       Sample.compilation None Sample.interleaving = Some run /\
     getAsset (compilation (run_world run)) "b.txt" =
       Some (mkAsset "b.txt" Sample.textSource emptyInfo)) /\
  (exists run,
     optimize Sample.host Sample.options Sample.compiler
       Sample.compilation None Sample.interleaving = Some run /\
     getAsset (compilation (run_world run)) "done.css" =
       Some (mkAsset "done.css" Sample.doneSource (mkInfo true []))).
Proof.
  assert (Hnodup : NoDup (enumerated Sample.compilation None)).
  { vm_compute. repeat constructor; simpl; intuition discriminate. }
  assert (Hpresent :
            forall n, In n (enumerated Sample.compilation None) ->
                      matchObject Sample.options n = true ->
                      getAsset Sample.compilation n <> None).
  { intros n Hin _. simpl in Hin.
    repeat (destruct Hin as [<-|Hin]; [discriminate|]). contradiction. }
  split.
  - destruct (unselected_asset_is_left_alone
                Sample.host Sample.options Sample.compiler
                Sample.compilation None Sample.interleaving "b.txt"
                (mkAsset "b.txt" Sample.textSource emptyInfo)
                Hnodup Hpresent eq_refl (or_introl eq_refl))
      as (run & Hopt & _ & _ & Hget & _).
    exists run. auto.
  - destruct (unselected_asset_is_left_alone
                Sample.host Sample.options Sample.compiler
                Sample.compilation None Sample.interleaving "done.css"
                (mkAsset "done.css" Sample.doneSource (mkInfo true []))
                Hnodup Hpresent eq_refl (or_intror eq_refl))
      as (run & Hopt & _ & _ & Hget & _).
    exists run. auto.
Defined.

(** ** The scheduler *)




(** ** Warnings of a task *)





(** ** Further properties of the class *)

(** *** [isSourceMap] *)

(** X4.  [isSourceMap] accepts exactly the plain objects whose [version]
    is truthy, whose [sources] is an array and whose [mappings] is a
    string: the array may be empty and so may the string, a version [0]
    is refused, and so is everything that is not an object ([null],
    [undefined], a string holding JSON). *)
Theorem isSourceMap_accepts_exactly_versioned_objects (input : Js.value) :
  isSourceMap input = true <->
  exists fields items mappings,
    input = Js.VObj fields /\
    Js.truthy (Js.lookup "version" fields) = true /\
    Js.lookup "sources" fields = Js.VArr items /\
    Js.lookup "mappings" fields = Js.VStr mappings.
Proof.
  unfold isSourceMap. split.
  - intros H. repeat (apply andb_prop in H; destruct H as [H ?]).
    destruct input; simpl in *; try discriminate.
    destruct (Js.lookup "sources" fields) eqn:Es; try discriminate.
    destruct (Js.lookup "mappings" fields) eqn:Em; try discriminate.
    eauto 8.
  - intros (fields & items & mappings & -> & Hv & Hs & Hm). simpl.
    now rewrite Hv, Hs, Hm.
Qed.

(** *** The default [test] *)

Lemma star_isDot_atEnd s :
  DefaultTest.star WarningRegex.isDot s DefaultTest.atEnd = true <->
  oneLine s.
Proof.
  unfold oneLine. induction s as [|c s IH]; simpl.
  - split; [intros _ ? []|reflexivity].
  - destruct (WarningRegex.isDot c) eqn:Ec.
    + rewrite orb_false_r. rewrite IH. split.
      * intros H x [<-|Hx]; auto.
      * intros H x Hx. apply H. now right.
    + split; [discriminate|]. intros H.
      rewrite <- Ec. apply H. now left.
Qed.

Lemma isLetter_spec lower upper c :
  DefaultTest.isLetter lower upper c = true <-> c = lower \/ c = upper.
Proof.
  unfold DefaultTest.isLetter. rewrite orb_true_iff.
  now rewrite !Ascii.eqb_eq.
Qed.

Lemma matchHere_spec s :
  DefaultTest.matchHere s = true <->
  exists ext rest,
    s = ext ++ rest /\ isCssSuffix ext /\
    (rest = "" \/ exists query, rest = String "?" query /\ oneLine query).
Proof.
  split.
  - destruct s as [|d [|c [|s1 [|s2 rest]]]]; simpl; try discriminate.
    intros H. apply andb_prop in H. destruct H as [H Hrest].
    repeat (apply andb_prop in H; destruct H as [H ?]).
    apply Ascii.eqb_eq in H. subst d.
    exists (String "." (String c (String s1 (String s2 "")))), rest.
    split; [reflexivity|]. split.
    + exists c, s1, s2. split; [reflexivity|].
      repeat split; now apply isLetter_spec.
    + apply orb_prop in Hrest. destruct Hrest as [Hq|Hend].
      * destruct rest as [|q query]; [discriminate|].
        apply andb_prop in Hq. destruct Hq as [Hq Hstar].
        apply Ascii.eqb_eq in Hq. subst q. right. exists query.
        split; [reflexivity|]. now apply star_isDot_atEnd.
      * destruct rest; [now left|discriminate].
  - intros (ext & rest & -> & (c & s1 & s2 & -> & Hc & H1 & H2) & Hrest).
    simpl. apply isLetter_spec in Hc, H1, H2. rewrite Hc, H1, H2. simpl.
    destruct Hrest as [->|(query & -> & Hq)]; [reflexivity|].
    simpl. apply star_isDot_atEnd in Hq. now rewrite Hq.
Qed.

(** X1.  The default of the [test] option accepts exactly the names that
    hold [.css], in any mix of upper and lower case, either at their very
    end or right before a [?] that is followed by no line terminator up
    to the end of the name; the extension need not come after a stem. *)
Theorem default_test_accepts_css_names (name : string) :
  DefaultTest.test name = true <->
  exists stem ext rest,
    name = stem ++ ext ++ rest /\ isCssSuffix ext /\
    (rest = "" \/ exists query, rest = String "?" query /\ oneLine query).
Proof.
  induction name as [|c name IH].
  - simpl. split; [discriminate|].
    intros (stem & ext & rest & H & (a & b & d & -> & _) & _).
    destruct stem; discriminate.
  - cbn [DefaultTest.test]. rewrite orb_true_iff, matchHere_spec, IH. split.
    + intros [(ext & rest & H & He & Hr)|(stem & ext & rest & H & He & Hr)].
      * exists "", ext, rest. auto.
      * exists (String c stem), ext, rest. simpl. rewrite H. auto.
    + intros (stem & ext & rest & H & He & Hr).
      destruct stem as [|x stem]; simpl in H.
      * left. eauto.
      * right. injection H as -> ->. eauto 6.
Qed.

(** *** The stack of an error *)

Lemma split_not_nil sep s : Js.split sep s <> [].
Proof.
  destruct s as [|c s]; simpl; [discriminate|].
  destruct (Ascii.eqb c sep); [discriminate|].
  destruct (Js.split sep s); discriminate.
Qed.

Lemma join_split s : Js.join Js.nl (Js.split (ascii_of_nat 10) s) = s.
Proof.
  unfold Js.join. induction s as [|c s IH]; [reflexivity|].
  cbn [Js.split]. destruct (Ascii.eqb_spec c (ascii_of_nat 10)) as [->|Hne].
  - pose proof (split_not_nil (ascii_of_nat 10) s) as Hnil.
    destruct (Js.split (ascii_of_nat 10) s) as [|p ps]; [contradiction|].
    change (String.concat Js.nl ("" :: p :: ps))
      with (Js.nl ++ String.concat Js.nl (p :: ps)).
    now rewrite IH.
  - pose proof (split_not_nil (ascii_of_nat 10) s) as Hnil.
    destruct (Js.split (ascii_of_nat 10) s) as [|p ps]; [contradiction|].
    rewrite <- IH. destruct ps; reflexivity.
Qed.

Lemma split_first first rest :
  noLineFeed first ->
  Js.split (ascii_of_nat 10) (first ++ Js.nl ++ rest) =
  first :: Js.split (ascii_of_nat 10) rest.
Proof.
  induction first as [|c first IH]; intros Hno.
  - reflexivity.
  - cbn [append Js.split].
    destruct (Ascii.eqb_spec c (ascii_of_nat 10)) as [->|Hne].
    + exfalso. apply (Hno (ascii_of_nat 10)); [now left|reflexivity].
    + rewrite IH; [reflexivity|].
      intros x Hx. apply Hno. now right.
Qed.

Lemma split_single first :
  noLineFeed first -> Js.split (ascii_of_nat 10) first = [first].
Proof.
  induction first as [|c first IH]; intros Hno; [reflexivity|].
  cbn [Js.split].
  destruct (Ascii.eqb_spec c (ascii_of_nat 10)) as [->|Hne].
  - exfalso. apply (Hno (ascii_of_nat 10)); [now left|reflexivity].
  - rewrite IH; [reflexivity|]. intros x Hx. apply Hno. now right.
Qed.

Lemma append_not_empty a b : a ++ Js.nl ++ b <> "".
Proof. destruct a; discriminate. Qed.

(** X7.  What [buildError] appends for the stack of an error that has a
    line: the stack without its first line, after a line feed.  A stack of
    one line leaves the line feed alone. *)
Theorem stackLines_drops_first_line (first rest : string) :
  noLineFeed first ->
  stackLines (Some (first ++ Js.nl ++ rest)) = Js.nl ++ rest /\
  (first <> "" -> stackLines (Some first) = Js.nl).
Proof.
  intros Hno. split.
  - unfold stackLines.
    destruct (String.eqb_spec (first ++ Js.nl ++ rest) "") as [E|_];
      [now apply append_not_empty in E|].
    cbn [negb]. rewrite split_first by exact Hno. cbn [List.tl].
    now rewrite join_split.
  - intros Hne. unfold stackLines.
    destruct (String.eqb_spec first "") as [E|_]; [contradiction|].
    cbn [negb]. now rewrite split_single by exact Hno.
Qed.

(** A stack of two lines: the second line is kept. *)
Lemma stackLines_drops_first_line_witness :
  stackLines (Some ("Error: boom" ++ Js.nl ++ "    at minify")) =
  Js.nl ++ "    at minify".
Proof.
  apply (stackLines_drops_first_line "Error: boom" "    at minify").
  intros c Hc. simpl in Hc.
  repeat (destruct Hc as [<-|Hc]; [discriminate|]). contradiction.
Defined.

(** *** [buildError] *)

(** X5.  For an error without [line], or with the line [0], [buildError]
    asks neither the source map nor the request shortener: the message is
    the name of the file, [ from Css Minimizer], a line feed and the stack
    of the error, or its message when it has no stack or an empty one. *)
Theorem buildError_without_line_ignores_source_map
        (error : MinifyError) (file : string) (sourceMap : option Consumer)
        (requestShortener : option Shortener) :
  err_line error = None \/ err_line error = Some 0%N ->
  buildError error file sourceMap requestShortener =
    file ++ " from Css Minimizer" ++ Js.nl ++
    match err_stack error with
    | Some stack => if stack =? "" then err_message error else stack
    | None => err_message error
    end.
Proof.
  intros Hline. unfold buildError, truthyLine.
  destruct Hline as [-> | ->]; cbn [N.eqb negb];
    (destruct (err_stack error) as [stack|]; [|reflexivity]);
    now destruct (stack =? "").
Qed.

(** An error at line [0] with a consumer that resolves every position. *)
Lemma buildError_without_line_ignores_source_map_witness :
  buildError (mkMinifyError (Some 0%N) (Some 7%N) "boom" None) "a.css"
    (Some Sample.consumer) (Some Sample.shortener) =
  "a.css from Css Minimizer" ++ Js.nl ++ "boom".
Proof.
  apply (buildError_without_line_ignores_source_map
           (mkMinifyError (Some 0%N) (Some 7%N) "boom" None) "a.css"
           (Some Sample.consumer) (Some Sample.shortener)).
  right. reflexivity.
Defined.

(** X6.  For an error with a line other than [0], whatever the source map
    resolves: the message built by [buildError] starts with the name of
    the file and [ from Css Minimizer], and ends with the position in the
    file itself, [[file:line,column]], followed by the lines of the stack
    after the first. *)
Theorem buildError_located_ends_with_asset_position
        (error : MinifyError) (file : string) (sourceMap : option Consumer)
        (requestShortener : option Shortener) (line : N) :
  err_line error = Some line -> line <> 0%N ->
  exists head,
    buildError error file sourceMap requestShortener =
      file ++ " from Css Minimizer" ++ head ++
      "[" ++ file ++ ":" ++ Js.showN line ++ "," ++
      Js.showOptional (err_column error) ++ "]" ++
      stackLines (err_stack error).
Proof.
  intros Hline Hne. unfold buildError, truthyLine. rewrite Hline.
  destruct (N.eqb_spec line 0) as [E|_]; [contradiction|]. cbn [negb].
  destruct (match sourceMap with
            | Some consumer =>
                originalPositionFor consumer line (err_column error)
            | None => None
            end) as [original|].
  - destruct (resolvedSource (Some original)) as [src|].
    + destruct requestShortener as [shortener|].
      * exists (" Webpack Plugin" ++ Js.nl ++ err_message error ++ " [" ++
                shorten shortener src ++ ":" ++
                Js.showNullable (orig_line original) ++ "," ++
                Js.showNullable (orig_column original) ++ "]").
        rewrite !append_assoc. reflexivity.
      * exists (" " ++ Js.nl ++ err_message error ++ " ").
        rewrite !append_assoc. reflexivity.
    + exists (" " ++ Js.nl ++ err_message error ++ " ").
      rewrite !append_assoc. reflexivity.
  - exists (" " ++ Js.nl ++ err_message error ++ " ").
    rewrite !append_assoc. reflexivity.
Qed.

(** The error of the example, with a consumer that resolves its position. *)
Lemma buildError_located_ends_with_asset_position_witness :
  exists head,
    buildError Sample.unclosed "broken.css" (Some Sample.consumer)
      (Some Sample.shortener) =
    "broken.css from Css Minimizer" ++ head ++ "[broken.css:1,3]".
Proof.
  destruct (buildError_located_ends_with_asset_position
              Sample.unclosed "broken.css" (Some Sample.consumer)
              (Some Sample.shortener) 1%N eq_refl) as (head & H).
  - discriminate.
  - exists head. exact H.
Defined.

(** *** The regular expression of warnings, both ways *)

Lemma allOf_cons cls c s :
  cls c = true ->
  (s = "" \/ allOf cls s) -> allOf cls (String c s).
Proof.
  intros Hc Hs. split; [discriminate|].
  intros x [<-|Hx]; [exact Hc|].
  destruct Hs as [->|[_ Hs]]; [contradiction|now apply Hs].
Qed.

Lemma plus_sound {R : Type} (cls : ascii -> bool) (s : string) :
  forall (k : string -> string -> option R) (r : R),
  WarningRegex.plus cls s k = Some r ->
  exists taken rest,
    s = taken ++ rest /\ allOf cls taken /\ k taken rest = Some r.
Proof.
  induction s as [|c s IH]; intros k r; simpl; [discriminate|].
  destruct (cls c) eqn:Hc; [|discriminate].
  destruct (WarningRegex.plus cls s
              (fun taken rest => k (String c taken) rest)) as [r'|] eqn:E.
  - intros H. injection H as <-.
    destruct (IH _ _ E) as (taken & rest & -> & Hall & Hk).
    exists (String c taken), rest. split; [reflexivity|].
    split; [|exact Hk]. apply allOf_cons; auto.
  - intros Hk. exists (String c ""), s. split; [reflexivity|].
    split; [|exact Hk]. apply allOf_cons; auto.
Qed.

Lemma plus_complete {R : Type} (cls : ascii -> bool) (taken : string) :
  forall (rest : string) (k : string -> string -> option R),
  allOf cls taken ->
  k taken rest <> None ->
  WarningRegex.plus cls (taken ++ rest) k <> None.
Proof.
  induction taken as [|c taken IH]; intros rest k [Hne Hall] Hk;
    [contradiction|].
  cbn [append WarningRegex.plus].
  rewrite (Hall c) by now left.
  destruct taken as [|c' taken'].
  - simpl in *. destruct (WarningRegex.plus cls rest _); [discriminate|].
    exact Hk.
  - assert (Hinner :
              WarningRegex.plus cls (String c' taken' ++ rest)
                (fun t r => k (String c t) r) <> None).
    { apply IH; [|exact Hk]. split; [discriminate|].
      intros x Hx. apply Hall. now right. }
    destruct (WarningRegex.plus cls (String c' taken' ++ rest) _);
      [discriminate|contradiction].
Qed.

Lemma matchHere_sound s m :
  WarningRegex.matchHere s = Some m -> isPosition m.
Proof.
  unfold WarningRegex.matchHere. destruct s as [|c s1]; [discriminate|].
  destruct (WarningRegex.isSpace c) eqn:Hc; [|discriminate].
  intros H.
  apply plus_sound in H. destruct H as (any & r1 & -> & Hany & H).
  apply plus_sound in H. destruct H as (colons1 & r2 & -> & Hc1 & H).
  apply plus_sound in H. destruct H as (g1 & r3 & -> & Hg1 & H).
  apply plus_sound in H. destruct H as (colons2 & r4 & -> & Hc2 & H).
  apply plus_sound in H. destruct H as (g2 & r5 & -> & Hg2 & H).
  injection H as <-. exists c, any, colons1, colons2. simpl. auto 8.
Qed.

Lemma matchHere_complete m rest :
  isPosition m ->
  WarningRegex.matchHere (WarningRegex.matched m ++ rest) <> None.
Proof.
  intros (c & any & colons1 & colons2 & -> & Hc & Hany & Hc1 & Hg1 & Hc2 &
          Hg2).
  cbn [append WarningRegex.matchHere]. rewrite Hc.
  rewrite !append_assoc.
  apply plus_complete; [exact Hany|].
  apply plus_complete; [exact Hc1|].
  apply plus_complete; [exact Hg1|].
  apply plus_complete; [exact Hc2|].
  apply plus_complete; [exact Hg2|].
  discriminate.
Qed.

Lemma exec_sound s : forall m,
  WarningRegex.exec s = Some m -> isPosition m.
Proof.
  induction s as [|c s IH]; intros m.
  - simpl. discriminate.
  - cbn [WarningRegex.exec].
    destruct (WarningRegex.matchHere (String c s)) as [m'|] eqn:E.
    + intros H. injection H as <-. now apply matchHere_sound in E.
    + destruct (WarningRegex.exec s) as [m'|]; [|discriminate].
      intros H. injection H as <-.
      destruct (IH m' eq_refl) as (x & any & c1 & c2 & Hm & Hrest).
      exists x, any, c1, c2. simpl. auto.
Qed.

Lemma exec_complete before : forall s,
  WarningRegex.matchHere s <> None ->
  WarningRegex.exec (before ++ s) <> None.
Proof.
  induction before as [|c before IH]; intros s Hs.
  - simpl. destruct s as [|c s]; cbn [WarningRegex.exec];
      destruct (WarningRegex.matchHere _); try discriminate; contradiction.
  - cbn [append WarningRegex.exec].
    destruct (WarningRegex.matchHere (String c (before ++ s)));
      [discriminate|].
    specialize (IH s Hs).
    destruct (WarningRegex.exec (before ++ s)); [discriminate|contradiction].
Qed.

Lemma exec_hasPosition warning :
  WarningRegex.exec warning <> None <-> hasPosition warning.
Proof.
  split.
  - destruct (WarningRegex.exec warning) as [m|] eqn:E; [|contradiction].
    intros _. exists m. split; [now apply exec_sound in E|].
    now apply exec_inv.
  - intros (m & Hm & ->). apply exec_complete.
    now apply matchHere_complete.
Qed.

(** X9.  [warningRegex] matches a warning exactly when the warning holds,
    somewhere, a white space, one character or more of one line, one colon
    or more, one digit or more, one colon or more and one digit or more.
    The match [exec] returns is of that form, with the two runs of digits
    as its groups, and the warning is the text before the match, the match
    and the text after it. *)
Theorem warningRegex_matches_exactly_positions (warning : string) :
  (WarningRegex.exec warning <> None <-> hasPosition warning) /\
  (forall m,
     WarningRegex.exec warning = Some m ->
     isPosition m /\
     warning =
       WarningRegex.before m ++ WarningRegex.matched m ++
       WarningRegex.after m).
Proof.
  split; [apply exec_hasPosition|].
  intros m E. split; [now apply exec_sound in E|now apply exec_inv].
Qed.

(** X10.  A warning that holds no such position is never rewritten,
    whatever the source map and the request shortener: [buildWarning]
    returns the prefix, the warning and a space, or [null] when the filter,
    asked about the warning with an [undefined] source, refuses it. *)
Theorem warning_without_position_is_kept_verbatim
        (warning file : string) (sourceMap : option Consumer)
        (requestShortener : option Shortener)
        (warningsFilter : option (string -> string -> option string -> bool)) :
  ~ hasPosition warning ->
  buildWarning warning file sourceMap requestShortener warningsFilter =
    match warningsFilter with
    | Some keep =>
        if keep warning file None
        then Some ("Css Minimizer Plugin: " ++ warning ++ " ")
        else None
    | None => Some ("Css Minimizer Plugin: " ++ warning ++ " ")
    end.
Proof.
  intros Hno.
  assert (E : WarningRegex.exec warning = None).
  { destruct (WarningRegex.exec warning) eqn:E; [|reflexivity].
    exfalso. apply Hno. apply exec_hasPosition. congruence. }
  unfold buildWarning, warningParts. rewrite E.
  destruct sourceMap; cbn [warningMessage locationMessage resolved];
    (destruct warningsFilter as [keep|]; [|reflexivity]);
    now destruct (keep warning file None).
Qed.

Lemma space_in_position m :
  isPosition m ->
  exists c,
    In c (list_ascii_of_string (WarningRegex.matched m)) /\
    WarningRegex.isSpace c = true.
Proof.
  intros (c & any & c1 & c2 & -> & Hc & _). exists c. split; [now left|auto].
Qed.

Lemma in_append_middle c (a b d : string) :
  In c (list_ascii_of_string b) -> In c (list_ascii_of_string (a ++ b ++ d)).
Proof.
  intros Hin. induction a as [|x a IH]; simpl.
  - induction b as [|y b IHb]; simpl in *; [contradiction|].
    destruct Hin as [->|Hin]; [now left|right; auto].
  - now right.
Qed.

(** A position without a white space before it is no match. *)
Lemma warning_without_position_is_kept_verbatim_witness :
  buildWarning "a.css:12:34" "a.css" (Some Sample.consumer)
    (Some Sample.shortener) None =
  Some "Css Minimizer Plugin: a.css:12:34 ".
Proof.
  apply (warning_without_position_is_kept_verbatim "a.css:12:34" "a.css"
           (Some Sample.consumer) (Some Sample.shortener) None).
  intros (m & Hm & Hw).
  destruct (space_in_position m Hm) as (c & Hin & Hc).
  apply (in_append_middle c (WarningRegex.before m) _ (WarningRegex.after m))
    in Hin.
  rewrite <- Hw in Hin. simpl in Hin.
  repeat (destruct Hin as [<-|Hin]; [discriminate|]). contradiction.
Defined.

(** *** The default filter *)




(** *** The number of workers *)

Lemma cores_le_cpus osCpus parallel :
  (getAvailableNumberOfCores osCpus parallel <= cpusLength osCpus - 1)%Z.
Proof.
  unfold getAvailableNumberOfCores.
  destruct parallel as [[|]|n]; lia.
Qed.

Lemma cores_le_number osCpus n :
  (getAvailableNumberOfCores osCpus (ParallelNumber n) <= n)%Z.
Proof.
  unfold getAvailableNumberOfCores, numberOrZero.
  destruct (Z.eqb_spec n 0); lia.
Qed.

(** X11.  When [optimize] creates a worker, its [numWorkers] is at least
    one, at most the number of selected assets, at most the number of
    logical units less one, and at most the number given as [parallel];
    it is also the limit given to [pLimit]. *)
Theorem worker_count_is_bounded
        (h : Host) (o : Options) (assetNames : list string) (n : Z) :
  assetNames <> [] ->
  worker (schedule h o assetNames) = Some n ->
  (1 <= n)%Z /\
  (n <= Z.of_nat (List.length assetNames))%Z /\
  (n <= cpusLength (cpus h) - 1)%Z /\
  (forall k, parallel o = ParallelNumber k -> (n <= k)%Z) /\
  concurrency (schedule h o assetNames) = AtMost n.
Proof.
  intros Hne. unfold schedule.
  pose proof (cores_le_cpus (cpus h) (parallel o)) as Hcpus.
  destruct (Z.gtb_spec (getAvailableNumberOfCores (cpus h) (parallel o)) 0)
    as [Hpos|_]; cbn [worker concurrency]; [|discriminate].
  intros H. injection H as <-.
  assert (Hlen : (1 <= Z.of_nat (List.length assetNames))%Z).
  { destruct assetNames; [contradiction|]. simpl List.length. lia. }
  repeat split; try lia.
  intros k Hk. rewrite Hk in *.
  pose proof (cores_le_number (cpus h) k). lia.
Qed.

(** Two assets on the host of the example, which has four logical units. *)
Lemma worker_count_is_bounded_witness :
  (1 <= 2)%Z /\ (2 <= 2)%Z /\ (2 <= 3)%Z.
Proof.
  destruct (worker_count_is_bounded Sample.host Sample.options
              ["main.css"; "broken.css"] 2%Z) as (H1 & H2 & H3 & _).
  - discriminate.
  - reflexivity.
  - auto.
Defined.

(** *** [getAsset] after [updateAsset] *)


(** *** [apply] twice *)

(** X24.  Once [apply] has left a [sourceMap] option that is not
    [undefined], a second [apply] of the same plugin, for whatever devtool
    and plugins, changes nothing: the first compiler settles the
    option. *)
Theorem apply_settles_sourceMap_once
        (o : Options) (devtool devtool' : Devtool)
        (plugins plugins' : option (list PluginEntry)) :
  sourceMap (apply o devtool plugins) <> Js.VUndefined ->
  apply (apply o devtool plugins) devtool' plugins' = apply o devtool plugins.
Proof.
  intros Hdef.
  assert (Hkept : effectiveSourceMap (apply o devtool plugins) devtool'
                    plugins' = sourceMap (apply o devtool plugins)).
  { unfold effectiveSourceMap.
    destruct (sourceMap (apply o devtool plugins));
      [contradiction|reflexivity..]. }
  unfold apply at 1. rewrite Hkept. reflexivity.
Qed.

(** [source-map] for the first compiler, [eval] for the second. *)
Lemma apply_settles_sourceMap_once_witness :
  sourceMap
    (apply (apply Sample.unsetOptions (DevtoolString "source-map") None)
       (DevtoolString "eval") None) = Js.VBool true.
Proof.
  rewrite (apply_settles_sourceMap_once Sample.unsetOptions
             (DevtoolString "source-map") (DevtoolString "eval") None None).
  - reflexivity.
  - discriminate.
Defined.

(** *** The error of a failed task *)

(** X8.  When the input source map of a task is not a source map ([null],
    [undefined] or refused by [isSourceMap]), the error recorded for an
    error of the minifier that has a line does not resolve the position:
    its message is the name, [ from Css Minimizer ], the message of the
    error, the position in the asset and the rest of the stack. *)
Theorem error_is_not_resolved_without_valid_input_map
        (h : Host) (compiler : Compiler) (name : string)
        (inputSourceMap : Js.value) (error : MinifyError) (line : N) :
  isSourceMap inputSourceMap = false ->
  err_line error = Some line -> line <> 0%N ->
  entry (minifyFailure h compiler name inputSourceMap error) =
    ErrorObject
      (name ++ " from Css Minimizer " ++ Js.nl ++ err_message error ++
       " [" ++ name ++ ":" ++ Js.showN line ++ "," ++
       Js.showOptional (err_column error) ++ "]" ++
       stackLines (err_stack error)).
Proof.
  intros Hmap Hline Hne. unfold minifyFailure, consumerFor.
  rewrite Hmap, andb_false_r. cbn [entry]. f_equal.
  unfold buildError, truthyLine. rewrite Hline.
  destruct (N.eqb_spec line 0) as [E|_]; [contradiction|]. reflexivity.
Qed.

(** The error of the example, with source maps off. *)
Lemma error_is_not_resolved_without_valid_input_map_witness :
  entry (minifyFailure Sample.host Sample.compiler "broken.css" Js.VNull
           Sample.unclosed) =
  ErrorObject
    ("broken.css from Css Minimizer " ++ Js.nl ++
     "Unclosed block [broken.css:1,3]").
Proof.
  apply (error_is_not_resolved_without_valid_input_map Sample.host
           Sample.compiler "broken.css" Js.VNull Sample.unclosed 1%N).
  - reflexivity.
  - reflexivity.
  - discriminate.
Defined.

(** *** The selection *)

Lemma selectAssets_none (o : Options) c names :
  (forall n, In n names -> selected o c n = Some false) ->
  selectAssets o c names = Some [].
Proof.
  induction names as [|m rest IH]; intros Hall; [reflexivity|].
  cbn [selectAssets]. rewrite (Hall m) by now left.
  rewrite IH; [reflexivity|]. intros n Hn. apply Hall. now right.
Qed.

Lemma selectAssets_throws (o : Options) c names :
  selectAssets o c names = None <->
  exists n, In n names /\ selected o c n = None.
Proof.
  induction names as [|m rest IH]; cbn [selectAssets].
  - split; [discriminate|]. intros (n & [] & _).
  - destruct (selected o c m) as [keep|] eqn:Hm.
    + destruct (selectAssets o c rest) as [chosen|].
      * split; [discriminate|]. intros (n & [<-|Hn] & Hsel); [congruence|].
        assert (Hnone : Some chosen = None) by (apply (proj2 IH); eauto).
        discriminate.
      * split; [|reflexivity]. intros _.
        destruct (proj1 IH eq_refl) as (n & Hn & Hsel).
        exists n. split; [now right|exact Hsel].
    + split; [|reflexivity]. intros _. exists m. split; [now left|exact Hm].
Qed.


Lemma selected_false (o : Options) c n :
  selected o c n = Some false <->
  matchObject o n = false \/
  exists a, getAsset c n = Some a /\ minimized (asset_info a) = true.
Proof.
  unfold selected. destruct (matchObject o n); cbn [negb].
  - destruct (getAsset c n) as [a|].
    + destruct (minimized (asset_info a)) eqn:E; split.
      * intros _. right. eauto.
      * reflexivity.
      * discriminate.
      * intros [?|(a' & Ha & Hm)]; [discriminate|].
        injection Ha as <-. congruence.
    + split; [discriminate|].
      intros [?|(a' & Ha & _)]; discriminate.
  - split; auto.
Qed.

Lemma optimize_nothing_selected h (o : Options) compiler c assetsArgument
      interleaving :
  (forall n,
     In n (enumerated c assetsArgument) -> selected o c n = Some false) ->
  optimize h o compiler c assetsArgument interleaving =
    Some (mkRun (mkWorld c [] []) [] None false).
Proof.
  intros Hall. unfold optimize. fold (enumerated c assetsArgument).
  now rewrite selectAssets_none.
Qed.

(** X14.  When every enumerated name is refused by the
    [test]/[include]/[exclude] conditions or belongs to an asset flagged
    [minimized], [optimize] resolves at once: no worker, no cache engine
    and no task are created, no call of the minifier is made, and the
    compilation is what it was. *)
Theorem optimize_without_selection_does_nothing
        (h : Host) (o : Options) (compiler : Compiler) (c : Compilation)
        (assetsArgument : option (list (string * Source)))
        (interleaving : list string) :
  (forall n,
     In n (enumerated c assetsArgument) ->
     matchObject o n = false \/
     exists a, getAsset c n = Some a /\ minimized (asset_info a) = true) ->
  optimize h o compiler c assetsArgument interleaving =
    Some (mkRun (mkWorld c [] []) [] None false).
Proof.
  intros Hall. apply optimize_nothing_selected.
  intros n Hn. apply selected_false. now apply Hall.
Qed.

(** A compilation with a text file and a flagged stylesheet. *)
Lemma optimize_without_selection_does_nothing_witness :
  optimize Sample.host Sample.options Sample.compiler Sample.idleCompilation None
    ["done.css"] =
  Some (mkRun (mkWorld Sample.idleCompilation [] []) [] None false).
Proof.
  apply (optimize_without_selection_does_nothing Sample.host Sample.options
           Sample.compiler Sample.idleCompilation None ["done.css"]).
  intros n [<-|[<-|[]]].
  - left. reflexivity.
  - right. eexists. split; reflexivity.
Defined.



(** *** Reading off a finished run *)

Lemma task_of_selected (run_tasks : list (string * Progress)) assetNames n :
  keys run_tasks = assetNames -> In n assetNames ->
  exists p, In (n, p) run_tasks.
Proof.
  intros <- Hin. unfold keys in Hin. apply in_map_iff in Hin.
  destruct Hin as ([m p] & Hm & Hin). simpl in Hm. subst m. eauto.
Qed.

(** *** Fresh results *)



(** *** Runs without a worker *)



(** *** Maps that need no warning *)




(** *** What the tasks store *)

Lemma storedFor_app name l l' :
  storedFor name (l ++ l') = (storedFor name l ++ storedFor name l')%list.
Proof. apply filter_app. Qed.

Lemma cacheDataOf_name h o a : cd_name (cacheDataOf h o a) = asset_name a.
Proof. reflexivity. Qed.

Lemma resume_stored h o compiler wk name p w :
  stored (snd (resume h o compiler wk name p w)) =
  (stored w ++
   match p with
   | AwaitingMinifier l (Returned r) =>
       [(mkOutput r (sourceOf h name (l_input l) (l_inputSourceMap l) r),
         l_cacheData l)]
   | _ => []
   end)%list.
Proof.
  destruct p as [|l [output|]|l [r|error]|l output|v|]; cbn [resume];
    try (simpl; now rewrite app_nil_r).
  - unfold start. destruct (getAsset (compilation w) name) as [a|];
      [destruct (minimized (asset_info a))|]; simpl; now rewrite app_nil_r.
  - rewrite app_nil_r. apply finish_frame.
  - reflexivity.
  - rewrite app_nil_r. apply finish_frame.
Qed.

Lemma TaskInv_present h o compiler wk c a p w :
  TaskInv h o compiler wk c a p w ->
  property (asset_name a) (assets (compilation w)) <> None.
Proof.
  intros Hinv. apply getAsset_present. unfold TaskInv in Hinv.
  destruct p as [|l answer|l outcome|l output|[|output|error|output]|];
    try contradiction;
    repeat match goal with
           | H : _ /\ _ |- _ => destruct H
           end; congruence.
Qed.

Section Stored.

Variables (h : Host) (o : Options) (compiler : Compiler) (wk : option Z).
Variables (c : Compilation) (engine : list (Output * CacheData)).

Lemma advance_StoreInv pool name :
  PoolInv h o compiler wk c pool ->
  StoreInv h o c engine pool ->
  StoreInv h o c engine (advance h o compiler wk pool name).
Proof.
  intros (Hapi & Hall) Hst n.
  destruct (property name (fst pool)) as [p|] eqn:Hp;
    [|rewrite (advance_absent h o compiler wk pool name Hp); apply Hst].
  destruct (Hall name p Hp) as (a & Ha & Hmin & Hinv).
  pose proof (TaskInv_present _ _ _ _ _ _ _ _ Hinv) as Hpresent.
  destruct (getAsset_inv _ _ _ Ha) as (Hname & _).
  rewrite Hname in Hpresent.
  destruct (advance_same h o compiler wk pool name p Hp) as (Hp' & Hw').
  rewrite Hw', resume_stored, storedFor_app, (Hst n).
  unfold TaskInv in Hinv. rewrite Hname in Hinv.
  destruct (String.eqb_spec n name) as [->|Hne].
  - rewrite Hp', Hp, Ha. rewrite <- app_assoc. f_equal.
    destruct p as [|l [output|]|l [r|error]|l output|v|]; cbn [resume].
    + unfold start. destruct (getAsset (compilation (snd pool)) name) as [b|];
        [destruct (minimized (asset_info b))|]; reflexivity.
    + unfold finish. destruct (updateAsset _ _ _ _); reflexivity.
    + reflexivity.
    + destruct Hinv as (-> & _). cbn [fst freshlyStored app].
      unfold storedFor. cbn [List.filter snd l_cacheData localOf].
      rewrite cacheDataOf_name, Hname, String.eqb_refl. reflexivity.
    + reflexivity.
    + destruct (finish_frame h o compiler name l output (Minified output)
                  (snd pool)) as (_ & _ & _ & _ & _ & _ & _ & _ & Hdone).
      cbv zeta in Hdone. destruct (Hdone Hpresent) as (-> & _).
      reflexivity.
    + now rewrite app_nil_r.
    + reflexivity.
  - rewrite (advance_other h o compiler wk pool name n Hne).
    match goal with
    | |- (_ ++ ?d)%list = _ => assert (Hd : d = [])
    end.
    { destruct p as [|l [output|]|l [r|error]|l output|v|]; try reflexivity.
      destruct Hinv as (-> & _).
      unfold storedFor. cbn [List.filter snd l_cacheData localOf].
      rewrite cacheDataOf_name, Hname.
      destruct (String.eqb_spec name n); [congruence|reflexivity]. }
    rewrite Hd. apply app_nil_r.
Qed.

Lemma runSchedule_StoreInv order : forall pool,
  PoolInv h o compiler wk c pool ->
  StoreInv h o c engine pool ->
  StoreInv h o c engine (runSchedule h o compiler wk order pool).
Proof.
  induction order as [|name rest IH]; intros pool Hinv Hst; simpl.
  - exact Hst.
  - apply IH; [now apply advance_PoolInv|now apply advance_StoreInv].
Qed.

End Stored.

(** *** What stays of the compilation *)

Lemma Grown_refl names w : Grown names w w.
Proof.
  constructor; [reflexivity|..];
    (exists []; rewrite app_nil_r; split; [reflexivity|constructor]).
Qed.

Lemma Grown_trans names w1 w2 w3 :
  Grown names w1 w2 -> Grown names w2 w3 -> Grown names w1 w3.
Proof.
  intros [K1 (e1 & E1 & F1) (x1 & W1 & G1) (c1 & C1 & H1)]
         [K2 (e2 & E2 & F2) (x2 & W2 & G2) (c2 & C2 & H2)].
  constructor.
  - congruence.
  - exists (e1 ++ e2)%list. rewrite E2, E1, app_assoc.
    split; [reflexivity|]. apply Forall_app. auto.
  - exists (x1 ++ x2)%list. rewrite W2, W1, app_assoc.
    split; [reflexivity|]. apply Forall_app. auto.
  - exists (c1 ++ c2)%list. rewrite C2, C1, app_assoc.
    split; [reflexivity|]. apply Forall_app. auto.
Qed.

Lemma Extends_Grown names name w w' :
  Extends name w w' -> In name names ->
  keys (assets (compilation w')) = keys (assets (compilation w)) ->
  Grown names w w'.
Proof.
  intros [_ _ _ _ (es & E & Fe) (ws & W & Fw) (cs & C & Fc)] Hin Hkeys.
  constructor; [exact Hkeys|..].
  - exists es. split; [exact E|].
    eapply Forall_impl; [|exact Fe]. simpl. now intros r ->.
  - exists ws. split; [exact W|].
    eapply Forall_impl; [|exact Fw]. simpl. now intros r ->.
  - exists cs. split; [exact C|].
    eapply Forall_impl; [|exact Fc]. simpl. now intros r ->.
Qed.

Lemma updateAsset_keys c name s i c' :
  updateAsset c name s i = Some c' ->
  property name (assets c) <> None ->
  keys (assets c') = keys (assets c).
Proof.
  unfold updateAsset, compilation_updateAsset. intros H Hpresent.
  destruct (assetApi c).
  - destruct (property name (assets c)) eqn:E; [|discriminate].
    injection H as <-. cbn [assets].
    rewrite keys_assign;
      [apply keys_assign; rewrite E; discriminate|].
    rewrite property_assign_same. discriminate.
  - injection H as <-. cbn [assets]. now apply keys_assign.
Qed.

Lemma finish_keys h o compiler name l output verdict w :
  property name (assets (compilation w)) <> None ->
  keys (assets (compilation (snd (finish h o compiler name l output verdict
                                     w)))) =
  keys (assets (compilation w)).
Proof.
  intros Hpresent. unfold finish.
  destruct (reportWarnings_frame h o compiler name (l_inputSourceMap l)
              (result_warnings (out_result output)) (compilation w))
    as (Ha & _).
  cbv zeta in Ha.
  destruct (updateAsset _ _ _ _) as [c2|] eqn:Hup; cbn [snd compilation].
  - rewrite (updateAsset_keys _ _ _ _ _ Hup); now rewrite Ha.
  - now rewrite Ha.
Qed.

Lemma resume_keys h o compiler wk name p w :
  property name (assets (compilation w)) <> None ->
  keys (assets (compilation (snd (resume h o compiler wk name p w)))) =
  keys (assets (compilation w)).
Proof.
  intros Hpresent.
  destruct p as [|l [output|]|l [r|error]|l output|v|]; cbn [resume];
    try reflexivity; try now apply finish_keys.
  unfold start. destruct (getAsset (compilation w) name) as [a|];
    [destruct (minimized (asset_info a))|]; try reflexivity.
  cbn [snd compilation].
  destruct (readInput_frame o name (asset_source a) (compilation w))
    as (Ha & _).
  cbv zeta in Ha. now rewrite Ha.
Qed.

Lemma property_in_keys {A : Type} k (v : A) object :
  property k object = Some v -> In k (keys object).
Proof.
  induction object as [|[k' v'] rest IH]; simpl; [discriminate|].
  destruct (String.eqb_spec k' k) as [->|Hne]; [now left|].
  intros H. right. now apply IH.
Qed.

Section Growth.

Variables (h : Host) (o : Options) (compiler : Compiler) (wk : option Z).
Variable c : Compilation.

Lemma advance_Grown names pool name :
  PoolInv h o compiler wk c pool ->
  (forall n, In n (keys (fst pool)) -> In n names) ->
  Grown names (snd pool) (snd (advance h o compiler wk pool name)).
Proof.
  intros (Hapi & Hall) Hnames.
  destruct (property name (fst pool)) as [p|] eqn:Hp;
    [|rewrite (advance_absent h o compiler wk pool name Hp);
      apply Grown_refl].
  destruct (Hall name p Hp) as (a & Ha & Hmin & Hinv).
  pose proof (TaskInv_present _ _ _ _ _ _ _ _ Hinv) as Hpresent.
  destruct (getAsset_inv _ _ _ Ha) as (Hname & _).
  rewrite Hname in Hpresent.
  destruct (advance_same h o compiler wk pool name p Hp) as (_ & ->).
  apply (Extends_Grown names name).
  - apply resume_Extends.
  - apply Hnames. eapply property_in_keys; eauto.
  - now apply resume_keys.
Qed.

Lemma runSchedule_Grown names order : forall pool,
  PoolInv h o compiler wk c pool ->
  (forall n, In n (keys (fst pool)) -> In n names) ->
  Grown names (snd pool) (snd (runSchedule h o compiler wk order pool)).
Proof.
  induction order as [|name rest IH]; intros pool Hinv Hnames; simpl.
  - apply Grown_refl.
  - apply (Grown_trans names _
             (snd (advance h o compiler wk pool name))).
    + now apply advance_Grown.
    + apply IH; [now apply advance_PoolInv|].
      now rewrite advance_keys.
Qed.

End Growth.

(** *** The run, once more *)

Section Outcome.

Variables (h : Host) (o : Options) (compiler : Compiler) (c : Compilation).
Variable assetsArgument : option (list (string * Source)).
Variable interleaving : list string.
Variable assetNames : list string.
Hypothesis Hnodup : NoDup (enumerated c assetsArgument).
Hypothesis Hselect :
  selectAssets o c (enumerated c assetsArgument) = Some assetNames.

Lemma runTasks_StoreInv wk :
  StoreInv h o c (CacheEngine h c (cache o))
    (runTasks h o compiler wk interleaving assetNames (initialWorld h o c)).
Proof.
  apply (runSchedule_StoreInv h o compiler wk c).
  - apply (initial_PoolInv h o compiler c assetsArgument assetNames wk
             Hselect).
  - intros n. cbn [fst snd initialWorld stored].
    destruct (property n _) as [p|] eqn:Hp; [|now rewrite app_nil_r].
    apply property_queued in Hp. destruct Hp as (-> & _).
    destruct (getAsset c n); now rewrite app_nil_r.
Qed.

Lemma runTasks_Grown wk :
  Grown assetNames (initialWorld h o c)
    (snd (runTasks h o compiler wk interleaving assetNames
            (initialWorld h o c))).
Proof.
  unfold runTasks.
  apply (runSchedule_Grown h o compiler wk c assetNames _
           (List.map (fun name => (name, Queued)) assetNames,
            initialWorld h o c)).
  - apply (initial_PoolInv h o compiler c assetsArgument assetNames wk
             Hselect).
  - cbn [fst]. now rewrite keys_queued.
Qed.

(** [optimize] as the run of its tasks, when it has any. *)
Lemma optimize_tasks :
  assetNames <> [] ->
  let wk := worker (schedule h o assetNames) in
  optimize h o compiler c assetsArgument interleaving =
  Some (mkRun
          (snd (runTasks h o compiler wk interleaving assetNames
                  (initialWorld h o c)))
          (fst (runTasks h o compiler wk interleaving assetNames
                  (initialWorld h o c)))
          (Some (schedule h o assetNames))
          match wk with Some _ => true | None => false end).
Proof.
  intros Hne wk.
  rewrite (optimize_unfold h o compiler c assetsArgument interleaving
             assetNames Hnodup Hselect).
  destruct assetNames; [contradiction|reflexivity].
Qed.

Lemma optimize_idle :
  assetNames = [] ->
  optimize h o compiler c assetsArgument interleaving =
  Some (mkRun (mkWorld c [] []) [] None false).
Proof.
  intros E.
  rewrite (optimize_unfold h o compiler c assetsArgument interleaving
             assetNames Hnodup Hselect).
  now rewrite E.
Qed.

End Outcome.

(** [optimize] resolves, and leaves the compilation grown. *)
Lemma optimize_Grown h (o : Options) compiler c assetsArgument interleaving
      assetNames :
  NoDup (enumerated c assetsArgument) ->
  selectAssets o c (enumerated c assetsArgument) = Some assetNames ->
  exists run,
    optimize h o compiler c assetsArgument interleaving = Some run /\
    Grown assetNames (mkWorld c [] []) (run_world run).
Proof.
  intros Hnodup Hselect.
  destruct assetNames as [|n rest] eqn:E.
  - eexists. split; [now apply (optimize_idle h o compiler c assetsArgument
                                  interleaving [])|].
    apply Grown_refl.
  - rewrite <- E in *.
    assert (Hne : assetNames <> []) by (rewrite E; discriminate).
    destruct (runTasks_Grown h o compiler c assetsArgument interleaving
                assetNames Hselect (worker (schedule h o assetNames)))
      as [Hk He Hw Hc].
    eexists.
    split; [exact (optimize_tasks h o compiler c assetsArgument
                     interleaving assetNames Hnodup Hselect Hne)|].
    constructor; assumption.
Qed.

(** X18.  Under every interleaving, what [cache.store] has been given at
    the end of a run: under the name of a task that ended with a fresh
    result, that result with the cache data of the asset, once; nothing
    under the name of a task that failed or was answered by the cache, and
    nothing under any other name. *)
Theorem only_fresh_outputs_are_stored
        (h : Host) (o : Options) (compiler : Compiler) (c : Compilation)
        (assetsArgument : option (list (string * Source)))
        (interleaving assetNames : list string) :
  NoDup (enumerated c assetsArgument) ->
  selectAssets o c (enumerated c assetsArgument) = Some assetNames ->
  assetNames <> [] ->
  exists run,
    optimize h o compiler c assetsArgument interleaving = Some run /\
    (forall name verdict,
       In (name, Finished verdict) (run_tasks run) ->
       exists a,
         getAsset c name = Some a /\
         storedFor name (stored (run_world run)) =
           (storedFor name (CacheEngine h c (cache o)) ++
            match verdict with
            | Minified output => [(output, cacheDataOf h o a)]
            | _ => []
            end)%list) /\
    (forall k,
       ~ In k assetNames ->
       storedFor k (stored (run_world run)) =
         storedFor k (CacheEngine h c (cache o))).
Proof.
  intros Hnodup Hselect Hne.
  set (wk := worker (schedule h o assetNames)).
  pose proof (runTasks_StoreInv h o compiler c assetsArgument interleaving
                assetNames Hselect wk) as Hst.
  pose proof (runTasks_keys h o compiler c interleaving assetNames wk)
    as Hkeys.
  pose proof (runTasks_finished h o compiler c assetsArgument interleaving
                assetNames wk Hnodup Hselect) as Hfin.
  eexists. split; [exact (optimize_tasks h o compiler c assetsArgument
                            interleaving assetNames Hnodup Hselect Hne)|].
  fold wk. cbn [run_tasks run_world]. split.
  - intros name verdict Hin.
    destruct (Hfin name _ Hin) as (a & v & Ha & _ & Hv & _).
    exists a. split; [exact Ha|]. rewrite (Hst name).
    rewrite (In_property name (Finished verdict) _) ; [|rewrite Hkeys|exact Hin].
    + rewrite Ha. now destruct verdict.
    + eapply selectAssets_NoDup; eauto.
  - intros k Hk. rewrite (Hst k).
    rewrite (property_absent k); [apply app_nil_r|now rewrite Hkeys].
Qed.

(** The run of the example, interleaved: one entry is stored, for [main.css]. *)
Lemma only_fresh_outputs_are_stored_witness :
  exists run,
    optimize Sample.host Sample.options Sample.compiler
      Sample.compilation None Sample.interleaving = Some run /\
    List.map snd (storedFor "main.css" (stored (run_world run))) =
      [cacheDataOf Sample.host Sample.options
         (mkAsset "main.css" Sample.mainSource emptyInfo)] /\
    storedFor "broken.css" (stored (run_world run)) = [] /\
    storedFor "cached.css" (stored (run_world run)) = [].
Proof.
  destruct (only_fresh_outputs_are_stored
              Sample.host Sample.options Sample.compiler
              Sample.compilation None Sample.interleaving
              ["main.css"; "broken.css"; "cached.css"])
    as (run & Hopt & Htasks & _).
  - vm_compute. repeat constructor; simpl; intuition discriminate.
  - reflexivity.
  - discriminate.
  - exists run. split; [exact Hopt|].
    assert (Hrun : exists o1 e o3,
               run_tasks run =
               [("main.css", Finished (Minified o1));
                ("broken.css", Finished (Failed e));
                ("cached.css", Finished (Reused o3))]).
    { revert Hopt. vm_compute. intros Hopt. injection Hopt as <-.
      simpl. eauto. }
    destruct Hrun as (o1 & e & o3 & Hrun).
    split; [|split].
    + destruct (Htasks "main.css" (Minified o1)) as (a & Ha & ->).
      * rewrite Hrun. simpl. auto.
      * injection Ha as <-. reflexivity.
    + destruct (Htasks "broken.css" (Failed e)) as (a & Ha & ->).
      * rewrite Hrun. simpl. auto.
      * reflexivity.
    + destruct (Htasks "cached.css" (Reused o3)) as (a & Ha & ->).
      * rewrite Hrun. simpl. auto.
      * reflexivity.
Defined.

(** X20.  A run of [optimize] neither adds nor removes an asset nor
    changes their order, and keeps the errors and the warnings the
    compilation had, in place: what it adds comes after them and is
    pushed by the tasks of selected assets. *)
Theorem optimize_keeps_asset_names_and_earlier_diagnostics
        (h : Host) (o : Options) (compiler : Compiler) (c : Compilation)
        (assetsArgument : option (list (string * Source)))
        (interleaving assetNames : list string) :
  NoDup (enumerated c assetsArgument) ->
  selectAssets o c (enumerated c assetsArgument) = Some assetNames ->
  exists run es ws,
    optimize h o compiler c assetsArgument interleaving = Some run /\
    keys (assets (compilation (run_world run))) = keys (assets c) /\
    errors (compilation (run_world run)) = (errors c ++ es)%list /\
    Forall (fun r => In (pushedFor r) assetNames) es /\
    warnings (compilation (run_world run)) = (warnings c ++ ws)%list /\
    Forall (fun r => In (pushedFor r) assetNames) ws.
Proof.
  intros Hnodup Hselect.
  destruct assetNames as [|n rest] eqn:E.
  - exists (mkRun (mkWorld c [] []) [] None false), [], [].
    split; [now apply (optimize_idle h o compiler c assetsArgument
                         interleaving [])|].
    cbn [run_world compilation]. rewrite !app_nil_r. auto.
  - rewrite <- E in *.
    assert (Hne : assetNames <> []) by (rewrite E; discriminate).
    destruct (runTasks_Grown h o compiler c assetsArgument interleaving
                assetNames Hselect (worker (schedule h o assetNames)))
      as [Hk (es & He & Fe) (ws & Hw & Fw) _].
    eexists. exists es, ws.
    split; [exact (optimize_tasks h o compiler c assetsArgument
                     interleaving assetNames Hnodup Hselect Hne)|].
    cbn [run_world]. auto 6.
Qed.

(** The run of the example, interleaved: the five assets, in their order. *)
Lemma optimize_keeps_asset_names_and_earlier_diagnostics_witness :
  exists run,
    optimize Sample.host Sample.options Sample.compiler
      Sample.compilation None Sample.interleaving = Some run /\
    keys (assets (compilation (run_world run))) =
      ["main.css"; "broken.css"; "cached.css"; "b.txt"; "done.css"].
Proof.
  destruct (optimize_keeps_asset_names_and_earlier_diagnostics
              Sample.host Sample.options Sample.compiler
              Sample.compilation None Sample.interleaving
              ["main.css"; "broken.css"; "cached.css"])
    as (run & es & ws & Hopt & Hkeys & _).
  - vm_compute. repeat constructor; simpl; intuition discriminate.
  - reflexivity.
  - exists run. auto.
Defined.

(** *** Counting the calls *)

Lemma filter_filter_length {A : Type} (f g : A -> bool) l :
  List.length (List.filter g (List.filter f l)) <=
  List.length (List.filter g l).
Proof.
  induction l as [|x l IH]; simpl; [lia|].
  destruct (f x); simpl; destruct (g x); simpl; lia.
Qed.

Lemma calls_bounded names : forall l,
  NoDup names ->
  Forall (fun call => In (callName call) names) l ->
  (forall n, In n names -> List.length (callsFor n l) <= 1) ->
  List.length l <= List.length names.
Proof.
  induction names as [|n rest IH]; intros l Hnd Hall Hone.
  - destruct l as [|x l]; [simpl; lia|].
    inversion Hall as [|? ? Hx _]. contradiction.
  - inversion Hnd as [|? ? Hnotin Hnd']; subst.
    rewrite <- (filter_length (fun call => callName call =? n) l).
    pose proof (Hone n (or_introl eq_refl)) as Hn. unfold callsFor in Hn.
    assert (Hrest :
              List.length
                (List.filter (fun call => negb (callName call =? n)) l) <=
              List.length rest).
    { apply IH; [exact Hnd'| |].
      - apply Forall_forall. intros x Hx. apply filter_In in Hx.
        destruct Hx as (Hx & Hneq).
        rewrite Forall_forall in Hall. destruct (Hall x Hx) as [Heq|Hin].
        + rewrite Heq, String.eqb_refl in Hneq. discriminate.
        + exact Hin.
      - intros m Hm. unfold callsFor.
        etransitivity; [apply filter_filter_length|].
        apply (Hone m). now right. }
    simpl. lia.
Qed.

(** X19.  Under every interleaving the minifier is called at most once
    for a name, only for names that were selected, and so at most as many
    times as assets were selected. *)
Theorem minifier_is_called_at_most_once_per_asset
        (h : Host) (o : Options) (compiler : Compiler) (c : Compilation)
        (assetsArgument : option (list (string * Source)))
        (interleaving assetNames : list string) :
  NoDup (enumerated c assetsArgument) ->
  selectAssets o c (enumerated c assetsArgument) = Some assetNames ->
  exists run,
    optimize h o compiler c assetsArgument interleaving = Some run /\
    (forall name,
       List.length (callsFor name (calls (run_world run))) <= 1) /\
    Forall (fun call => In (callName call) assetNames)
      (calls (run_world run)) /\
    List.length (calls (run_world run)) <= List.length assetNames.
Proof.
  intros Hnodup Hselect.
  destruct (optimize_spec h o compiler c assetsArgument interleaving
              assetNames Hnodup Hselect)
    as (run & Hopt & Hkeys & _ & Hfin & Hunt & _).
  exists run. split; [exact Hopt|].
  assert (Hone : forall name,
             List.length (callsFor name (calls (run_world run))) <= 1).
  { intros name. destruct (in_dec string_dec name assetNames) as [Hin|Hout].
    - destruct (task_of_selected _ _ name Hkeys Hin) as (p & Hp).
      destruct (Hfin name p Hp) as (a & v & Ha & _ & -> & Hinv).
      destruct (getAsset_inv _ _ _ Ha) as (Hn & _).
      unfold TaskInv in Hinv. rewrite Hn in Hinv.
      destruct v as [|output|error|output]; [contradiction|..];
        repeat match goal with
               | H : _ /\ _ |- _ => destruct H
               end;
        match goal with
        | H : Own _ _ _ _ _ _ |- _ => destruct H as (_ & _ & ->)
        end; simpl; lia.
    - destruct (Hunt name Hout) as [_ _ _ _ ->]. simpl. lia. }
  assert (Hall : Forall (fun call => In (callName call) assetNames)
                   (calls (run_world run))).
  { destruct assetNames as [|n rest] eqn:E.
    - rewrite (optimize_idle h o compiler c assetsArgument interleaving []
                 Hnodup Hselect eq_refl) in Hopt.
      injection Hopt as <-. constructor.
    - rewrite <- E in *.
      assert (Hne : assetNames <> []) by (rewrite E; discriminate).
      rewrite (optimize_tasks h o compiler c assetsArgument interleaving
                 assetNames Hnodup Hselect Hne) in Hopt.
      injection Hopt as <-. cbn [run_world].
      destruct (runTasks_Grown h o compiler c assetsArgument interleaving
                  assetNames Hselect (worker (schedule h o assetNames)))
        as [_ _ _ (cs & -> & Fc)].
      exact Fc. }
  split; [exact Hone|]. split; [exact Hall|].
  apply calls_bounded; [|exact Hall|auto].
  eapply selectAssets_NoDup; eauto.
Qed.

(** The run of the example, interleaved: three assets are selected. *)
Lemma minifier_is_called_at_most_once_per_asset_witness :
  exists run,
    optimize Sample.host Sample.options Sample.compiler
      Sample.compilation None Sample.interleaving = Some run /\
    List.length (calls (run_world run)) <= 3.
Proof.
  destruct (minifier_is_called_at_most_once_per_asset
              Sample.host Sample.options Sample.compiler
              Sample.compilation None Sample.interleaving
              ["main.css"; "broken.css"; "cached.css"])
    as (run & Hopt & _ & _ & Hlen).
  - vm_compute. repeat constructor; simpl; intuition discriminate.
  - reflexivity.
  - exists run. auto.
Defined.

(** *** A second run *)

Lemma selected_ext (o : Options) c c' n :
  getAsset c' n = getAsset c n -> selected o c' n = selected o c n.
Proof. unfold selected. now intros ->. Qed.

Lemma selectAssets_ext (o : Options) c c' names :
  (forall n, In n names -> selected o c' n = selected o c n) ->
  selectAssets o c' names = selectAssets o c names.
Proof.
  induction names as [|m rest IH]; intros Hall; [reflexivity|].
  cbn [selectAssets]. rewrite (Hall m) by now left.
  rewrite IH; [reflexivity|]. intros n Hn. apply Hall. now right.
Qed.

Lemma selectAssets_each (o : Options) c names chosen n :
  selectAssets o c names = Some chosen -> In n names ->
  ~ In n chosen -> selected o c n = Some false.
Proof.
  intros Hselect Hin Hout.
  destruct (selected o c n) as [[|]|] eqn:Hsel.
  - exfalso. apply Hout.
    apply (selectAssets_In o c names chosen n Hselect). auto.
  - reflexivity.
  - exfalso.
    assert (Hnone : selectAssets o c names = None)
      by (apply selectAssets_throws; eauto).
    congruence.
Qed.

Lemma enumerated_after c c' assetsArgument :
  keys (assets c') = keys (assets c) ->
  enumerated c' assetsArgument = enumerated c assetsArgument.
Proof. unfold enumerated. destruct assetsArgument; auto. Qed.

Lemma property_none_keys {A : Type} k (object : list (string * A)) :
  property k object = None <-> ~ In k (keys object).
Proof.
  split; [|apply property_absent].
  intros Hnone Hin. unfold keys in Hin. apply in_map_iff in Hin.
  destruct Hin as ([k' v] & Hk & Hin). simpl in Hk. subst k'.
  induction object as [|[k' v'] rest IH]; simpl in *; [contradiction|].
  destruct (String.eqb_spec k' k) as [->|Hne]; [discriminate|].
  destruct Hin as [Heq|Hin]; [congruence|auto].
Qed.

Lemma selected_legacy (o : Options) c n :
  assetApi c = false ->
  selected o c n =
    if negb (matchObject o n) then Some false
    else match property n (assets c) with
         | Some _ => Some true
         | None => None
         end.
Proof.
  intros Hapi. unfold selected, getAsset. rewrite Hapi.
  destruct (negb (matchObject o n)); [reflexivity|].
  now destruct (property n (assets c)).
Qed.

Lemma hasFailed_absent tasks n :
  ~ In n (keys tasks) -> hasFailed tasks n = false.
Proof. intros H. unfold hasFailed. now rewrite property_absent. Qed.

(** X22.  Under the asset API, after a run of [optimize] the filter of a
    second run selects, of the enumerated names, exactly those whose task
    failed; when no task failed the second run selects nothing and
    resolves at once, leaving the compilation as the first run left
    it. *)
Theorem second_run_skips_minimized_assets
        (h : Host) (o : Options) (compiler : Compiler) (c : Compilation)
        (assetsArgument : option (list (string * Source)))
        (interleaving interleaving' assetNames : list string) :
  NoDup (enumerated c assetsArgument) ->
  selectAssets o c (enumerated c assetsArgument) = Some assetNames ->
  assetApi c = true ->
  exists run,
    optimize h o compiler c assetsArgument interleaving = Some run /\
    let c' := compilation (run_world run) in
    enumerated c' assetsArgument = enumerated c assetsArgument /\
    (forall n,
       In n (enumerated c assetsArgument) ->
       selected o c' n = Some (hasFailed (run_tasks run) n)) /\
    ((forall n, hasFailed (run_tasks run) n = false) ->
     optimize h o compiler c' assetsArgument interleaving' =
       Some (mkRun (mkWorld c' [] []) [] None false)).
Proof.
  intros Hnodup Hselect Hapi.
  destruct (optimize_spec h o compiler c assetsArgument interleaving
              assetNames Hnodup Hselect)
    as (run & Hopt & Hkeys & Hapi' & Hfin & Hunt & _).
  destruct (optimize_Grown h o compiler c assetsArgument interleaving
              assetNames Hnodup Hselect) as (run' & Hopt' & [Hk _ _ _]).
  rewrite Hopt in Hopt'. injection Hopt' as <-. cbn [compilation] in Hk.
  exists run. split; [exact Hopt|]. cbv zeta.
  pose proof (enumerated_after c _ assetsArgument Hk) as Henum.
  assert (Heach : forall n,
             In n (enumerated c assetsArgument) ->
             selected o (compilation (run_world run)) n =
               Some (hasFailed (run_tasks run) n)).
  { intros n Hn.
    destruct (in_dec string_dec n assetNames) as [Hin|Hout].
    - destruct (task_of_selected _ _ n Hkeys Hin) as (p & Hp).
      destruct (Hfin n p Hp) as (a & v & Ha & Hmin & -> & Hinv).
      destruct (getAsset_inv _ _ _ Ha) as (Hname & _).
      destruct (selected_asset o c assetsArgument assetNames Hselect n Hin)
        as (Hmatch & _).
      assert (Hprop : property n (run_tasks run) = Some (Finished v)).
      { apply In_property; [|exact Hp]. rewrite Hkeys.
        eapply selectAssets_NoDup; eauto. }
      unfold hasFailed. rewrite Hprop.
      unfold selected. rewrite Hmatch. cbn [negb].
      unfold TaskInv in Hinv. rewrite Hname in Hinv.
      destruct v as [|output|error|output].
      + contradiction.
      + destruct Hinv as (_ & -> & _).
        unfold updatedAsset, minimizedInfo. rewrite Hapi. reflexivity.
      + destruct Hinv as (_ & _ & -> & _). now rewrite Hmin.
      + destruct Hinv as (_ & _ & -> & _).
        unfold updatedAsset, minimizedInfo. rewrite Hapi. reflexivity.
    - rewrite hasFailed_absent by now rewrite Hkeys.
      rewrite <- (selectAssets_each o c _ assetNames n Hselect Hn Hout).
      apply selected_ext. destruct (Hunt n Hout) as [Ua Ui _ _ _].
      now apply getAsset_ext. }
  split; [exact Henum|]. split; [exact Heach|].
  intros Hnone. apply optimize_nothing_selected.
  intros n Hn. rewrite Henum in Hn. rewrite (Heach n Hn). now rewrite Hnone.
Qed.

(** One stylesheet: the second run finds it flagged. *)
Lemma second_run_skips_minimized_assets_witness :
  exists run,
    optimize Sample.host Sample.options Sample.compiler Sample.single None
      [] = Some run /\
    optimize Sample.host Sample.options Sample.compiler
      (compilation (run_world run)) None [] =
      Some (mkRun (mkWorld (compilation (run_world run)) [] []) [] None
              false).
Proof.
  destruct (second_run_skips_minimized_assets
              Sample.host Sample.options Sample.compiler Sample.single None
              [] [] ["main.css"])
    as (run & Hopt & _ & _ & Hidle).
  - repeat constructor. simpl. tauto.
  - reflexivity.
  - reflexivity.
  - exists run. split; [exact Hopt|]. apply Hidle.
    assert (Hrun : exists output,
               run_tasks run = [("main.css", Finished (Minified output))]).
    { revert Hopt. vm_compute. intros Hopt. injection Hopt as <-.
      simpl. eauto. }
    destruct Hrun as (output & Hrun).
    intros n. unfold hasFailed. rewrite Hrun. cbn [property].
    destruct (_ =? n); reflexivity.
Defined.

(** X23.  Without the asset API ([compilation.getAsset] and
    [compilation.updateAsset] missing) no flag is kept: after a run every
    asset still has an empty info, and a second run selects the same
    assets again. *)
Theorem legacy_api_minifies_again
        (h : Host) (o : Options) (compiler : Compiler) (c : Compilation)
        (assetsArgument : option (list (string * Source)))
        (interleaving assetNames : list string) :
  NoDup (enumerated c assetsArgument) ->
  selectAssets o c (enumerated c assetsArgument) = Some assetNames ->
  assetApi c = false ->
  exists run,
    optimize h o compiler c assetsArgument interleaving = Some run /\
    let c' := compilation (run_world run) in
    (forall name a, getAsset c' name = Some a -> asset_info a = emptyInfo) /\
    selectAssets o c' (enumerated c' assetsArgument) = Some assetNames.
Proof.
  intros Hnodup Hselect Hapi.
  destruct (optimize_spec h o compiler c assetsArgument interleaving
              assetNames Hnodup Hselect)
    as (run & Hopt & _ & Hapi' & _).
  destruct (optimize_Grown h o compiler c assetsArgument interleaving
              assetNames Hnodup Hselect) as (run' & Hopt' & [Hk _ _ _]).
  rewrite Hopt in Hopt'. injection Hopt' as <-. cbn [compilation] in Hk.
  rewrite Hapi in Hapi'.
  exists run. split; [exact Hopt|]. cbv zeta. split.
  - intros name a Ha. apply getAsset_inv in Ha.
    destruct Ha as (_ & _ & ->). now rewrite Hapi'.
  - rewrite (enumerated_after c _ assetsArgument Hk), <- Hselect.
    apply selectAssets_ext. intros n _.
    rewrite !selected_legacy by assumption.
    destruct (negb (matchObject o n)); [reflexivity|].
    destruct (property n (assets c)) eqn:E.
    + destruct (property n (assets (compilation (run_world run)))) eqn:E';
        [reflexivity|].
      apply property_none_keys in E'. rewrite Hk in E'.
      apply property_none_keys in E'. congruence.
    + apply property_none_keys in E. rewrite <- Hk in E.
      apply property_none_keys in E. now rewrite E.
Qed.

(** One stylesheet without the asset API: it is selected again. *)
Lemma legacy_api_minifies_again_witness :
  exists run,
    optimize Sample.host Sample.options Sample.compiler Sample.legacyCompilation
      None [] = Some run /\
    selectAssets Sample.options (compilation (run_world run))
      (enumerated (compilation (run_world run)) None) = Some ["main.css"].
Proof.
  destruct (legacy_api_minifies_again
              Sample.host Sample.options Sample.compiler Sample.legacyCompilation
              None [] ["main.css"])
    as (run & Hopt & _ & Hagain).
  - repeat constructor. simpl. tauto.
  - reflexivity.
  - reflexivity.
  - exists run. auto.
Defined.

(** *** What the default plugin selects *)

(** X2.  A plugin constructed without [test], [include] and [exclude]
    selects an enumerated name exactly when the default [test] accepts it
    and the asset of that name is not flagged [minimized]. *)
Theorem default_plugin_selects_css_assets
        (o : Options) (options : RawOptions) (c : Compilation)
        (name : string) :
  settings o = constructor options ->
  raw_test options = None ->
  raw_include options = None ->
  raw_exclude options = None ->
  (selected o c name = Some true <->
   DefaultTest.test name = true /\
   exists a, getAsset c name = Some a /\ minimized (asset_info a) = false).
Proof.
  intros Hset Htest Hinc Hexc. rewrite selected_true.
  assert (Hmatch : matchObject o name = DefaultTest.test name).
  { unfold matchObject, test, include, exclude. rewrite Hset.
    unfold constructor. cbn. rewrite Htest, Hinc, Hexc.
    now rewrite !andb_true_r. }
  now rewrite Hmatch.
Qed.

(** [main.css] under the default options. *)
Lemma default_plugin_selects_css_assets_witness :
  selected Sample.defaultOptions Sample.compilation "main.css" = Some true.
Proof.
  apply (default_plugin_selects_css_assets Sample.defaultOptions Sample.noOptions
           Sample.compilation "main.css"); try reflexivity.
  split; [reflexivity|]. eexists. split; reflexivity.
Defined.

(** *** Two interleavings *)





(** *** Names that are not enumerated *)

(** X26.  A name that [optimize] does not enumerate (it is not a key of
    the [assets] argument) is left alone by the run, under every
    interleaving, also when it passes the conditions and its asset is not
    flagged: same asset, same info, no error, no warning and no call of
    the minifier for it. *)
Theorem asset_outside_the_assets_argument_is_left_alone
        (h : Host) (o : Options) (compiler : Compiler) (c : Compilation)
        (assetsArgument : option (list (string * Source)))
        (interleaving : list string) (name : string) :
  NoDup (enumerated c assetsArgument) ->
  (forall n, In n (enumerated c assetsArgument) ->
             matchObject o n = true -> getAsset c n <> None) ->
  ~ In name (enumerated c assetsArgument) ->
  exists run,
    optimize h o compiler c assetsArgument interleaving = Some run /\
    getAsset (compilation (run_world run)) name = getAsset c name /\
    property name (assetsInfo (compilation (run_world run))) =
      property name (assetsInfo c) /\
    entriesFor name (errors (compilation (run_world run))) =
      entriesFor name (errors c) /\
    entriesFor name (warnings (compilation (run_world run))) =
      entriesFor name (warnings c) /\
    callsFor name (calls (run_world run)) = [].
Proof.
  intros Hnodup Hpresent Hout.
  destruct (selectAssets_total o c (enumerated c assetsArgument) Hpresent)
    as (assetNames & Hselect).
  assert (Hnotin : ~ In name assetNames).
  { intros Hin. apply Hout.
    now apply (selectAssets_In o c _ assetNames name Hselect). }
  destruct (optimize_spec h o compiler c assetsArgument interleaving
              assetNames Hnodup Hselect)
    as (run & Hopt & _ & Hapi & _ & Hunt & _).
  destruct (Hunt name Hnotin) as [Ua Ui Ue Uw Uc]. simpl in *.
  exists run. split; [exact Hopt|].
  split; [now apply getAsset_ext|]. auto.
Qed.

(** [optimize] is handed [main.css] alone: [broken.css] is not touched. *)
Lemma asset_outside_the_assets_argument_is_left_alone_witness :
  exists run,
    optimize Sample.host Sample.options Sample.compiler Sample.compilation
      (Some [("main.css", Sample.mainSource)]) [] = Some run /\
    getAsset (compilation (run_world run)) "broken.css" =
      Some (mkAsset "broken.css" Sample.brokenSource emptyInfo) /\
    callsFor "broken.css" (calls (run_world run)) = [].
Proof.
  destruct (asset_outside_the_assets_argument_is_left_alone
              Sample.host Sample.options Sample.compiler Sample.compilation
              (Some [("main.css", Sample.mainSource)]) [] "broken.css")
    as (run & Hopt & Hget & _ & _ & _ & Hcalls).
  - repeat constructor. simpl. tauto.
  - intros n [<-|[]] _. discriminate.
  - simpl. intros [H|[]]. discriminate.
  - exists run. auto.
Defined.

(** *** The [cacheKeys] option *)

Lemma cacheDataFor_without_keys h (o : Options) name inputSource input ism :
  isWebpack4 h = false \/ Js.truthy (cache o) = false ->
  cacheDataFor h o name inputSource input ism =
  mkCacheData name inputSource None.
Proof.
  intros Hoff. unfold cacheDataFor.
  destruct Hoff as [-> | ->]; [reflexivity|now rewrite andb_false_r].
Qed.

Lemma resume_without_keys h s k k' compiler wk name p w :
  isWebpack4 h = false \/ Js.truthy (cache s) = false ->
  resume h (mkOptions s k') compiler wk name p w =
  resume h (mkOptions s k) compiler wk name p w.
Proof.
  intros Hoff.
  destruct p as [|l [output|]|l [r|error]|l output|v|]; try reflexivity.
  cbn [resume]. unfold start.
  destruct (getAsset (compilation w) name) as [a|]; [|reflexivity].
  destruct (minimized (asset_info a)); [reflexivity|].
  cbv zeta.
  rewrite (cacheDataFor_without_keys h (mkOptions s k')) by exact Hoff.
  rewrite (cacheDataFor_without_keys h (mkOptions s k)) by exact Hoff.
  reflexivity.
Qed.

Lemma runSchedule_without_keys h s k k' compiler wk order : forall pool,
  isWebpack4 h = false \/ Js.truthy (cache s) = false ->
  runSchedule h (mkOptions s k') compiler wk order pool =
  runSchedule h (mkOptions s k) compiler wk order pool.
Proof.
  induction order as [|name rest IH]; intros pool Hoff; [reflexivity|].
  cbn [runSchedule List.fold_left].
  change (runSchedule h (mkOptions s k') compiler wk rest
            (advance h (mkOptions s k') compiler wk pool name) =
          runSchedule h (mkOptions s k) compiler wk rest
            (advance h (mkOptions s k) compiler wk pool name)).
  rewrite IH by exact Hoff. f_equal.
  unfold advance. destruct (property name (fst pool)); [|reflexivity].
  now rewrite (resume_without_keys h s k k').
Qed.

Lemma selectAssets_without_keys s k k' c names :
  selectAssets (mkOptions s k') c names = selectAssets (mkOptions s k) c names.
Proof.
  induction names as [|m rest IH]; [reflexivity|].
  cbn [selectAssets]. rewrite IH. reflexivity.
Qed.

(** X25.  The [cacheKeys] option is consulted under webpack 4 with the
    cache on only: under another webpack, or with a falsy [cache] option,
    two plugins that differ in their [cacheKeys] alone run [optimize] to
    the same result. *)
Theorem cacheKeys_matter_only_under_webpack4_with_cache
        (h : Host) (o o' : Options) (compiler : Compiler) (c : Compilation)
        (assetsArgument : option (list (string * Source)))
        (interleaving : list string) :
  settings o' = settings o ->
  isWebpack4 h = false \/ Js.truthy (cache o) = false ->
  optimize h o' compiler c assetsArgument interleaving =
  optimize h o compiler c assetsArgument interleaving.
Proof.
  destruct o as [s k], o' as [s' k']. cbn [settings]. intros -> Hoff.
  unfold optimize.
  rewrite (selectAssets_without_keys s k k').
  destruct (selectAssets (mkOptions s k) c _) as [assetNames|];
    [|reflexivity].
  destruct (List.length assetNames =? 0)%nat; [reflexivity|].
  cbv zeta.
  change (schedule h (mkOptions s k') assetNames) with
    (schedule h (mkOptions s k) assetNames).
  unfold runTasks.
  rewrite (runSchedule_without_keys h s k k') by exact Hoff.
  reflexivity.
Qed.

(** The host of the example runs webpack 5. *)
Lemma cacheKeys_matter_only_under_webpack4_with_cache_witness :
  optimize Sample.host
    (mkOptions Sample.settings (fun _ _ => Js.VNull)) Sample.compiler
    Sample.compilation None Sample.interleaving =
  optimize Sample.host Sample.options Sample.compiler Sample.compilation
    None Sample.interleaving.
Proof.
  apply (cacheKeys_matter_only_under_webpack4_with_cache Sample.host
           Sample.options (mkOptions Sample.settings (fun _ _ => Js.VNull))).
  - reflexivity.
  - left. reflexivity.
Defined.

(** ** The embedding on concrete inputs *)

Example isSourceMap_good : isSourceMap Sample.goodMap = true.
Proof. reflexivity. Qed.

Example isSourceMap_without_mappings : isSourceMap Sample.brokenMap = false.
Proof. reflexivity. Qed.

Example isSourceMap_string : isSourceMap (Js.VStr "{}") = false.
Proof. reflexivity. Qed.

Example exec_position :
  WarningRegex.exec "Unexpected token at a.css:12:34 here" =
  Some (WarningRegex.mkMatch "Unexpected" " token at a.css:12:34"
          "12" "34" " here").
Proof. reflexivity. Qed.

Example exec_takes_last_two_numbers :
  WarningRegex.exec "x a:1:2:3:4" =
  Some (WarningRegex.mkMatch "x" " a:1:2:3:4" "3" "4" "").
Proof. reflexivity. Qed.

Example exec_needs_a_space : WarningRegex.exec "a.css:12:34" = None.
Proof. reflexivity. Qed.

Example buildError_with_line :
  buildError Sample.unclosed "broken.css" None (Some Sample.shortener) =
  "broken.css from Css Minimizer " ++ Js.nl ++
  "Unclosed block [broken.css:1,3]".
Proof. reflexivity. Qed.

Example buildError_resolved :
  buildError Sample.unclosed "broken.css" (Some Sample.consumer)
    (Some Sample.shortener) =
  "broken.css from Css Minimizer Webpack Plugin" ++ Js.nl ++
  "Unclosed block [original.css:5,2][broken.css:1,3]".
Proof. reflexivity. Qed.

Example buildError_stack :
  buildError
    (mkMinifyError None None "boom"
       (Some ("Error: boom" ++ Js.nl ++ "    at minify")))
    "a.css" None None =
  "a.css from Css Minimizer" ++ Js.nl ++ "Error: boom" ++ Js.nl ++
  "    at minify".
Proof. reflexivity. Qed.

Example cores_auto :
  getAvailableNumberOfCores (Some 4%nat) (ParallelBool true) = 3%Z.
Proof. reflexivity. Qed.

Example cores_off :
  getAvailableNumberOfCores (Some 4%nat) (ParallelBool false) = 0%Z.
Proof. reflexivity. Qed.

Example cores_unknown :
  getAvailableNumberOfCores None (ParallelNumber 8) = 0%Z.
Proof. reflexivity. Qed.

(** One stylesheet, minified through the worker: the asset holds the
    source built on the code the minifier returned and is flagged. *)
Example optimize_single :
  option_map
    (fun run => getAsset (compilation (run_world run)) "main.css")
    (optimize Sample.host Sample.options Sample.compiler Sample.single
       None []) =
  Some (Some (mkAsset "main.css"
                (RawSource Sample.host ".a{color:red}")
                (mkInfo true []))).
Proof. reflexivity. Qed.
